(** * code-bookmark: the bookmark forest, its manager and its serializer

    A shallow embedding of [src/bookmark.ts], [src/bookmarkGroup.ts] and
    [src/bookmarkManager.ts].

    - A [Bookmark] is an immutable value once built; a [BookmarkGroup] is a
      mutable object.  Groups are owned downward (a group holds its children
      by value), and every group object carries the address it was allocated
      at.  A reference to a group, as [findGroupById] returns it or a loop
      over [getAllGroups] visits it, is the group as it was when the
      reference was taken; a method call through the reference ([call],
      [modify]) changes the live object at that address, and the [parent]
      back-reference holds an address.
    - The manager's methods run in a state monad over the manager's two
      private fields, what [globalState] stores, the allocation counter and
      the log of what the manager did to the outside (events fired,
      documents stored, messages).
    - The editor, [vscode.Uri], [Date], [JSON.parse] and [path.basename] are
      not code of this repository: they are the fields of the class [Host].
    - [JSON.stringify] and the editor's tabs are arguments of
      [exportToJSON] and [closeAll], the two methods that use them.
    - Not modelled: the tree view and the commands. *)

From Stdlib Require Import String Ascii List ZArith Bool Arith Lia Permutation.
From Stdlib Require Import DecimalString.
Import ListNotations.
Open Scope string_scope.
Open Scope list_scope.

Set Implicit Arguments.

(** ** Exceptions *)

(** What a JavaScript [throw] carries, as far as the code tells them apart
    (it never does: every [catch] logs and goes on). *)
Inductive Exn : Type :=
| TypeError      (* a method call or a property read on [undefined] *)
| HostError.     (* raised inside a collaborator ([Uri.parse], [JSON.parse]) *)

Inductive Result (A : Type) : Type :=
| Ok (a : A)
| Throw (e : Exn).
Arguments Ok {A} a.
Arguments Throw {A} e.

Declare Scope result_scope.
Delimit Scope result_scope with result.
Notation "x <- c1 ;; c2" :=
  (match c1 with Ok x => c2 | Throw e => Throw e end)
  (at level 61, c1 at next level, right associativity) : result_scope.

(** [xs.map(f)] where [f] may throw: the elements are visited in order and
    the first exception leaves [map]. *)
Fixpoint map_throwing {A B : Type} (f : A -> Result B) (xs : list A)
  : Result (list B) :=
  match xs with
  | [] => Ok []
  | x :: xs' =>
      (y <- f x ;; ys <- map_throwing f xs' ;; Ok (y :: ys))%result
  end.

(** [a || b] on an optional string: [undefined] and the empty string are
    the falsy ones. *)
Definition js_or (a : option string) (b : string) : string :=
  match a with
  | Some s => if String.eqb s "" then b else s
  | None => b
  end.

(** [if (s)] on an optional string. *)
Definition truthy (a : option string) : option string :=
  match a with
  | Some s => if String.eqb s "" then None else Some s
  | None => None
  end.

(** A number inside a template literal. *)
Definition string_of_Z (z : Z) : string := NilZero.string_of_int (Z.to_int z).

(** ** Serialized documents

    The documents of [toJSON], [globalState] and [importFromJSON].  The code
    reads them as [any]; the model covers the documents on which the code
    builds objects of the declared TypeScript types: [id], [createdAt] and a
    group's [name] are strings, and every field the code can do without, or
    on whose absence it raises, is optional ([None] is [undefined], and for
    the two arrays also "not an array"). *)

Record BookmarkData : Type := mkBookmarkData {
  bd_id : string;
  bd_uri : option string;
  bd_name : option string;
  bd_description : option string;
  bd_createdAt : string
}.

#[warnings="-register-all"]
Inductive GroupData : Type := mkGroupData {
  gd_id : string;
  gd_name : string;
  gd_description : option string;
  gd_bookmarks : option (list BookmarkData);
  gd_groups : option (list GroupData);
  gd_createdAt : string
}.

Record Document : Type := mkDocument {
  doc_bookmarks : option (list BookmarkData);
  doc_groups : option (list GroupData)
}.

(** ** What the code does to the outside *)

Inductive Event : Type :=
| DidChangeData                        (* this._onDidChangeData.fire() *)
| GlobalStateUpdate (data : Document)  (* globalState.update('tabBookmarks.data', data) *)
| SetKeysForSync                       (* globalState.setKeysForSync(['tabBookmarks.data']) *)
| TextDocumentShown (uri : string)     (* an editor now shows the file *)
| ShowErrorMessage (msg : string)      (* vscode.window.showErrorMessage(msg) *)
| ConsoleError (msg : string).         (* console.error(msg, ...) *)

(** ** Effects: a state and exception monad

    [M S A] is a computation over a store [S] that returns an [A] or
    throws; what it did to the store before throwing stays done. *)

Definition M (S A : Type) : Type := S -> Result A * S.

Definition ret {S A : Type} (a : A) : M S A := fun s => (Ok a, s).

Definition bind {S A B : Type} (m : M S A) (k : A -> M S B) : M S B :=
  fun s =>
    match m s with
    | (Ok a, s') => k a s'
    | (Throw e, s') => (Throw e, s')
    end.

Definition throw {S A : Type} (e : Exn) : M S A := fun s => (Throw e, s).

(** [try { body } catch (error) { handler }] *)
Definition try_catch {S A : Type} (body : M S A) (handler : Exn -> M S A) : M S A :=
  fun s =>
    match body s with
    | (Ok a, s') => (Ok a, s')
    | (Throw e, s') => handler e s'
    end.

Definition get {S : Type} : M S S := fun s => (Ok s, s).
Definition put {S : Type} (s : S) : M S unit := fun _ => (Ok tt, s).
Definition lift {S A : Type} (r : Result A) : M S A := fun s => (r, s).

Declare Scope monad_scope.
Delimit Scope monad_scope with monad.
Notation "x <- c1 ;; c2" := (bind c1 (fun x => c2))
  (at level 61, c1 at next level, right associativity) : monad_scope.
Notation "c1 ;; c2" := (bind c1 (fun _ => c2))
  (at level 61, right associativity) : monad_scope.

(** [for (const x of xs) { body(x) }] *)
Fixpoint for_each {S A : Type} (xs : list A) (body : A -> M S unit) : M S unit :=
  match xs with
  | [] => ret tt
  | x :: xs' => (body x ;; for_each xs' body)%monad
  end.

(** [xs.map(f)] where [f] allocates or throws. *)
Fixpoint map_m {S A B : Type} (f : A -> M S B) (xs : list A) : M S (list B) :=
  match xs with
  | [] => ret []
  | x :: xs' => (y <- f x ;; ys <- map_m f xs' ;; ret (y :: ys))%monad
  end.

(** ** The collaborators *)

(** What the code asks of the editor and of the JavaScript library.
    Timestamps are time values (milliseconds); [Date_parse s] is
    [new Date(s)] and is taken total: a string JavaScript cannot read as a
    date (an [Invalid Date], on which [toISOString] raises) is outside the
    model. *)
Class Host : Type := {
  Uri : Type;                                (* vscode.Uri *)
  Uri_parse : option string -> Result Uri;   (* vscode.Uri.parse(data.uri) *)
  Uri_toString : Uri -> string;              (* uri.toString() *)
  Uri_basename : Uri -> string;              (* path.basename(uri.fsPath) *)
  toISOString : Z -> string;                 (* date.toISOString() *)
  Date_parse : string -> Z;                  (* new Date(s) *)
  JSON_parse : string -> Result (option Document);
                                             (* JSON.parse(jsonData); None is null *)
  showTextDocument : Uri -> bool;            (* does opening and showing succeed *)
  syncEnabled : bool                         (* the 'syncEnabled' setting *)
}.

(** What one constructor call reads from its surroundings. *)
Record Ambient : Type := mkAmbient {
  Date_now : Z;           (* Date.now() *)
  random_1000 : Z;        (* Math.floor(Math.random() * 1000) *)
  new_Date : Z            (* new Date() *)
}.

(** ** Bookmark *)

Module Bookmark.
Section WithHost.
Context {host : Host}.

Record t : Type := mk {
  id : string;
  uri : Uri;
  name : string;
  description : string;
  createdAt : Z
}.

(** [constructor(uri, name?, description?)] *)
Definition new (amb : Ambient) (uri : Uri) (name description : option string) : t :=
  {| id := "bookmark-" ++ string_of_Z (Date_now amb) ++ "-"
             ++ string_of_Z (random_1000 amb);
     uri := uri;
     name := js_or name (Uri_basename uri);
     description := js_or description "";
     createdAt := new_Date amb |}.

Definition toJSON (b : t) : BookmarkData :=
  {| bd_id := id b;
     bd_uri := Some (Uri_toString (uri b));
     bd_name := Some (name b);
     bd_description := Some (description b);
     bd_createdAt := toISOString (createdAt b) |}.

(** [static fromJSON(data)]: the constructor's own [id] and [createdAt]
    are overwritten at once (lines 88-89), so what it read from the clock
    and from [Math.random] is never seen. *)
Definition fromJSON (data : BookmarkData) : Result t :=
  (u <- Uri_parse (bd_uri data) ;;
   Ok {| id := bd_id data;
         uri := u;
         name := js_or (bd_name data) (Uri_basename u);
         description := js_or (bd_description data) "";
         createdAt := Date_parse (bd_createdAt data) |})%result.

(** [async open()]: the two awaited calls succeed together or the first
    failure is caught. *)
Definition open (b : t) : M (list Event) (option Uri) :=
  try_catch
    (fun log =>
       if showTextDocument (uri b)
       then (Ok (Some (uri b)), log ++ [TextDocumentShown (Uri_toString (uri b))])
       else (Throw HostError, log))
    (fun _ log =>
       (Ok None,
        log ++ [ShowErrorMessage ("Failed to open bookmark: " ++ name b);
                ConsoleError "Failed to open bookmark:"])).

End WithHost.
Arguments t : clear implicits.
Arguments t {host}.
End Bookmark.

(** ** BookmarkGroup *)

Module BookmarkGroup.
Section WithHost.
Context {host : Host}.

(** [addr] is the identity of the object (where [new] put it), not a
    field of the class; [parent] holds the address of the parent object. *)
#[warnings="-register-all"]
Inductive t : Type := mk {
  addr : nat;
  id : string;
  name : string;
  description : string;
  bookmarks : list Bookmark.t;
  groups : list t;
  parent : option nat;
  createdAt : Z
}.

Definition set_bookmarks (bs : list Bookmark.t) (g : t) : t :=
  mk (addr g) (id g) (name g) (description g) bs (groups g) (parent g) (createdAt g).
Definition set_groups (gs : list t) (g : t) : t :=
  mk (addr g) (id g) (name g) (description g) (bookmarks g) gs (parent g) (createdAt g).
Definition set_parent (p : option nat) (g : t) : t :=
  mk (addr g) (id g) (name g) (description g) (bookmarks g) (groups g) p (createdAt g).
Definition set_name (n : string) (g : t) : t :=
  mk (addr g) (id g) n (description g) (bookmarks g) (groups g) (parent g) (createdAt g).
Definition set_description (d : string) (g : t) : t :=
  mk (addr g) (id g) (name g) d (bookmarks g) (groups g) (parent g) (createdAt g).

(** [constructor(name, description?, parent?)], the new object at [a]. *)
Definition new (a : nat) (amb : Ambient) (name : string)
           (description : option string) (parent : option nat) : t :=
  {| addr := a;
     id := "group-" ++ string_of_Z (Date_now amb) ++ "-"
             ++ string_of_Z (random_1000 amb);
     name := name;
     description := js_or description "";
     bookmarks := [];
     groups := [];
     parent := parent;
     createdAt := new_Date amb |}.

(** The methods that change [this] are functions from the object to the
    object; [modify] below applies them through a reference. *)

Definition addBookmark (bookmark : Bookmark.t) (this : t) : t :=
  if negb (existsb (fun b => String.eqb (Bookmark.id b) (Bookmark.id bookmark))
                   (bookmarks this))
  then set_bookmarks (bookmarks this ++ [bookmark]) this
  else this.

Definition removeBookmark (id : string) (this : t) : bool * t :=
  let initialLength := length (bookmarks this) in
  let this' :=
    set_bookmarks
      (filter (fun b => negb (String.eqb (Bookmark.id b) id)) (bookmarks this)) this in
  (negb (Nat.eqb initialLength (length (bookmarks this'))), this').

(** [group.parent = this] writes into the child before it is pushed. *)
Definition addGroup (group : t) (this : t) : t :=
  if negb (existsb (fun g => String.eqb (id g) (id group)) (groups this))
  then set_groups (groups this ++ [set_parent (Some (addr this)) group]) this
  else this.

Definition removeGroup (id' : string) (this : t) : bool * t :=
  let initialLength := length (groups this) in
  let this' :=
    set_groups (filter (fun g => negb (String.eqb (id g) id')) (groups this)) this in
  (negb (Nat.eqb initialLength (length (groups this'))), this').

(** [async openAll()] *)
Definition openAll (this : t) : M (list Event) unit :=
  for_each (bookmarks this) (fun bookmark => (Bookmark.open bookmark ;; ret tt)%monad).

Definition isEmpty (this : t) : bool :=
  Nat.eqb (length (bookmarks this)) 0 && Nat.eqb (length (groups this)) 0.

Fixpoint getAllBookmarks (this : t) : list Bookmark.t :=
  fold_left (fun allBookmarks group => allBookmarks ++ getAllBookmarks group)
            (groups this) (bookmarks this).

Fixpoint toJSON (this : t) : GroupData :=
  {| gd_id := id this;
     gd_name := name this;
     gd_description := Some (description this);
     gd_bookmarks := Some (map Bookmark.toJSON (bookmarks this));
     gd_groups := Some (map toJSON (groups this));
     gd_createdAt := toISOString (createdAt this) |}.

(** [static fromJSON(data)], allocating from [next] on.  The constructor
    runs first, then the bookmarks are read, then the child groups, each
    child getting the new group as its parent. *)
Fixpoint fromJSON (data : GroupData) : M nat t :=
  (a <- get ;;
   put (S a) ;;
   bms <- lift (match gd_bookmarks data with
                | Some bds => map_throwing Bookmark.fromJSON bds
                | None => Throw TypeError
                end) ;;
   gs <- match gd_groups data with
         | Some gds =>
             map_m (fun groupData =>
                      childGroup <- fromJSON groupData ;;
                      ret (set_parent (Some a) childGroup))
                   gds
         | None => throw TypeError
         end ;;
   ret {| addr := a;
          id := gd_id data;
          name := gd_name data;
          description := js_or (gd_description data) "";
          bookmarks := bms;
          groups := gs;
          parent := None;
          createdAt := Date_parse (gd_createdAt data) |})%monad.

(** A method call [ref.method(...)] on the object at address [a],
    wherever it sits below [g]. *)
Fixpoint modify (a : nat) (method : t -> t) (g : t) : t :=
  let g' := set_groups (map (modify a method) (groups g)) g in
  if Nat.eqb (addr g') a then method g' else g'.

End WithHost.
Arguments t : clear implicits.
Arguments t {host}.
End BookmarkGroup.

(** ** BookmarkManager *)

Module BookmarkManager.
Section WithHost.
Context {host : Host}.

(** The manager's private fields [groups] and [bookmarks]; what
    [context.globalState] holds under ['tabBookmarks.data']; the next free
    address; and the log of what was done to the outside, oldest first. *)
Record t : Type := mk {
  groups : list BookmarkGroup.t;
  bookmarks : list Bookmark.t;
  globalState : option Document;
  next_addr : nat;
  log : list Event
}.

Definition set_groups (gs : list BookmarkGroup.t) : M t unit :=
  fun s => (Ok tt, mk gs (bookmarks s) (globalState s) (next_addr s) (log s)).
Definition set_bookmarks (bs : list Bookmark.t) : M t unit :=
  fun s => (Ok tt, mk (groups s) bs (globalState s) (next_addr s) (log s)).
Definition emit (es : list Event) : M t unit :=
  fun s => (Ok tt, mk (groups s) (bookmarks s) (globalState s) (next_addr s) (log s ++ es)).

(** Running a computation that allocates group objects. *)
Definition allocating {A : Type} (m : M nat A) : M t A :=
  fun s =>
    let (r, n) := m (next_addr s) in
    (r, mk (groups s) (bookmarks s) (globalState s) n (log s)).

(** [ref.method(...)] for a method that changes the group [ref] points to. *)
Definition call (ref : BookmarkGroup.t) (method : BookmarkGroup.t -> BookmarkGroup.t)
  : M t unit :=
  fun s =>
    (Ok tt, mk (map (BookmarkGroup.modify (BookmarkGroup.addr ref) method) (groups s))
               (bookmarks s) (globalState s) (next_addr s) (log s)).

(** [this._onDidChangeData.fire()] *)
Definition fire : M t unit := emit [DidChangeData].

Definition saveState : M t unit :=
  fun s =>
    let data := {| doc_bookmarks := Some (map Bookmark.toJSON (bookmarks s));
                   doc_groups := Some (map BookmarkGroup.toJSON (groups s)) |} in
    (Ok tt,
     mk (groups s) (bookmarks s) (Some data) (next_addr s)
        (log s ++ GlobalStateUpdate data
               :: (if syncEnabled then [SetKeysForSync] else []))).

Definition getBookmarks (s : t) : list Bookmark.t := bookmarks s.
Definition getGroups (s : t) : list BookmarkGroup.t := groups s.

Fixpoint getAllGroupsRecursive (group : BookmarkGroup.t) : list BookmarkGroup.t :=
  fold_left (fun groups childGroup => groups ++ getAllGroupsRecursive childGroup)
            (BookmarkGroup.groups group) (BookmarkGroup.groups group).

Definition getAllGroups (s : t) : list BookmarkGroup.t :=
  fold_left (fun allGroups group => allGroups ++ getAllGroupsRecursive group)
            (groups s) (groups s).

Definition getAllBookmarks (s : t) : list Bookmark.t :=
  fold_left (fun allBookmarks group => allBookmarks ++ BookmarkGroup.bookmarks group)
            (getAllGroups s) (bookmarks s).

Fixpoint findGroupByIdRecursive (currentGroup : BookmarkGroup.t) (id : string)
  : option BookmarkGroup.t :=
  if String.eqb (BookmarkGroup.id currentGroup) id then Some currentGroup
  else
    (fix children (l : list BookmarkGroup.t) : option BookmarkGroup.t :=
       match l with
       | [] => None
       | childGroup :: l' =>
           match findGroupByIdRecursive childGroup id with
           | Some result => Some result
           | None => children l'
           end
       end) (BookmarkGroup.groups currentGroup).

(** The loops of [findGroupById] and [findBookmarkById]: the first hit
    leaves the loop. *)
Fixpoint first_some {A B : Type} (f : A -> option B) (xs : list A) : option B :=
  match xs with
  | [] => None
  | x :: xs' => match f x with Some y => Some y | None => first_some f xs' end
  end.

Definition findGroupById (id : string) (s : t) : option BookmarkGroup.t :=
  match find (fun g => String.eqb (BookmarkGroup.id g) id) (groups s) with
  | Some group => Some group
  | None => first_some (fun rootGroup => findGroupByIdRecursive rootGroup id) (groups s)
  end.

Definition findBookmarkById (id : string) (s : t) : option Bookmark.t :=
  match find (fun b => String.eqb (Bookmark.id b) id) (bookmarks s) with
  | Some bookmark => Some bookmark
  | None =>
      first_some
        (fun group => find (fun b => String.eqb (Bookmark.id b) id)
                           (BookmarkGroup.bookmarks group))
        (getAllGroups s)
  end.

Definition addBookmark (amb : Ambient) (uri : Uri) (name description groupId : option string)
  : M t Bookmark.t :=
  (let bookmark := Bookmark.new amb uri name description in
   s <- get ;;
   match truthy groupId with
   | Some groupId =>
       match findGroupById groupId s with
       | Some group => call group (BookmarkGroup.addBookmark bookmark)
       | None => set_bookmarks (bookmarks s ++ [bookmark])
       end
   | None => set_bookmarks (bookmarks s ++ [bookmark])
   end ;;
   fire ;;
   saveState ;;
   ret bookmark)%monad.

(** The loop of [removeBookmark].  A group that holds no such bookmark is
    left as it was by [group.removeBookmark(id)] (it gets an equal list,
    lemma [removeBookmark_nothing]), so the store changes at the first
    group that holds one, where the loop ends. *)
Fixpoint removeBookmark_groups (id : string) (gs : list BookmarkGroup.t) : M t bool :=
  match gs with
  | [] => ret false
  | group :: gs' =>
      if fst (BookmarkGroup.removeBookmark id group)
      then (call group (fun this => snd (BookmarkGroup.removeBookmark id this)) ;;
            ret true)%monad
      else removeBookmark_groups id gs'
  end.

Definition removeBookmark (id : string) : M t bool :=
  (s <- get ;;
   let initialLength := length (bookmarks s) in
   set_bookmarks (filter (fun b => negb (String.eqb (Bookmark.id b) id)) (bookmarks s)) ;;
   s <- get ;;
   let removed := negb (Nat.eqb initialLength (length (bookmarks s))) in
   removed <- (if negb removed then removeBookmark_groups id (getAllGroups s)
               else ret removed) ;;
   (if removed : bool then (fire ;; saveState) else ret tt) ;;
   ret removed)%monad.

(** [createGroup] returns the object it built; attached under a parent,
    that object has had its [parent] written by [addGroup]. *)
Definition createGroup (amb : Ambient) (name : string) (description parentId : option string)
  : M t BookmarkGroup.t :=
  (group <- allocating (a <- get ;; put (S a) ;;
                        ret (BookmarkGroup.new a amb name description None)) ;;
   s <- get ;;
   group <- match truthy parentId with
            | Some parentId =>
                match findGroupById parentId s with
                | Some parentGroup =>
                    call parentGroup (BookmarkGroup.addGroup group) ;;
                    ret (if existsb (fun g => String.eqb (BookmarkGroup.id g)
                                                         (BookmarkGroup.id group))
                                    (BookmarkGroup.groups parentGroup)
                         then group
                         else BookmarkGroup.set_parent
                                (Some (BookmarkGroup.addr parentGroup)) group)
                | None => set_groups (groups s ++ [group]) ;; ret group
                end
            | None => set_groups (groups s ++ [group]) ;; ret group
            end ;;
   fire ;;
   saveState ;;
   ret group)%monad.

(** The loop of [removeGroup], as [removeBookmark_groups] (lemma
    [removeGroup_nothing]). *)
Fixpoint removeGroup_groups (id : string) (gs : list BookmarkGroup.t) : M t bool :=
  match gs with
  | [] => ret false
  | group :: gs' =>
      if fst (BookmarkGroup.removeGroup id group)
      then (call group (fun this => snd (BookmarkGroup.removeGroup id this)) ;;
            ret true)%monad
      else removeGroup_groups id gs'
  end.

Definition removeGroup (id : string) : M t bool :=
  (s <- get ;;
   let initialLength := length (groups s) in
   set_groups (filter (fun g => negb (String.eqb (BookmarkGroup.id g) id)) (groups s)) ;;
   s <- get ;;
   let removed := negb (Nat.eqb initialLength (length (groups s))) in
   removed <- (if negb removed then removeGroup_groups id (getAllGroups s)
               else ret removed) ;;
   (if removed : bool then (fire ;; saveState) else ret tt) ;;
   ret removed)%monad.

(** [name] and [description]: [None] is [undefined]. *)
Definition updateGroup (id : string) (name description : option string) : M t bool :=
  (s <- get ;;
   match findGroupById id s with
   | Some group =>
       match name with
       | Some name => call group (BookmarkGroup.set_name name)
       | None => ret tt
       end ;;
       match description with
       | Some description => call group (BookmarkGroup.set_description description)
       | None => ret tt
       end ;;
       fire ;;
       saveState ;;
       ret true
   | None => ret false
   end)%monad.

Definition moveBookmarkToGroup (bookmarkId targetGroupId : string) : M t bool :=
  (s <- get ;;
   match findBookmarkById bookmarkId s, findGroupById targetGroupId s with
   | Some bookmark, Some targetGroup =>
       removeBookmark bookmarkId ;;
       call targetGroup (BookmarkGroup.addBookmark bookmark) ;;
       fire ;;
       saveState ;;
       ret true
   | _, _ => ret false
   end)%monad.

Definition getBookmarksForFile (uri : Uri) (s : t) : list Bookmark.t :=
  filter (fun bookmark => String.eqb (Uri_toString (Bookmark.uri bookmark)) (Uri_toString uri))
         (getAllBookmarks s).

Definition isFileBookmarked (uri : Uri) (s : t) : bool :=
  Nat.ltb 0 (length (getBookmarksForFile uri s)).

(** [importFromJSON(jsonData, merge)].  When the text is [null], reading
    [data.bookmarks] throws, after the forest was emptied. *)
Definition importFromJSON (jsonData : string) (merge : bool) : M t bool :=
  try_catch
    (data <- lift (JSON_parse jsonData) ;;
     (if negb merge then (set_bookmarks [] ;; set_groups []) else ret tt) ;;
     data <- match data with Some data => ret data | None => throw TypeError end ;;
     match doc_bookmarks data with
     | Some bds =>
         for_each bds (fun bookmarkData =>
           try_catch
             (bookmark <- lift (Bookmark.fromJSON bookmarkData) ;;
              s <- get ;;
              set_bookmarks (bookmarks s ++ [bookmark]))
             (fun _ => emit [ConsoleError "Failed to import bookmark:"]))
     | None => ret tt
     end ;;
     match doc_groups data with
     | Some gds =>
         for_each gds (fun groupData =>
           try_catch
             (group <- allocating (BookmarkGroup.fromJSON groupData) ;;
              s <- get ;;
              set_groups (groups s ++ [group]))
             (fun _ => emit [ConsoleError "Failed to import group:"]))
     | None => ret tt
     end ;;
     fire ;;
     saveState ;;
     ret true)%monad
    (fun _ => (emit [ConsoleError "Failed to import bookmarks:"] ;; ret false)%monad).

Definition loadState : M t unit :=
  (s <- get ;;
   match globalState s with
   | Some data =>
       try_catch
         (match doc_bookmarks data with
          | Some bds =>
              bs <- lift (map_throwing Bookmark.fromJSON bds) ;;
              set_bookmarks bs
          | None => ret tt
          end ;;
          match doc_groups data with
          | Some gds =>
              gs <- allocating (map_m BookmarkGroup.fromJSON gds) ;;
              set_groups gs
          | None => ret tt
          end)
         (fun _ =>
            emit [ConsoleError "Failed to load bookmarks state:";
                  ShowErrorMessage "Failed to load bookmarks. State may be corrupted."])
   | None => ret tt
   end)%monad.

(** [constructor(context)]: [context.globalState] holds [stored]; the
    heap is free from [next] on. *)
Definition new (stored : option Document) (next : nat) : Result unit * t :=
  loadState (mk [] [] stored next []).

End WithHost.
Arguments t : clear implicits.
Arguments t {host}.
End BookmarkManager.

(** ** exportToJSON

    [exportToJSON] builds the document [saveState] builds and hands it to
    [JSON.stringify(data, null, 2)], which is not code of this repository
    either: it is the argument [JSON_stringify]. *)

Section Exporting.
Context {host : Host}.
Variable JSON_stringify : Document -> string.


End Exporting.

(** ** closeAll

    [closeAll] talks to the editor only.  Which tabs show the file of a
    bookmark ([vscode.window.tabGroups.all], [flatMap], [filter]) and
    closing a tab ([vscode.window.tabGroups.close]) are the arguments
    [tabs_showing] and [close], over any state [Editor] of the editor;
    either may throw.  The store is that state and the log. *)

Section Closing.
Context {host : Host}.
Variable Editor : Type.
Variable Tab : Type.
Variable tabs_showing : Uri -> Editor -> Result (list Tab).
Variable close : Tab -> Editor -> Result unit * Editor.

Definition closeAll (this : BookmarkGroup.t) : M (Editor * list Event) unit :=
  for_each (BookmarkGroup.bookmarks this) (fun bookmark =>
    try_catch
      (tabsToClose <- (fun st => (tabs_showing (Bookmark.uri bookmark) (fst st), st)) ;;
       for_each tabsToClose (fun tab st =>
         let (r, editor) := close tab (fst st) in (r, (editor, snd st))))
      (fun _ st =>
         (Ok tt,
          (fst st,
           snd st ++ [ConsoleError ("Error closing bookmark " ++ Bookmark.name bookmark
                                      ++ ":")]))))%monad.

End Closing.

(** ** Notions the properties are stated with *)

Section Notions.
Context {host : Host}.

(** The pre-order listing of the specification: each group is followed
    at once by everything below it, before its next sibling. *)
Fixpoint preorder_group (g : BookmarkGroup.t) : list BookmarkGroup.t :=
  g :: flat_map preorder_group (BookmarkGroup.groups g).

Definition preorder (roots : list BookmarkGroup.t) : list BookmarkGroup.t :=
  flat_map preorder_group roots.

(** A group "nested more than one level deep": below a child of a root. *)
Definition nested_deeper (g : BookmarkGroup.t) (s : BookmarkManager.t) : Prop :=
  exists root child,
    In root (BookmarkManager.groups s) /\
    In child (BookmarkGroup.groups root) /\
    In g (BookmarkManager.getAllGroupsRecursive child).

Definition has_id (id : string) (g : BookmarkGroup.t) : bool :=
  String.eqb (BookmarkGroup.id g) id.

Definition bookmark_has_id (id : string) (b : Bookmark.t) : bool :=
  String.eqb (Bookmark.id b) id.

(** Does the group hold, in its own list, a bookmark with that id. *)
Definition holds (id : string) (g : BookmarkGroup.t) : bool :=
  existsb (bookmark_has_id id) (BookmarkGroup.bookmarks g).

(** Does the group hold, among its own children, a group with that id. *)
Definition holds_group (id : string) (g : BookmarkGroup.t) : bool :=
  existsb (has_id id) (BookmarkGroup.groups g).

(** The content of a group tree: everything but the addresses, that is,
    ids, names, descriptions, timestamps, bookmarks and nesting. *)
Fixpoint content (g : BookmarkGroup.t) : BookmarkGroup.t :=
  BookmarkGroup.mk 0 (BookmarkGroup.id g) (BookmarkGroup.name g)
                   (BookmarkGroup.description g) (BookmarkGroup.bookmarks g)
                   (map content (BookmarkGroup.groups g)) None
                   (BookmarkGroup.createdAt g).

(** Every child, at every depth, points back to the group that holds it. *)
Inductive linked : BookmarkGroup.t -> Prop :=
| linked_intro (g : BookmarkGroup.t) :
    (forall c, In c (BookmarkGroup.groups g) ->
               BookmarkGroup.parent c = Some (BookmarkGroup.addr g)) ->
    (forall c, In c (BookmarkGroup.groups g) -> linked c) ->
    linked g.

(** [fromJSON] reads the serialization of [g] back, whatever the next free
    address [n]: into a tree with the content of [g], rooted at [n], without
    a parent of its own, and linked throughout. *)
Definition reads_back (g : BookmarkGroup.t) : Prop :=
  forall n, exists g' n',
    BookmarkGroup.fromJSON (BookmarkGroup.toJSON g) n = (Ok g', n') /\
    BookmarkGroup.addr g' = n /\
    content g' = content g /\
    linked g' /\
    BookmarkGroup.parent g' = None.

(** A bookmark as the constructor and [fromJSON] leave it, under a host
    that reads back what it printed: the name is not the empty string
    unless the base name is, [Uri.parse] returns the uri whose string it
    is given, and [new Date] the time whose ISO string it is given. *)
Definition well_formed_bookmark (b : Bookmark.t) : Prop :=
  Bookmark.name b = js_or (Some (Bookmark.name b)) (Uri_basename (Bookmark.uri b)) /\
  Uri_parse (Some (Uri_toString (Bookmark.uri b))) = Ok (Bookmark.uri b) /\
  Date_parse (toISOString (Bookmark.createdAt b)) = Bookmark.createdAt b.

Inductive well_formed : BookmarkGroup.t -> Prop :=
| well_formed_intro (g : BookmarkGroup.t) :
    Date_parse (toISOString (BookmarkGroup.createdAt g)) = BookmarkGroup.createdAt g ->
    (forall b, In b (BookmarkGroup.bookmarks g) -> well_formed_bookmark b) ->
    (forall c, In c (BookmarkGroup.groups g) -> well_formed c) ->
    well_formed g.

(** A method that leaves [id] and [groups] alone, as [addBookmark] and
    [removeBookmark] do. *)
Definition keeps_shape (f : BookmarkGroup.t -> BookmarkGroup.t) : Prop :=
  forall g, BookmarkGroup.id (f g) = BookmarkGroup.id g /\
            BookmarkGroup.groups (f g) = BookmarkGroup.groups g /\
            BookmarkGroup.addr (f g) = BookmarkGroup.addr g.

(** The number of groups at and below the groups [gs]. *)
Definition weight (gs : list BookmarkGroup.t) : nat :=
  length (gs ++ flat_map BookmarkManager.getAllGroupsRecursive gs).

(** The store a computation leaves, and what it returns. *)
Definition after {S A : Type} (m : M S A) (s : S) : S := snd (m s).
Definition returned {S A : Type} (m : M S A) (s : S) : Result A := fst (m s).

(** The document [saveState] writes for a state, and the events of the
    write. *)
Definition document (s : BookmarkManager.t) : Document :=
  {| doc_bookmarks := Some (map Bookmark.toJSON (BookmarkManager.bookmarks s));
     doc_groups := Some (map BookmarkGroup.toJSON (BookmarkManager.groups s)) |}.

Definition written (s : BookmarkManager.t) : list Event :=
  GlobalStateUpdate (document s) :: (if syncEnabled then [SetKeysForSync] else []).

(** Between [s] and [s'] one change event was fired, and then the forest
    of [s'] was written. *)
Definition notified_once (s s' : BookmarkManager.t) : Prop :=
  BookmarkManager.log s' = BookmarkManager.log s ++ DidChangeData :: written s' /\
  BookmarkManager.globalState s' = Some (document s').


Definition notifies_when_true (m : M BookmarkManager.t bool) : Prop :=
  forall s,
    (returned m s = Ok true /\ notified_once s (after m s)) \/
    (returned m s = Ok false /\ after m s = s).

Definition is_change (e : Event) : bool :=
  match e with DidChangeData => true | _ => false end.

Definition is_console_error (e : Event) : Prop :=
  exists msg, e = ConsoleError msg.

(** What [Bookmark.open] leaves in the log for one bookmark. *)
Definition open_outcome (b : Bookmark.t) : list Event :=
  if showTextDocument (Bookmark.uri b)
  then [TextDocumentShown (Uri_toString (Bookmark.uri b))]
  else [ShowErrorMessage ("Failed to open bookmark: " ++ Bookmark.name b);
        ConsoleError "Failed to open bookmark:"].

(** What [loadState] reports when deserialization fails. *)
Definition load_failure_report : list Event :=
  [ConsoleError "Failed to load bookmarks state:";
   ShowErrorMessage "Failed to load bookmarks. State may be corrupted."].

(** The root bookmarks [loadState] has assigned when it comes to the groups. *)
Definition bookmarks_read (data : Document) : Result (list Bookmark.t) :=
  match doc_bookmarks data with
  | Some bds => map_throwing Bookmark.fromJSON bds
  | None => Ok []
  end.

(** Deserialization of the stored document fails: in a bookmark record, or
    in a group record once the bookmarks are read. *)
Definition deserialization_fails (data : Document) (next : nat) : Prop :=
  (exists e, bookmarks_read data = Throw e) \/
  (exists bs gds e n,
      bookmarks_read data = Ok bs /\ doc_groups data = Some gds /\
      map_m BookmarkGroup.fromJSON gds next = (Throw e, n)).

(** What the bookmark loop of [importFromJSON] appends to the root
    bookmarks, and what it logs: a record that fails is skipped. *)
Definition imported_bookmarks (bds : list BookmarkData) : list Bookmark.t :=
  flat_map (fun bd => match Bookmark.fromJSON bd with Ok b => [b] | Throw _ => [] end) bds.

Definition skipped_bookmarks (bds : list BookmarkData) : list Event :=
  flat_map (fun bd => match Bookmark.fromJSON bd with
                      | Ok _ => []
                      | Throw _ => [ConsoleError "Failed to import bookmark:"]
                      end) bds.

End Notions.

(** ** A host to run examples on

    Uris are their strings; time values are printed in decimal; [parse]
    stands for [JSON.parse], [opens] for the editor, and [missing_uri] is
    what [Uri.parse] makes of [undefined]. *)

Fixpoint has_slash (s : string) : bool :=
  match s with
  | EmptyString => false
  | String c s' => Ascii.eqb c "/" || has_slash s'
  end.

Fixpoint basename (s : string) : string :=
  match s with
  | EmptyString => EmptyString
  | String c s' => if has_slash s then basename s' else s
  end.

Definition Z_of_string (s : string) : Z :=
  match NilZero.int_of_string s with
  | Some d => Z.of_int d
  | None => 0%Z
  end.

Definition example_host (parse : string -> Result (option Document)) (opens : string -> bool)
           (missing_uri : Result string) : Host :=
  {| Uri := string;
     Uri_parse := fun o => match o with Some s => Ok s | None => missing_uri end;
     Uri_toString := fun u => u;
     Uri_basename := basename;
     toISOString := string_of_Z;
     Date_parse := Z_of_string;
     JSON_parse := parse;
     showTextDocument := opens;
     syncEnabled := true |}.

(** The plain host: nothing parses as JSON, every file opens, [Uri.parse]
    rejects a missing uri. *)
Definition plain_host : Host :=
  example_host (fun _ => Throw HostError) (fun _ => true) (Throw HostError).

(** ** Example forests *)

Definition a_group (host : Host) (a : nat) (id : string) (bs : list Bookmark.t)
           (gs : list BookmarkGroup.t) (p : option nat) : BookmarkGroup.t :=
  BookmarkGroup.mk a id id "" bs gs p 0.

Definition a_manager (host : Host) (gs : list BookmarkGroup.t) (bs : list Bookmark.t)
           (next : nat) : BookmarkManager.t :=
  BookmarkManager.mk gs bs None next [].

(** Two root groups [A] and [B]; [A] holds [A1]. *)
Definition two_roots : BookmarkManager.t :=
  @a_manager plain_host
    [@a_group plain_host 0 "A" [] [@a_group plain_host 1 "A1" [] [] (Some 0)] None;
     @a_group plain_host 2 "B" [] [] None]
    [] 3.

(** A root [R] holding [C] holding [D]: [D] is two levels below the root. *)
Definition three_levels : BookmarkManager.t :=
  @a_manager plain_host
    [@a_group plain_host 0 "R" []
       [@a_group plain_host 1 "C" []
          [@a_group plain_host 2 "D" [] [] (Some 1)] (Some 0)] None] [] 3.

(** One clock tick and one draw, read by two constructor calls in a row. *)
Definition same_tick : Ambient :=
  {| Date_now := 1700000000000; random_1000 := 42; new_Date := 1700000000000 |}.

(** A host on which the file [gone.txt] cannot be opened, and a group whose
    first bookmark points to it. *)
Definition gone_host : Host :=
  example_host (fun _ => Throw HostError)
               (fun u => negb (String.eqb u "file:///gone.txt"))
               (Throw HostError).

Definition gone_bookmark : Bookmark.t :=
  @Bookmark.mk gone_host "b1" "file:///gone.txt" "gone.txt" "" 0.

Definition here_bookmark : Bookmark.t :=
  @Bookmark.mk gone_host "b2" "file:///here.txt" "here.txt" "" 0.

Definition gone_then_here : BookmarkGroup.t :=
  @a_group gone_host 0 "G" [gone_bookmark; here_bookmark] [] None.

(** Serialized records: a bookmark, a bookmark record without its [uri], a
    group record without its [bookmarks] array; and two documents. *)
Definition good_record : BookmarkData :=
  {| bd_id := "b1"; bd_uri := Some "file:///a.txt"; bd_name := Some "a.txt";
     bd_description := None; bd_createdAt := "1700000000000" |}.


Definition group_record_without_bookmarks : GroupData :=
  {| gd_id := "g1"; gd_name := "G"; gd_description := None; gd_bookmarks := None;
     gd_groups := Some []; gd_createdAt := "1700000000000" |}.

Definition good_bookmark_broken_group : Document :=
  {| doc_bookmarks := Some [good_record];
     doc_groups := Some [group_record_without_bookmarks] |}.




(** A manager with one root bookmark [b1] and one empty root group [G]. *)
Definition bookmark_b1 : Bookmark.t :=
  @Bookmark.mk plain_host "b1" "file:///a.txt" "a.txt" "" 0.

Definition bookmark_and_group : BookmarkManager.t :=
  @a_manager plain_host [@a_group plain_host 0 "G" [] [] None] [bookmark_b1] 1.

(** A manager whose only group [G] holds [b1] and then [b2]. *)
Definition bookmark_b2 : Bookmark.t :=
  @Bookmark.mk plain_host "b2" "file:///b.txt" "b.txt" "" 0.

Definition group_of_two : BookmarkManager.t :=
  @a_manager plain_host [@a_group plain_host 0 "G" [bookmark_b1; bookmark_b2] [] None] [] 1.

(** A group [G] holding the bookmark [b1] and a child group [C]. *)
Definition nested_pair : BookmarkGroup.t :=
  @a_group plain_host 5 "G" [bookmark_b1] [@a_group plain_host 7 "C" [] [] (Some 5)] None.

(** ** Further notions *)

Section FurtherNotions.
Context {host : Host}.

(** The search of [findGroupByIdRecursive] in each group of a list, one
    after the other: what it finds has the id and is one of the groups or
    lies below one; and it finds nothing only when no such group has it. *)
Definition found_below (id : string) (cs : list BookmarkGroup.t)
           (r : option BookmarkGroup.t) : Prop :=
  match r with
  | Some g =>
      BookmarkGroup.id g = id /\
      In g (cs ++ flat_map BookmarkManager.getAllGroupsRecursive cs)
  | None =>
      existsb (has_id id) (cs ++ flat_map BookmarkManager.getAllGroupsRecursive cs) = false
  end.

(** A forest as a serializer under a host that reads back what it printed
    takes it: every bookmark and every group at every depth is well formed. *)
Definition well_formed_forest (s : BookmarkManager.t) : Prop :=
  (forall b, In b (BookmarkManager.bookmarks s) -> well_formed_bookmark b) /\
  (forall g, In g (BookmarkManager.groups s) -> well_formed g).

(** Root groups as they should be: without a parent of their own, and
    below them every child, at every depth, points back to the group that
    holds it. *)
Definition rooted (gs : list BookmarkGroup.t) : Prop :=
  forall g, In g gs -> linked g /\ BookmarkGroup.parent g = None.

(** A method that leaves the back-references as they should be. *)
Definition keeps_links (f : BookmarkGroup.t -> BookmarkGroup.t) : Prop :=
  forall g, linked g ->
            linked (f g) /\
            BookmarkGroup.addr (f g) = BookmarkGroup.addr g /\
            BookmarkGroup.parent (f g) = BookmarkGroup.parent g.

End FurtherNotions.

(** An editor for [closeAll] on [gone_host]: its state is the list of the
    files its tabs show, and a tab is the file it shows.  Looking for the
    tabs of [gone.txt] throws; closing a tab takes it off the list. *)
Definition example_tabs (u : @Uri gone_host) (shown : list string) : Result (list string) :=
  if String.eqb u "file:///gone.txt" then Throw HostError
  else Ok (filter (String.eqb u) shown).

Definition example_close (tab : string) (shown : list string) : Result unit * list string :=
  (Ok tt, filter (fun t => negb (String.eqb t tab)) shown).

(** A group without bookmarks or children, to be added to another. *)
Definition lone_group : BookmarkGroup.t := @a_group plain_host 9 "N" [] [] None.




(** Unfolding the manager's elementary steps. *)
Ltac run_monad :=
  unfold BookmarkManager.fire, BookmarkManager.saveState, BookmarkManager.emit,
    BookmarkManager.set_groups, BookmarkManager.set_bookmarks, BookmarkManager.call,
    BookmarkManager.allocating, after, returned,
    bind, ret, get, put, lift, throw, try_catch;
  cbn [fst snd BookmarkManager.groups BookmarkManager.bookmarks BookmarkManager.log
       BookmarkManager.globalState BookmarkManager.next_addr].

(** * Properties *)

(** ** Lists, loops and the monad *)

Lemma fold_left_app_flat_map (A B : Type) (f : A -> list B) (xs : list A) (acc : list B) :
  fold_left (fun acc x => acc ++ f x) xs acc = acc ++ flat_map f xs.
Proof.
  revert acc; induction xs as [|x xs IH]; intros acc; simpl.
  - now rewrite app_nil_r.
  - now rewrite IH, app_assoc.
Qed.

Lemma filter_length_existsb (A : Type) (p : A -> bool) (xs : list A) :
  negb (Nat.eqb (length xs) (length (filter (fun x => negb (p x)) xs))) = existsb p xs.
Proof.
  assert (Hle : forall ys : list A, length (filter (fun x => negb (p x)) ys) <= length ys).
  { induction ys as [|y ys IH]; simpl; [lia|]. destruct (p y); simpl; lia. }
  induction xs as [|x xs IH]; [reflexivity|].
  cbn [filter existsb]. destruct (p x); cbn [negb orb length].
  - specialize (Hle xs).
    destruct (Nat.eqb_spec (S (length xs)) (length (filter (fun x => negb (p x)) xs)));
      [lia | reflexivity].
  - exact IH.
Qed.

Lemma filter_none (A : Type) (p : A -> bool) (xs : list A) :
  existsb p xs = false -> filter (fun x => negb (p x)) xs = xs.
Proof.
  induction xs as [|x xs IH]; simpl; [reflexivity|].
  intros H. apply orb_false_iff in H as [Hx Hxs].
  rewrite Hx; simpl. now rewrite IH.
Qed.

Lemma existsb_filter_negb (A : Type) (p : A -> bool) (xs : list A) :
  existsb p (filter (fun x => negb (p x)) xs) = false.
Proof.
  induction xs as [|x xs IH]; simpl; [reflexivity|].
  destruct (p x) eqn:E; simpl; [exact IH|]. now rewrite E.
Qed.

Lemma find_existsb (A : Type) (p : A -> bool) (xs : list A) :
  existsb p xs = match find p xs with Some _ => true | None => false end.
Proof.
  induction xs as [|x xs IH]; simpl; [reflexivity|]. destruct (p x); simpl; auto.
Qed.

(** ** Induction on group trees *)

Section GroupInduction.
Context {host : Host}.
Variable P : BookmarkGroup.t -> Prop.
Hypothesis step : forall g, (forall c, In c (BookmarkGroup.groups g) -> P c) -> P g.

Lemma group_induction : forall g, P g.
Proof.
  fix IH 1. intros g. apply step.
  destruct g as [a i n d bs gs p c]; simpl.
  induction gs as [|g' gs IHgs]; simpl.
  - intros ? [].
  - intros c' [<-|Hin]; [apply IH | now apply IHgs].
Qed.
End GroupInduction.

(** ** getAllGroups *)

Section Listing.
Context {host : Host}.

Lemma getAllGroupsRecursive_eq (g : BookmarkGroup.t) :
  BookmarkManager.getAllGroupsRecursive g =
  BookmarkGroup.groups g
    ++ flat_map BookmarkManager.getAllGroupsRecursive (BookmarkGroup.groups g).
Proof.
  destruct g; simpl. apply fold_left_app_flat_map.
Qed.

Lemma getAllGroups_eq (s : BookmarkManager.t) :
  BookmarkManager.getAllGroups s =
  BookmarkManager.groups s
    ++ flat_map BookmarkManager.getAllGroupsRecursive (BookmarkManager.groups s).
Proof.
  unfold BookmarkManager.getAllGroups. apply fold_left_app_flat_map.
Qed.

Lemma levels_permutation (gs : list BookmarkGroup.t) :
  (forall c, In c gs ->
     Permutation (c :: BookmarkManager.getAllGroupsRecursive c) (preorder_group c)) ->
  Permutation (gs ++ flat_map BookmarkManager.getAllGroupsRecursive gs) (preorder gs).
Proof.
  unfold preorder.
  induction gs as [|g gs IH]; intros H; simpl; [constructor|].
  assert (Hg := H g (or_introl eq_refl)).
  assert (Hgs := IH (fun c Hc => H c (or_intror Hc))).
  etransitivity; [|apply Permutation_app; [exact Hg | exact Hgs]].
  simpl. apply perm_skip. apply Permutation_app_swap_app.
Qed.

Lemma getAllGroupsRecursive_permutation (g : BookmarkGroup.t) :
  Permutation (g :: BookmarkManager.getAllGroupsRecursive g) (preorder_group g).
Proof.
  induction g as [g IH] using group_induction.
  rewrite getAllGroupsRecursive_eq.
  destruct g as [a i n d bs cs p t]; simpl in *.
  apply perm_skip. now apply levels_permutation.
Qed.

End Listing.

(** ** The manager's steps *)

Section Steps.
Context {host : Host}.

Lemma fire_saveState (s : BookmarkManager.t) :
  bind BookmarkManager.fire (fun _ => BookmarkManager.saveState) s =
  (Ok tt,
   BookmarkManager.mk (BookmarkManager.groups s) (BookmarkManager.bookmarks s)
                      (Some (document s)) (BookmarkManager.next_addr s)
                      (BookmarkManager.log s ++ DidChangeData :: written s)).
Proof.
  run_monad. unfold written, document. cbn.
  now rewrite <- app_assoc.
Qed.

Lemma fire_saveState_notified (s s1 : BookmarkManager.t) :
  BookmarkManager.log s1 = BookmarkManager.log s ->
  notified_once s (snd (bind BookmarkManager.fire (fun _ => BookmarkManager.saveState) s1)).
Proof.
  intros Hlog. rewrite fire_saveState. unfold notified_once; cbn.
  rewrite Hlog. split; reflexivity.
Qed.

Lemma removeBookmark_fst (id : string) (g : BookmarkGroup.t) :
  fst (BookmarkGroup.removeBookmark id g) = holds id g.
Proof.
  unfold BookmarkGroup.removeBookmark, holds; destruct g; cbn.
  apply (filter_length_existsb (bookmark_has_id id)).
Qed.

Lemma removeGroup_fst (id : string) (g : BookmarkGroup.t) :
  fst (BookmarkGroup.removeGroup id g) = holds_group id g.
Proof.
  unfold BookmarkGroup.removeGroup, holds_group; destruct g; cbn.
  apply (filter_length_existsb (has_id id)).
Qed.

(** A call that removes nothing leaves the group as it was. *)
Lemma removeBookmark_nothing (id : string) (g : BookmarkGroup.t) :
  fst (BookmarkGroup.removeBookmark id g) = false ->
  snd (BookmarkGroup.removeBookmark id g) = g.
Proof.
  rewrite removeBookmark_fst. unfold holds, BookmarkGroup.removeBookmark.
  destruct g; cbn. intros H. unfold BookmarkGroup.set_bookmarks; cbn.
  apply (filter_none (bookmark_has_id id)) in H. unfold bookmark_has_id in H.
  now rewrite H.
Qed.

Lemma removeGroup_nothing (id : string) (g : BookmarkGroup.t) :
  fst (BookmarkGroup.removeGroup id g) = false ->
  snd (BookmarkGroup.removeGroup id g) = g.
Proof.
  rewrite removeGroup_fst. unfold holds_group, BookmarkGroup.removeGroup.
  destruct g; cbn. intros H. unfold BookmarkGroup.set_groups; cbn.
  apply (filter_none (has_id id)) in H. unfold has_id in H.
  now rewrite H.
Qed.

Lemma removeBookmark_groups_eq (id : string) (gs : list BookmarkGroup.t)
      (s : BookmarkManager.t) :
  BookmarkManager.removeBookmark_groups id gs s =
  match find (holds id) gs with
  | Some g =>
      (Ok true,
       after (BookmarkManager.call g (fun this => snd (BookmarkGroup.removeBookmark id this))) s)
  | None => (Ok false, s)
  end.
Proof.
  induction gs as [|g gs IH]; cbn [BookmarkManager.removeBookmark_groups find];
    [reflexivity|].
  rewrite removeBookmark_fst. destruct (holds id g); [reflexivity | exact IH].
Qed.

Lemma removeGroup_groups_eq (id : string) (gs : list BookmarkGroup.t)
      (s : BookmarkManager.t) :
  BookmarkManager.removeGroup_groups id gs s =
  match find (holds_group id) gs with
  | Some g =>
      (Ok true,
       after (BookmarkManager.call g (fun this => snd (BookmarkGroup.removeGroup id this))) s)
  | None => (Ok false, s)
  end.
Proof.
  induction gs as [|g gs IH]; cbn [BookmarkManager.removeGroup_groups find];
    [reflexivity|].
  rewrite removeGroup_fst. destruct (holds_group id g); [reflexivity | exact IH].
Qed.

(** [removeBookmark], case by case. *)
Lemma removeBookmark_eq (id : string) (s : BookmarkManager.t) :
  BookmarkManager.removeBookmark id s =
  if existsb (bookmark_has_id id) (BookmarkManager.bookmarks s)
  then
    (Ok true,
     after (bind BookmarkManager.fire (fun _ => BookmarkManager.saveState))
           (after (BookmarkManager.set_bookmarks
                     (filter (fun b => negb (bookmark_has_id id b))
                             (BookmarkManager.bookmarks s))) s))
  else
    match find (holds id) (BookmarkManager.getAllGroups s) with
    | Some g =>
        (Ok true,
         after (bind BookmarkManager.fire (fun _ => BookmarkManager.saveState))
               (after (BookmarkManager.call g
                         (fun this => snd (BookmarkGroup.removeBookmark id this))) s))
    | None => (Ok false, s)
    end.
Proof.
  unfold BookmarkManager.removeBookmark.
  unfold bind at 1 2 3 4. unfold get at 1 2. unfold BookmarkManager.set_bookmarks at 1.
  cbn [fst snd BookmarkManager.bookmarks].
  change (fun b : Bookmark.t => negb (String.eqb (Bookmark.id b) id))
    with (fun b : Bookmark.t => negb (bookmark_has_id id b)).
  rewrite (filter_length_existsb (bookmark_has_id id)).
  destruct (existsb (bookmark_has_id id) (BookmarkManager.bookmarks s)) eqn:E;
    cbn [negb].
  - unfold ret at 1. unfold bind at 1.
    rewrite fire_saveState. unfold after. rewrite fire_saveState. reflexivity.
  - rewrite removeBookmark_groups_eq.
    assert (Hs : BookmarkManager.mk (BookmarkManager.groups s)
                   (filter (fun b => negb (bookmark_has_id id b)) (BookmarkManager.bookmarks s))
                   (BookmarkManager.globalState s) (BookmarkManager.next_addr s)
                   (BookmarkManager.log s) = s).
    { rewrite (filter_none (bookmark_has_id id)) by exact E. now destruct s. }
    rewrite Hs.
    destruct (find (holds id) (BookmarkManager.getAllGroups s)).
    + unfold bind at 1. unfold after. rewrite !fire_saveState. reflexivity.
    + reflexivity.
Qed.

Lemma removeGroup_eq (id : string) (s : BookmarkManager.t) :
  BookmarkManager.removeGroup id s =
  if existsb (has_id id) (BookmarkManager.groups s)
  then
    (Ok true,
     after (bind BookmarkManager.fire (fun _ => BookmarkManager.saveState))
           (after (BookmarkManager.set_groups
                     (filter (fun g => negb (has_id id g))
                             (BookmarkManager.groups s))) s))
  else
    match find (holds_group id) (BookmarkManager.getAllGroups s) with
    | Some g =>
        (Ok true,
         after (bind BookmarkManager.fire (fun _ => BookmarkManager.saveState))
               (after (BookmarkManager.call g
                         (fun this => snd (BookmarkGroup.removeGroup id this))) s))
    | None => (Ok false, s)
    end.
Proof.
  unfold BookmarkManager.removeGroup.
  unfold bind at 1 2 3 4. unfold get at 1 2. unfold BookmarkManager.set_groups at 1.
  cbn [fst snd BookmarkManager.groups].
  change (fun g : BookmarkGroup.t => negb (String.eqb (BookmarkGroup.id g) id))
    with (fun g : BookmarkGroup.t => negb (has_id id g)).
  rewrite (filter_length_existsb (has_id id)).
  destruct (existsb (has_id id) (BookmarkManager.groups s)) eqn:E; cbn [negb].
  - unfold ret at 1. unfold bind at 1.
    rewrite fire_saveState. unfold after. rewrite fire_saveState. reflexivity.
  - rewrite removeGroup_groups_eq.
    assert (Hs : BookmarkManager.mk
                   (filter (fun g => negb (has_id id g)) (BookmarkManager.groups s))
                   (BookmarkManager.bookmarks s)
                   (BookmarkManager.globalState s) (BookmarkManager.next_addr s)
                   (BookmarkManager.log s) = s).
    { rewrite (filter_none (has_id id)) by exact E. now destruct s. }
    rewrite Hs.
    destruct (find (holds_group id) (BookmarkManager.getAllGroups s)).
    + unfold bind at 1. unfold after. rewrite !fire_saveState. reflexivity.
    + reflexivity.
Qed.

End Steps.

(** ** Removing a group *)

Section RemoveGroup.
Context {host : Host}.

Lemma existsb_below (id : string) (cs : list BookmarkGroup.t) :
  (forall c, In c cs ->
     existsb (has_id id) (BookmarkManager.getAllGroupsRecursive c) =
     holds_group id c || existsb (holds_group id) (BookmarkManager.getAllGroupsRecursive c)) ->
  existsb (has_id id) (flat_map BookmarkManager.getAllGroupsRecursive cs) =
  existsb (holds_group id) cs
  || existsb (holds_group id) (flat_map BookmarkManager.getAllGroupsRecursive cs).
Proof.
  induction cs as [|c cs IH]; intros H; [reflexivity|].
  cbn [flat_map existsb]. rewrite !existsb_app.
  rewrite (H c (or_introl eq_refl)), (IH (fun c' Hc' => H c' (or_intror Hc'))).
  destruct (holds_group id c),
    (existsb (holds_group id) (BookmarkManager.getAllGroupsRecursive c)),
    (existsb (holds_group id) cs); reflexivity.
Qed.

Lemma existsb_getAllGroupsRecursive (id : string) (g : BookmarkGroup.t) :
  existsb (has_id id) (BookmarkManager.getAllGroupsRecursive g) =
  holds_group id g || existsb (holds_group id) (BookmarkManager.getAllGroupsRecursive g).
Proof.
  induction g as [g IH] using group_induction.
  rewrite getAllGroupsRecursive_eq, !existsb_app, (existsb_below id _ IH).
  unfold holds_group at 1 3.
  destruct (existsb (has_id id) (BookmarkGroup.groups g)); reflexivity.
Qed.

(** Every group of the forest is a root or a child of a listed group. *)
Lemma existsb_getAllGroups (id : string) (s : BookmarkManager.t) :
  existsb (has_id id) (BookmarkManager.getAllGroups s) =
  existsb (has_id id) (BookmarkManager.groups s)
  || existsb (holds_group id) (BookmarkManager.getAllGroups s).
Proof.
  rewrite getAllGroups_eq, !existsb_app.
  rewrite (existsb_below id _ (fun c _ => existsb_getAllGroupsRecursive id c)).
  reflexivity.
Qed.

Lemma removeGroup_returned (id : string) (s : BookmarkManager.t) :
  returned (BookmarkManager.removeGroup id) s =
  Ok (existsb (has_id id) (BookmarkManager.getAllGroups s)).
Proof.
  unfold returned. rewrite removeGroup_eq, existsb_getAllGroups.
  destruct (existsb (has_id id) (BookmarkManager.groups s)); [reflexivity|].
  rewrite (find_existsb (holds_group id)).
  destruct (find (holds_group id) (BookmarkManager.getAllGroups s)); reflexivity.
Qed.

Lemma removeGroup_absent (id : string) (s : BookmarkManager.t) :
  existsb (has_id id) (BookmarkManager.getAllGroups s) = false ->
  BookmarkManager.removeGroup id s = (Ok false, s).
Proof.
  rewrite existsb_getAllGroups. intros H. apply orb_false_iff in H as [H1 H2].
  rewrite removeGroup_eq, H1.
  rewrite (find_existsb (holds_group id)) in H2.
  destruct (find (holds_group id) (BookmarkManager.getAllGroups s));
    [discriminate | reflexivity].
Qed.

Lemma nested_deeper_listed (g : BookmarkGroup.t) (s : BookmarkManager.t) :
  nested_deeper g s -> In g (BookmarkManager.getAllGroups s).
Proof.
  intros (root & child & Hroot & Hchild & Hg).
  rewrite getAllGroups_eq. apply in_or_app; right.
  apply in_flat_map. exists root; split; [exact Hroot|].
  rewrite getAllGroupsRecursive_eq. apply in_or_app; right.
  apply in_flat_map. exists child; split; assumption.
Qed.

End RemoveGroup.

(** ** Opening bookmarks *)

Lemma open_eq {host : Host} (b : Bookmark.t) (log : list Event) :
  Bookmark.open b log =
  (Ok (if showTextDocument (Bookmark.uri b) then Some (Bookmark.uri b) else None),
   log ++ open_outcome b).
Proof.
  unfold Bookmark.open, try_catch, open_outcome.
  destruct (showTextDocument (Bookmark.uri b)); reflexivity.
Qed.

Lemma open_each {host : Host} (bs : list Bookmark.t) (log : list Event) :
  for_each bs (fun bookmark => bind (Bookmark.open bookmark) (fun _ => ret tt)) log =
  (Ok tt, log ++ flat_map open_outcome bs).
Proof.
  revert log; induction bs as [|b bs IH]; intros log; cbn [for_each flat_map].
  - unfold ret. now rewrite app_nil_r.
  - unfold bind at 1 2. rewrite open_eq. unfold ret at 1.
    rewrite IH. now rewrite app_assoc.
Qed.

(** ** Importing a document *)

Section Importing.
Context {host : Host}.

Lemma import_bookmarks_loop (bds : list BookmarkData) (s : BookmarkManager.t) :
  for_each bds
    (fun bookmarkData =>
       try_catch
         (bind (lift (Bookmark.fromJSON bookmarkData)) (fun bookmark =>
          bind get (fun s =>
          BookmarkManager.set_bookmarks (BookmarkManager.bookmarks s ++ [bookmark]))))
         (fun _ => BookmarkManager.emit [ConsoleError "Failed to import bookmark:"])) s =
  (Ok tt,
   BookmarkManager.mk (BookmarkManager.groups s)
                      (BookmarkManager.bookmarks s ++ imported_bookmarks bds)
                      (BookmarkManager.globalState s) (BookmarkManager.next_addr s)
                      (BookmarkManager.log s ++ skipped_bookmarks bds)).
Proof.
  revert s; induction bds as [|bd bds IH]; intros s.
  - cbn. unfold ret. rewrite !app_nil_r. now destruct s.
  - cbn [for_each imported_bookmarks skipped_bookmarks flat_map].
    unfold bind at 1. unfold try_catch at 1. unfold bind at 1. unfold lift at 1.
    destruct (Bookmark.fromJSON bd) as [b|e].
    + run_monad. rewrite IH. cbn. now rewrite <- !app_assoc.
    + run_monad. rewrite IH. cbn. now rewrite <- !app_assoc.
Qed.

Lemma import_groups_loop (gds : list GroupData) (s : BookmarkManager.t) :
  exists gs n skipped,
    Forall is_console_error skipped /\
    for_each gds
      (fun groupData =>
         try_catch
           (bind (BookmarkManager.allocating (BookmarkGroup.fromJSON groupData)) (fun group =>
            bind get (fun s =>
            BookmarkManager.set_groups (BookmarkManager.groups s ++ [group]))))
           (fun _ => BookmarkManager.emit [ConsoleError "Failed to import group:"])) s =
    (Ok tt,
     BookmarkManager.mk (BookmarkManager.groups s ++ gs) (BookmarkManager.bookmarks s)
                        (BookmarkManager.globalState s) n
                        (BookmarkManager.log s ++ skipped)).
Proof.
  revert s; induction gds as [|gd gds IH]; intros s.
  - exists [], (BookmarkManager.next_addr s), []. split; [constructor|].
    cbn. unfold ret. rewrite !app_nil_r. now destruct s.
  - cbn [for_each].
    unfold bind at 1. unfold try_catch at 1. unfold bind at 1.
    unfold BookmarkManager.allocating at 1.
    destruct (BookmarkGroup.fromJSON gd (BookmarkManager.next_addr s)) as [[g|e] n1].
    + run_monad.
      match goal with
      | |- exists _ _ _, _ /\ for_each gds _ ?s1 = _ =>
          destruct (IH s1) as (gs & n & sk & Hsk & Heq)
      end.
      exists (g :: gs), n, sk. split; [exact Hsk|].
      refine (eq_trans Heq _). cbn. now rewrite <- !app_assoc.
    + run_monad.
      match goal with
      | |- exists _ _ _, _ /\ for_each gds _ ?s1 = _ =>
          destruct (IH s1) as (gs & n & sk & Hsk & Heq)
      end.
      exists gs, n, (ConsoleError "Failed to import group:" :: sk).
      split; [constructor; [now eexists | exact Hsk]|].
      refine (eq_trans Heq _). cbn. now rewrite <- !app_assoc.
Qed.

Lemma bind_ok (S A B : Type) (m : M S A) (k : A -> M S B) (s s' : S) (a : A) :
  m s = (Ok a, s') -> bind m k s = k a s'.
Proof. intros H. unfold bind. now rewrite H. Qed.

Lemma importFromJSON_parsed (jsonData : string) (merge : bool) (s : BookmarkManager.t)
      (data : Document) :
  JSON_parse jsonData = Ok (Some data) ->
  exists gs skipped s',
    BookmarkManager.importFromJSON jsonData merge s = (Ok true, s') /\
    BookmarkManager.groups s' = (if merge then BookmarkManager.groups s else []) ++ gs /\
    BookmarkManager.bookmarks s' =
      (if merge then BookmarkManager.bookmarks s else [])
        ++ imported_bookmarks (match doc_bookmarks data with Some bds => bds | None => [] end) /\
    (doc_groups data = None -> gs = []) /\
    Forall is_console_error skipped /\
    BookmarkManager.log s' = BookmarkManager.log s ++ skipped ++ DidChangeData :: written s' /\
    BookmarkManager.globalState s' = Some (document s').
Proof.
  intros Hparse.
  unfold BookmarkManager.importFromJSON.
  unfold try_catch at 1.
  erewrite bind_ok; [|unfold lift; rewrite Hparse; reflexivity].
  set (bds := match doc_bookmarks data with Some bds => bds | None => [] end).
  set (s1 := BookmarkManager.mk (if merge then BookmarkManager.groups s else [])
                                (if merge then BookmarkManager.bookmarks s else [])
                                (BookmarkManager.globalState s) (BookmarkManager.next_addr s)
                                (BookmarkManager.log s)).
  set (s2 := BookmarkManager.mk (BookmarkManager.groups s1)
                                (BookmarkManager.bookmarks s1 ++ imported_bookmarks bds)
                                (BookmarkManager.globalState s1) (BookmarkManager.next_addr s1)
                                (BookmarkManager.log s1 ++ skipped_bookmarks bds)).
  assert (Hskb : Forall is_console_error (skipped_bookmarks bds)).
  { unfold skipped_bookmarks. induction bds as [|bd l IHl]; cbn; [constructor|].
    destruct (Bookmark.fromJSON bd); cbn; [exact IHl|].
    constructor; [now eexists | exact IHl]. }
  assert (H1 : (if negb merge
                then bind (BookmarkManager.set_bookmarks [])
                          (fun _ => BookmarkManager.set_groups [])
                else ret tt) s = (Ok tt, s1)).
  { subst s1. destruct merge; cbn; [now destruct s | reflexivity]. }
  assert (H2 : match doc_bookmarks data with
               | Some bds =>
                   for_each bds
                     (fun bookmarkData =>
                        try_catch
                          (bind (lift (Bookmark.fromJSON bookmarkData)) (fun bookmark =>
                           bind get (fun s0 =>
                           BookmarkManager.set_bookmarks
                             (BookmarkManager.bookmarks s0 ++ [bookmark]))))
                          (fun _ => BookmarkManager.emit
                                      [ConsoleError "Failed to import bookmark:"]))
               | None => ret tt
               end s1 = (Ok tt, s2)).
  { subst s2 bds. destruct (doc_bookmarks data) as [l|].
    - apply import_bookmarks_loop.
    - cbn. unfold ret. rewrite !app_nil_r. reflexivity. }
  assert (H3 : exists gs n skipped,
             Forall is_console_error skipped /\
             (doc_groups data = None -> gs = []) /\
             match doc_groups data with
             | Some gds =>
                 for_each gds
                   (fun groupData =>
                      try_catch
                        (bind (BookmarkManager.allocating (BookmarkGroup.fromJSON groupData))
                              (fun group =>
                         bind get (fun s0 =>
                         BookmarkManager.set_groups (BookmarkManager.groups s0 ++ [group]))))
                        (fun _ => BookmarkManager.emit
                                    [ConsoleError "Failed to import group:"]))
             | None => ret tt
             end s2 =
             (Ok tt,
              BookmarkManager.mk (BookmarkManager.groups s2 ++ gs) (BookmarkManager.bookmarks s2)
                                 (BookmarkManager.globalState s2) n
                                 (BookmarkManager.log s2 ++ skipped))).
  { destruct (doc_groups data) as [gds|].
    - destruct (import_groups_loop gds s2) as (gs & n & sk & Hsk & Heq).
      exists gs, n, sk. split; [exact Hsk|]. split; [discriminate | exact Heq].
    - exists [], (BookmarkManager.next_addr s2), []. split; [constructor|].
      split; [reflexivity|]. unfold ret. rewrite !app_nil_r. now destruct s2. }
  destruct H3 as (gs & n & sk & Hsk & Hnone & H3).
  exists gs, (skipped_bookmarks bds ++ sk).
  erewrite bind_ok; [|exact H1].
  erewrite bind_ok; [|reflexivity].
  erewrite bind_ok; [|exact H2].
  erewrite bind_ok; [|exact H3].
  run_monad. eexists. split; [reflexivity|].
  cbn. unfold written, document. cbn.
  repeat split; try assumption.
  - apply Forall_app; split; assumption.
  - now rewrite <- !app_assoc.
Qed.

End Importing.

(** ** Change notification *)

Section Notification.
Context {host : Host}.



Lemma removeBookmark_notifies (id : string) :
  notifies_when_true (BookmarkManager.removeBookmark id).
Proof.
  intros s. unfold returned, after. rewrite removeBookmark_eq.
  destruct (existsb (bookmark_has_id id) (BookmarkManager.bookmarks s)).
  - left. split; [reflexivity|]. cbn [snd]. unfold after.
    now apply fire_saveState_notified.
  - destruct (find (holds id) (BookmarkManager.getAllGroups s)).
    + left. split; [reflexivity|]. cbn [snd]. unfold after.
      now apply fire_saveState_notified.
    + right. split; reflexivity.
Qed.



Lemma importFromJSON_null (jsonData : string) (merge : bool) (s : BookmarkManager.t) :
  JSON_parse jsonData = Ok None ->
  BookmarkManager.importFromJSON jsonData merge s =
  (Ok false,
   BookmarkManager.mk (if merge then BookmarkManager.groups s else [])
                      (if merge then BookmarkManager.bookmarks s else [])
                      (BookmarkManager.globalState s) (BookmarkManager.next_addr s)
                      (BookmarkManager.log s ++ [ConsoleError "Failed to import bookmarks:"])).
Proof.
  intros Hparse. unfold BookmarkManager.importFromJSON. unfold try_catch at 1.
  erewrite bind_ok; [|unfold lift; rewrite Hparse; reflexivity].
  destruct merge; reflexivity.
Qed.

Lemma importFromJSON_notifies (jsonData : string) (merge : bool) (s : BookmarkManager.t) :
  let s' := after (BookmarkManager.importFromJSON jsonData merge) s in
  match JSON_parse jsonData with
  | Ok (Some _) =>
      returned (BookmarkManager.importFromJSON jsonData merge) s = Ok true /\
      exists skipped,
        Forall is_console_error skipped /\
        BookmarkManager.log s' =
          BookmarkManager.log s ++ skipped ++ DidChangeData :: written s' /\
        BookmarkManager.globalState s' = Some (document s')
  | Ok None =>
      returned (BookmarkManager.importFromJSON jsonData merge) s = Ok false /\
      s' = BookmarkManager.mk (if merge then BookmarkManager.groups s else [])
                              (if merge then BookmarkManager.bookmarks s else [])
                              (BookmarkManager.globalState s) (BookmarkManager.next_addr s)
                              (BookmarkManager.log s
                                 ++ [ConsoleError "Failed to import bookmarks:"])
  | Throw _ =>
      returned (BookmarkManager.importFromJSON jsonData merge) s = Ok false /\
      s' = BookmarkManager.mk (BookmarkManager.groups s) (BookmarkManager.bookmarks s)
                              (BookmarkManager.globalState s) (BookmarkManager.next_addr s)
                              (BookmarkManager.log s
                                 ++ [ConsoleError "Failed to import bookmarks:"])
  end.
Proof.
  cbv zeta. destruct (JSON_parse jsonData) as [[data|]|e] eqn:Hparse.
  - destruct (importFromJSON_parsed jsonData merge s Hparse)
      as (gs & sk & s' & Heq & _ & _ & _ & Hsk & Hlog & Hgs).
    unfold returned, after. rewrite Heq. cbn [fst snd].
    split; [reflexivity|]. exists sk. repeat split; assumption.
  - unfold returned, after. rewrite (importFromJSON_null jsonData merge s Hparse).
    repeat split.
  - unfold BookmarkManager.importFromJSON, returned, after.
    unfold try_catch at 1 3. unfold bind at 1 7. unfold lift at 1 2.
    rewrite Hparse. split; reflexivity.
Qed.

Lemma removeBookmark_returns (id : string) (s : BookmarkManager.t) :
  exists r, BookmarkManager.removeBookmark id s
            = (Ok r, after (BookmarkManager.removeBookmark id) s).
Proof.
  unfold after. rewrite removeBookmark_eq.
  destruct (existsb (bookmark_has_id id) (BookmarkManager.bookmarks s));
    [eexists; reflexivity|].
  destruct (find (holds id) (BookmarkManager.getAllGroups s)); eexists; reflexivity.
Qed.

Lemma moveBookmarkToGroup_eq (bookmarkId targetGroupId : string) (s : BookmarkManager.t) :
  BookmarkManager.moveBookmarkToGroup bookmarkId targetGroupId s =
  match BookmarkManager.findBookmarkById bookmarkId s,
        BookmarkManager.findGroupById targetGroupId s with
  | Some bookmark, Some targetGroup =>
      (Ok true,
       after (bind BookmarkManager.fire (fun _ => BookmarkManager.saveState))
             (after (BookmarkManager.call targetGroup (BookmarkGroup.addBookmark bookmark))
                    (after (BookmarkManager.removeBookmark bookmarkId) s)))
  | _, _ => (Ok false, s)
  end.
Proof.
  unfold BookmarkManager.moveBookmarkToGroup.
  unfold bind at 1. unfold get at 1.
  destruct (BookmarkManager.findBookmarkById bookmarkId s) as [b|]; [|reflexivity].
  destruct (BookmarkManager.findGroupById targetGroupId s) as [g|]; [|reflexivity].
  destruct (removeBookmark_returns bookmarkId s) as (r & E).
  erewrite bind_ok; [|exact E].
  unfold after at 1 2. rewrite fire_saveState.
  run_monad. cbn. unfold written, document. cbn. now rewrite <- !app_assoc.
Qed.

Lemma removeBookmark_log (id : string) (s : BookmarkManager.t) :
  exists events,
    BookmarkManager.log (after (BookmarkManager.removeBookmark id) s)
    = BookmarkManager.log s ++ events.
Proof.
  destruct (removeBookmark_notifies id s) as [[_ [Hlog _]] | [_ Hs]].
  - eexists. exact Hlog.
  - exists []. rewrite Hs. now rewrite app_nil_r.
Qed.

Lemma moveBookmarkToGroup_notifies (bookmarkId targetGroupId : string) (s : BookmarkManager.t) :
  let s' := after (BookmarkManager.moveBookmarkToGroup bookmarkId targetGroupId) s in
  (returned (BookmarkManager.moveBookmarkToGroup bookmarkId targetGroupId) s = Ok false /\
   s' = s) \/
  (returned (BookmarkManager.moveBookmarkToGroup bookmarkId targetGroupId) s = Ok true /\
   exists earlier,
     BookmarkManager.log s' =
       BookmarkManager.log s ++ earlier ++ DidChangeData :: written s' /\
     BookmarkManager.globalState s' = Some (document s')).
Proof.
  cbv zeta. unfold returned, after. rewrite moveBookmarkToGroup_eq.
  destruct (BookmarkManager.findBookmarkById bookmarkId s) as [b|];
    [|left; split; reflexivity].
  destruct (BookmarkManager.findGroupById targetGroupId s) as [g|];
    [|left; split; reflexivity].
  right. split; [reflexivity|]. cbn [snd].
  destruct (removeBookmark_log bookmarkId s) as (events & Hlog).
  exists events.
  match goal with
  | |- context [after (bind BookmarkManager.fire _) ?s1] =>
      destruct (@fire_saveState_notified host s1 s1 eq_refl) as [H1 H2]
  end.
  unfold after in *. rewrite H1, H2.
  split; [|reflexivity].
  unfold BookmarkManager.call at 1. cbn [snd BookmarkManager.log].
  rewrite Hlog. now rewrite <- app_assoc.
Qed.

End Notification.

(** ** Method calls through a reference *)

Section Modify.
Context {host : Host}.

Lemma modify_unfold (a : nat) (f : BookmarkGroup.t -> BookmarkGroup.t) (g : BookmarkGroup.t) :
  BookmarkGroup.modify a f g =
  let g' := BookmarkGroup.set_groups
              (map (BookmarkGroup.modify a f) (BookmarkGroup.groups g)) g in
  if Nat.eqb (BookmarkGroup.addr g') a then f g' else g'.
Proof. destruct g; reflexivity. Qed.

Lemma addBookmark_keeps_shape (b : Bookmark.t) : keeps_shape (BookmarkGroup.addBookmark b).
Proof.
  intros g. unfold BookmarkGroup.addBookmark.
  destruct (negb _); destruct g; repeat split.
Qed.

Lemma removeBookmark_keeps_shape (id : string) :
  keeps_shape (fun this => snd (BookmarkGroup.removeBookmark id this)).
Proof. intros g. destruct g; repeat split. Qed.

Lemma modify_id (a : nat) (f : BookmarkGroup.t -> BookmarkGroup.t) (g : BookmarkGroup.t) :
  keeps_shape f -> BookmarkGroup.id (BookmarkGroup.modify a f g) = BookmarkGroup.id g.
Proof.
  intros Hf. rewrite modify_unfold. cbv zeta.
  destruct (Nat.eqb _ a); [rewrite (proj1 (Hf _))|]; now destruct g.
Qed.

Lemma modify_groups (a : nat) (f : BookmarkGroup.t -> BookmarkGroup.t) (g : BookmarkGroup.t) :
  keeps_shape f ->
  BookmarkGroup.groups (BookmarkGroup.modify a f g) =
  map (BookmarkGroup.modify a f) (BookmarkGroup.groups g).
Proof.
  intros Hf. rewrite modify_unfold. cbv zeta.
  destruct (Nat.eqb _ a); [rewrite (proj1 (proj2 (Hf _)))|]; now destruct g.
Qed.

Lemma modify_hit (a : nat) (f : BookmarkGroup.t -> BookmarkGroup.t) (g : BookmarkGroup.t) :
  BookmarkGroup.addr g = a ->
  BookmarkGroup.modify a f g =
  f (BookmarkGroup.set_groups (map (BookmarkGroup.modify a f) (BookmarkGroup.groups g)) g).
Proof.
  intros <-. rewrite modify_unfold. cbv zeta.
  destruct g; cbn. now rewrite Nat.eqb_refl.
Qed.

Lemma find_map (A : Type) (p : A -> bool) (h : A -> A) (xs : list A) :
  (forall x, p (h x) = p x) -> find p (map h xs) = option_map h (find p xs).
Proof.
  intros Hp. induction xs as [|x xs IH]; cbn; [reflexivity|].
  rewrite Hp. destruct (p x); [reflexivity | exact IH].
Qed.

Lemma findGroupByIdRecursive_unfold (g : BookmarkGroup.t) (id : string) :
  BookmarkManager.findGroupByIdRecursive g id =
  if String.eqb (BookmarkGroup.id g) id then Some g
  else BookmarkManager.first_some
         (fun childGroup => BookmarkManager.findGroupByIdRecursive childGroup id)
         (BookmarkGroup.groups g).
Proof.
  destruct g as [a i n d bs gs p c]; cbn.
  destruct (String.eqb i id); [reflexivity|].
  induction gs as [|g gs IH]; cbn; [reflexivity|].
  destruct (BookmarkManager.findGroupByIdRecursive g id); [reflexivity | exact IH].
Qed.

Lemma first_some_map (A B : Type) (F : A -> option B) (h : A -> A) (k : B -> B)
      (xs : list A) :
  (forall x, In x xs -> F (h x) = option_map k (F x)) ->
  BookmarkManager.first_some F (map h xs) = option_map k (BookmarkManager.first_some F xs).
Proof.
  induction xs as [|x xs IH]; intros H; cbn; [reflexivity|].
  rewrite (H x (or_introl eq_refl)).
  destruct (F x); cbn; [reflexivity|].
  apply IH. intros y Hy. apply H. now right.
Qed.

Lemma findGroupByIdRecursive_modify (a : nat) (f : BookmarkGroup.t -> BookmarkGroup.t)
      (id : string) (g : BookmarkGroup.t) :
  keeps_shape f ->
  BookmarkManager.findGroupByIdRecursive (BookmarkGroup.modify a f g) id =
  option_map (BookmarkGroup.modify a f) (BookmarkManager.findGroupByIdRecursive g id).
Proof.
  intros Hf. induction g as [g IH] using group_induction.
  rewrite !findGroupByIdRecursive_unfold, modify_id, modify_groups by exact Hf.
  destruct (String.eqb (BookmarkGroup.id g) id); [reflexivity|].
  now apply first_some_map.
Qed.

Lemma findGroupById_call (ref : BookmarkGroup.t) (f : BookmarkGroup.t -> BookmarkGroup.t)
      (id : string) (s : BookmarkManager.t) :
  keeps_shape f ->
  BookmarkManager.findGroupById id (after (BookmarkManager.call ref f) s) =
  option_map (BookmarkGroup.modify (BookmarkGroup.addr ref) f)
             (BookmarkManager.findGroupById id s).
Proof.
  intros Hf. unfold BookmarkManager.findGroupById, after, BookmarkManager.call.
  cbn [snd BookmarkManager.groups].
  rewrite find_map by (intros x; now rewrite modify_id).
  destruct (find _ (BookmarkManager.groups s)); [reflexivity|].
  apply first_some_map. intros x _. now apply findGroupByIdRecursive_modify.
Qed.

Lemma findGroupById_groups (id : string) (s s' : BookmarkManager.t) :
  BookmarkManager.groups s' = BookmarkManager.groups s ->
  BookmarkManager.findGroupById id s' = BookmarkManager.findGroupById id s.
Proof. intros H. unfold BookmarkManager.findGroupById. now rewrite H. Qed.

End Modify.

(** ** Moving a bookmark *)

Section Move.
Context {host : Host}.

Lemma first_some_find (p : Bookmark.t -> bool) (gs : list BookmarkGroup.t) :
  BookmarkManager.first_some (fun group => find p (BookmarkGroup.bookmarks group)) gs =
  match find (fun g => existsb p (BookmarkGroup.bookmarks g)) gs with
  | Some g => find p (BookmarkGroup.bookmarks g)
  | None => None
  end.
Proof.
  induction gs as [|g gs IH]; cbn; [reflexivity|].
  rewrite (find_existsb p (BookmarkGroup.bookmarks g)).
  destruct (find p (BookmarkGroup.bookmarks g)) eqn:E; [now rewrite E | exact IH].
Qed.

Lemma count_one_at_end (id : string) (bs : list Bookmark.t) (b : Bookmark.t) :
  existsb (bookmark_has_id id) bs = false ->
  bookmark_has_id id b = true ->
  filter (bookmark_has_id id) (bs ++ [b]) = [b].
Proof.
  intros Hbs Hb. rewrite filter_app. cbn. rewrite Hb.
  induction bs as [|x bs IH]; cbn in *; [reflexivity|].
  apply orb_false_iff in Hbs as [Hx Hbs]. rewrite Hx. now apply IH.
Qed.

Lemma addBookmark_appends (b : Bookmark.t) (g : BookmarkGroup.t) :
  existsb (bookmark_has_id (Bookmark.id b)) (BookmarkGroup.bookmarks g) = false ->
  BookmarkGroup.bookmarks (BookmarkGroup.addBookmark b g) = BookmarkGroup.bookmarks g ++ [b].
Proof.
  intros H. unfold BookmarkGroup.addBookmark.
  change (fun b0 : Bookmark.t => String.eqb (Bookmark.id b0) (Bookmark.id b))
    with (bookmark_has_id (Bookmark.id b)).
  rewrite H. now destruct g.
Qed.

Lemma after_fire_saveState (s : BookmarkManager.t) :
  BookmarkManager.groups
    (after (bind BookmarkManager.fire (fun _ => BookmarkManager.saveState)) s)
    = BookmarkManager.groups s /\
  BookmarkManager.bookmarks
    (after (bind BookmarkManager.fire (fun _ => BookmarkManager.saveState)) s)
    = BookmarkManager.bookmarks s.
Proof. unfold after. rewrite fire_saveState. split; reflexivity. Qed.

Lemma after_removeBookmark_root (id : string) (s : BookmarkManager.t) :
  existsb (bookmark_has_id id) (BookmarkManager.bookmarks s) = true ->
  BookmarkManager.groups (after (BookmarkManager.removeBookmark id) s)
    = BookmarkManager.groups s /\
  BookmarkManager.bookmarks (after (BookmarkManager.removeBookmark id) s)
    = filter (fun b => negb (bookmark_has_id id b)) (BookmarkManager.bookmarks s).
Proof.
  intros H.
  assert (E : after (BookmarkManager.removeBookmark id) s =
              after (bind BookmarkManager.fire (fun _ => BookmarkManager.saveState))
                    (after (BookmarkManager.set_bookmarks
                              (filter (fun b => negb (bookmark_has_id id b))
                                      (BookmarkManager.bookmarks s))) s)).
  { unfold after at 1. now rewrite removeBookmark_eq, H. }
  rewrite E.
  destruct (after_fire_saveState
              (after (BookmarkManager.set_bookmarks
                        (filter (fun b => negb (bookmark_has_id id b))
                                (BookmarkManager.bookmarks s))) s)) as [-> ->].
  split; reflexivity.
Qed.

Lemma after_removeBookmark_group (id : string) (s : BookmarkManager.t) (g : BookmarkGroup.t) :
  existsb (bookmark_has_id id) (BookmarkManager.bookmarks s) = false ->
  find (holds id) (BookmarkManager.getAllGroups s) = Some g ->
  BookmarkManager.groups (after (BookmarkManager.removeBookmark id) s)
    = BookmarkManager.groups
        (after (BookmarkManager.call g (fun this => snd (BookmarkGroup.removeBookmark id this)))
               s) /\
  BookmarkManager.bookmarks (after (BookmarkManager.removeBookmark id) s)
    = BookmarkManager.bookmarks s.
Proof.
  intros H Hg.
  assert (E : after (BookmarkManager.removeBookmark id) s =
              after (bind BookmarkManager.fire (fun _ => BookmarkManager.saveState))
                    (after (BookmarkManager.call g
                              (fun this => snd (BookmarkGroup.removeBookmark id this))) s)).
  { unfold after at 1. now rewrite removeBookmark_eq, H, Hg. }
  rewrite E.
  destruct (after_fire_saveState
              (after (BookmarkManager.call g
                        (fun this => snd (BookmarkGroup.removeBookmark id this))) s))
    as [-> ->].
  split; reflexivity.
Qed.

Lemma after_moveBookmarkToGroup (bookmarkId targetGroupId : string) (s : BookmarkManager.t)
      (b : Bookmark.t) (target : BookmarkGroup.t) :
  BookmarkManager.findBookmarkById bookmarkId s = Some b ->
  BookmarkManager.findGroupById targetGroupId s = Some target ->
  returned (BookmarkManager.moveBookmarkToGroup bookmarkId targetGroupId) s = Ok true /\
  BookmarkManager.groups (after (BookmarkManager.moveBookmarkToGroup bookmarkId targetGroupId) s)
    = BookmarkManager.groups
        (after (BookmarkManager.call target (BookmarkGroup.addBookmark b))
               (after (BookmarkManager.removeBookmark bookmarkId) s)) /\
  BookmarkManager.bookmarks
    (after (BookmarkManager.moveBookmarkToGroup bookmarkId targetGroupId) s)
    = BookmarkManager.bookmarks (after (BookmarkManager.removeBookmark bookmarkId) s).
Proof.
  intros Hb Hg.
  assert (E : BookmarkManager.moveBookmarkToGroup bookmarkId targetGroupId s =
              (Ok true,
               after (bind BookmarkManager.fire (fun _ => BookmarkManager.saveState))
                     (after (BookmarkManager.call target (BookmarkGroup.addBookmark b))
                            (after (BookmarkManager.removeBookmark bookmarkId) s)))).
  { now rewrite moveBookmarkToGroup_eq, Hb, Hg. }
  unfold returned. unfold after at 1 4. rewrite E. cbn [fst snd].
  split; [reflexivity|].
  destruct (after_fire_saveState
              (after (BookmarkManager.call target (BookmarkGroup.addBookmark b))
                     (after (BookmarkManager.removeBookmark bookmarkId) s))) as [-> ->].
  split; reflexivity.
Qed.


(** The bookmark is not among the root bookmarks, and the first group that
    holds it is the target itself. *)
Lemma move_within_target (bookmarkId targetGroupId : string) (s : BookmarkManager.t)
      (target : BookmarkGroup.t) :
  existsb (bookmark_has_id bookmarkId) (BookmarkManager.bookmarks s) = false ->
  find (holds bookmarkId) (BookmarkManager.getAllGroups s) = Some target ->
  BookmarkManager.findGroupById targetGroupId s = Some target ->
  let s' := after (BookmarkManager.moveBookmarkToGroup bookmarkId targetGroupId) s in
  returned (BookmarkManager.moveBookmarkToGroup bookmarkId targetGroupId) s = Ok true /\
  exists b target',
    find (bookmark_has_id bookmarkId) (BookmarkGroup.bookmarks target) = Some b /\
    BookmarkManager.findGroupById targetGroupId s' = Some target' /\
    BookmarkGroup.bookmarks target' =
      filter (fun x => negb (bookmark_has_id bookmarkId x)) (BookmarkGroup.bookmarks target)
        ++ [b] /\
    filter (bookmark_has_id bookmarkId) (BookmarkGroup.bookmarks target') = [b].
Proof.
  intros Hroot Hfirst Htarget. cbv zeta.
  assert (Hholds : holds bookmarkId target = true) by (now apply find_some in Hfirst).
  destruct (find (bookmark_has_id bookmarkId) (BookmarkGroup.bookmarks target)) as [b|] eqn:Eb;
    [|unfold holds in Hholds; rewrite find_existsb, Eb in Hholds; discriminate].
  assert (Hb : bookmark_has_id bookmarkId b = true) by (now apply find_some in Eb).
  assert (Hid : Bookmark.id b = bookmarkId) by (now apply String.eqb_eq in Hb).
  assert (Hfind : BookmarkManager.findBookmarkById bookmarkId s = Some b).
  { unfold BookmarkManager.findBookmarkById.
    change (fun b0 : Bookmark.t => String.eqb (Bookmark.id b0) bookmarkId)
      with (bookmark_has_id bookmarkId).
    rewrite find_existsb in Hroot.
    destruct (find (bookmark_has_id bookmarkId) (BookmarkManager.bookmarks s));
      [discriminate|].
    rewrite first_some_find. fold (holds bookmarkId). now rewrite Hfirst. }
  destruct (after_moveBookmarkToGroup _ _ _ Hfind Htarget) as (Hret & Hgroups & _).
  destruct (after_removeBookmark_group bookmarkId s Hroot Hfirst) as (Hg1 & _).
  split; [exact Hret|].
  set (a := BookmarkGroup.addr target).
  set (rm := fun this => snd (BookmarkGroup.removeBookmark bookmarkId this)) in *.
  set (emptied := BookmarkGroup.modify a rm target).
  assert (Hemptied : BookmarkGroup.addr emptied = a /\
                     BookmarkGroup.bookmarks emptied =
                     filter (fun x => negb (bookmark_has_id bookmarkId x))
                            (BookmarkGroup.bookmarks target)).
  { subst emptied. rewrite modify_hit by reflexivity. subst a. now destruct target. }
  destruct Hemptied as [Haddr Hbs].
  exists b, (BookmarkGroup.modify a (BookmarkGroup.addBookmark b) emptied).
  assert (Hfinal : BookmarkGroup.bookmarks
                     (BookmarkGroup.modify a (BookmarkGroup.addBookmark b) emptied)
                   = filter (fun x => negb (bookmark_has_id bookmarkId x))
                            (BookmarkGroup.bookmarks target) ++ [b]).
  { rewrite modify_hit by exact Haddr. rewrite addBookmark_appends.
    - destruct emptied; cbn in *. now rewrite Hbs.
    - rewrite Hid. destruct emptied; cbn in *. rewrite Hbs. apply existsb_filter_negb. }
  split; [reflexivity|]. split; [|split].
  - rewrite (findGroupById_groups _ _ _ Hgroups).
    rewrite findGroupById_call by apply addBookmark_keeps_shape.
    rewrite (findGroupById_groups _ _ _ Hg1).
    rewrite findGroupById_call by apply removeBookmark_keeps_shape.
    now rewrite Htarget.
  - exact Hfinal.
  - rewrite Hfinal. apply count_one_at_end; [apply existsb_filter_negb | exact Hb].
Qed.


End Move.

(** ** Serialization *)

Section RoundTrip.
Context {host : Host}.

Lemma toJSON_unfold (g : BookmarkGroup.t) :
  BookmarkGroup.toJSON g =
  {| gd_id := BookmarkGroup.id g;
     gd_name := BookmarkGroup.name g;
     gd_description := Some (BookmarkGroup.description g);
     gd_bookmarks := Some (map Bookmark.toJSON (BookmarkGroup.bookmarks g));
     gd_groups := Some (map BookmarkGroup.toJSON (BookmarkGroup.groups g));
     gd_createdAt := toISOString (BookmarkGroup.createdAt g) |}.
Proof. destruct g; reflexivity. Qed.

Lemma js_or_empty (d : string) : js_or (Some d) "" = d.
Proof. unfold js_or. destruct (String.eqb_spec d ""); congruence. Qed.

Lemma js_or_again (a : option string) (d : string) :
  js_or (Some (js_or a d)) d = js_or a d.
Proof.
  unfold js_or. destruct a as [x|].
  - destruct (String.eqb_spec x ""); [|destruct (String.eqb_spec x ""); congruence].
    destruct (String.eqb_spec d ""); congruence.
  - destruct (String.eqb_spec d ""); congruence.
Qed.

(** The constructor and [fromJSON] name a bookmark as [well_formed_bookmark]
    asks: the name is empty only when the base name is. *)
Lemma new_well_named (amb : Ambient) (uri : Uri) (name description : option string) :
  let b := Bookmark.new amb uri name description in
  Bookmark.name b = js_or (Some (Bookmark.name b)) (Uri_basename (Bookmark.uri b)).
Proof. cbv zeta. unfold Bookmark.new. cbn [Bookmark.name Bookmark.uri]. now rewrite js_or_again. Qed.

Lemma fromJSON_well_named (data : BookmarkData) (b : Bookmark.t) :
  Bookmark.fromJSON data = Ok b ->
  Bookmark.name b = js_or (Some (Bookmark.name b)) (Uri_basename (Bookmark.uri b)).
Proof.
  unfold Bookmark.fromJSON. destruct (Uri_parse (bd_uri data)); [|discriminate].
  intros [= <-]. cbn [Bookmark.name Bookmark.uri]. now rewrite js_or_again.
Qed.

Lemma bookmark_round_trip (b : Bookmark.t) :
  well_formed_bookmark b -> Bookmark.fromJSON (Bookmark.toJSON b) = Ok b.
Proof.
  intros (Hname & Huri & Hdate).
  unfold Bookmark.fromJSON, Bookmark.toJSON.
  cbn [bd_id bd_uri bd_name bd_description bd_createdAt].
  rewrite Huri, Hdate, <- Hname, js_or_empty. now destruct b.
Qed.

Lemma bookmarks_round_trip (bs : list Bookmark.t) :
  (forall b, In b bs -> well_formed_bookmark b) ->
  map_throwing Bookmark.fromJSON (map Bookmark.toJSON bs) = Ok bs.
Proof.
  induction bs as [|b bs IH]; intros H; cbn; [reflexivity|].
  rewrite bookmark_round_trip by (apply H; now left).
  rewrite IH by (intros b' Hb'; apply H; now right). reflexivity.
Qed.

Lemma content_unfold (g : BookmarkGroup.t) :
  content g =
  BookmarkGroup.mk 0 (BookmarkGroup.id g) (BookmarkGroup.name g)
                   (BookmarkGroup.description g) (BookmarkGroup.bookmarks g)
                   (map content (BookmarkGroup.groups g)) None
                   (BookmarkGroup.createdAt g).
Proof. destruct g; reflexivity. Qed.

Lemma content_set_parent (p : option nat) (g : BookmarkGroup.t) :
  content (BookmarkGroup.set_parent p g) = content g.
Proof. destruct g; reflexivity. Qed.

Lemma linked_set_parent (p : option nat) (g : BookmarkGroup.t) :
  linked g -> linked (BookmarkGroup.set_parent p g).
Proof. intros H. destruct H as [g H1 H2]. constructor; destruct g; assumption. Qed.

Lemma children_round_trip (a : nat) (cs : list BookmarkGroup.t) :
  (forall c, In c cs -> reads_back c) ->
  forall m, exists cs' m',
    map_m (fun groupData =>
             bind (BookmarkGroup.fromJSON groupData) (fun childGroup =>
             ret (BookmarkGroup.set_parent (Some a) childGroup)))
          (map BookmarkGroup.toJSON cs) m = (Ok cs', m') /\
    map content cs' = map content cs /\
    (forall c', In c' cs' -> BookmarkGroup.parent c' = Some a /\ linked c').
Proof.
  induction cs as [|c cs IH]; intros H m.
  - exists [], m. split; [reflexivity|]. split; [reflexivity|]. intros ? [].
  - destruct (H c (or_introl eq_refl) m) as (c' & m1 & Hc & _ & Hcontent & Hlinked & _).
    destruct (IH (fun x Hx => H x (or_intror Hx)) m1) as (cs' & m2 & Hcs & Hcontents & Hall).
    exists (BookmarkGroup.set_parent (Some a) c' :: cs'), m2.
    split; [|split].
    + cbn [map map_m]. unfold bind at 1 2. rewrite Hc. unfold ret at 1.
      unfold bind at 1. rewrite Hcs. reflexivity.
    + cbn [map]. now rewrite content_set_parent, Hcontent, Hcontents.
    + intros x [<- | Hx]; [|now apply Hall].
      split; [now destruct c' | now apply linked_set_parent].
Qed.

Lemma group_round_trip (g : BookmarkGroup.t) : well_formed g -> reads_back g.
Proof.
  induction g as [g IH] using group_induction.
  intros Hwf n. destruct Hwf as [g Hdate Hbookmarks Hchildren].
  destruct (children_round_trip n (BookmarkGroup.groups g)
              (fun c Hc => IH c Hc (Hchildren c Hc)) (S n))
    as (cs' & n' & Hcs & Hcontents & Hall).
  eexists _, n'. rewrite toJSON_unfold.
  split; [|split; [|split; [|split]]].
  - cbn [BookmarkGroup.fromJSON gd_bookmarks gd_groups gd_id gd_name gd_description
         gd_createdAt].
    unfold bind at 1. unfold get at 1. unfold bind at 1. unfold put at 1.
    unfold bind at 1. unfold lift at 1.
    rewrite bookmarks_round_trip by exact Hbookmarks.
    unfold bind at 1. rewrite Hcs. unfold ret at 1. reflexivity.
  - reflexivity.
  - rewrite !content_unfold.
    cbn [BookmarkGroup.id BookmarkGroup.name BookmarkGroup.description
         BookmarkGroup.bookmarks BookmarkGroup.groups BookmarkGroup.createdAt
         gd_id gd_name gd_description gd_createdAt].
    now rewrite Hcontents, Hdate, js_or_empty.
  - constructor; cbn; intros c Hc; now apply Hall.
  - reflexivity.
Qed.

End RoundTrip.

(** ** What removing a group takes away *)

Section Shrink.
Context {host : Host}.

Lemma weight_cons (g : BookmarkGroup.t) (gs : list BookmarkGroup.t) :
  weight (g :: gs) = S (weight (BookmarkGroup.groups g)) + weight gs.
Proof.
  unfold weight. cbn [flat_map app length].
  rewrite getAllGroupsRecursive_eq, !length_app. lia.
Qed.

Lemma weight_filter (p : BookmarkGroup.t -> bool) (gs : list BookmarkGroup.t) :
  weight (filter p gs) <= weight gs.
Proof.
  induction gs as [|g gs IH]; cbn [filter]; [lia|].
  destruct (p g); rewrite ?weight_cons; lia.
Qed.

Lemma weight_filter_strict (p : BookmarkGroup.t -> bool) (gs : list BookmarkGroup.t) :
  existsb p gs = true -> weight (filter (fun g => negb (p g)) gs) < weight gs.
Proof.
  induction gs as [|g gs IH]; cbn [filter existsb]; [discriminate|].
  destruct (p g); cbn [negb orb]; intros H; rewrite ?weight_cons.
  - pose proof (weight_filter (fun g => negb (p g)) gs). lia.
  - specialize (IH H). lia.
Qed.

Lemma weight_map (h : BookmarkGroup.t -> BookmarkGroup.t) (gs : list BookmarkGroup.t) :
  (forall c, In c gs ->
     weight (BookmarkGroup.groups (h c)) <= weight (BookmarkGroup.groups c)) ->
  weight (map h gs) <= weight gs.
Proof.
  induction gs as [|g gs IH]; intros H; cbn [map]; [lia|].
  rewrite !weight_cons.
  specialize (H g (or_introl eq_refl)) as Hg.
  specialize (IH (fun c Hc => H c (or_intror Hc))). lia.
Qed.

Lemma weight_map_strict (h : BookmarkGroup.t -> BookmarkGroup.t) (gs : list BookmarkGroup.t)
      (c0 : BookmarkGroup.t) :
  (forall c, In c gs ->
     weight (BookmarkGroup.groups (h c)) <= weight (BookmarkGroup.groups c)) ->
  In c0 gs ->
  weight (BookmarkGroup.groups (h c0)) < weight (BookmarkGroup.groups c0) ->
  weight (map h gs) < weight gs.
Proof.
  induction gs as [|g gs IH]; intros H Hin Hlt; [destruct Hin|].
  cbn [map]. rewrite !weight_cons.
  specialize (H g (or_introl eq_refl)) as Hg.
  destruct Hin as [-> | Hin].
  - pose proof (weight_map h gs (fun c Hc => H c (or_intror Hc))). lia.
  - specialize (IH (fun c Hc => H c (or_intror Hc)) Hin Hlt). lia.
Qed.

Lemma modify_removeGroup_groups (a : nat) (id : string) (g : BookmarkGroup.t) :
  BookmarkGroup.groups
    (BookmarkGroup.modify a (fun this => snd (BookmarkGroup.removeGroup id this)) g) =
  let cs := map (BookmarkGroup.modify a (fun this => snd (BookmarkGroup.removeGroup id this)))
                (BookmarkGroup.groups g) in
  if Nat.eqb (BookmarkGroup.addr g) a then filter (fun c => negb (has_id id c)) cs else cs.
Proof.
  rewrite modify_unfold. cbv zeta. destruct g as [a0 i n d bs gs p c]; cbn.
  destruct (Nat.eqb a0 a); reflexivity.
Qed.

Lemma modify_removeGroup_id (a : nat) (id : string) (g : BookmarkGroup.t) :
  BookmarkGroup.id
    (BookmarkGroup.modify a (fun this => snd (BookmarkGroup.removeGroup id this)) g) =
  BookmarkGroup.id g.
Proof.
  rewrite modify_unfold. cbv zeta. destruct g as [a0 i n d bs gs p c]; cbn.
  destruct (Nat.eqb a0 a); reflexivity.
Qed.

Lemma existsb_has_id_modify (a : nat) (id : string) (cs : list BookmarkGroup.t) :
  existsb (has_id id)
          (map (BookmarkGroup.modify a (fun this => snd (BookmarkGroup.removeGroup id this))) cs)
  = existsb (has_id id) cs.
Proof.
  induction cs as [|c cs IH]; cbn [map existsb]; [reflexivity|].
  unfold has_id at 1 3. now rewrite modify_removeGroup_id, IH.
Qed.

Lemma modify_removeGroup_weight (a : nat) (id : string) (g : BookmarkGroup.t) :
  weight (BookmarkGroup.groups
            (BookmarkGroup.modify a (fun this => snd (BookmarkGroup.removeGroup id this)) g))
  <= weight (BookmarkGroup.groups g).
Proof.
  induction g as [g IH] using group_induction.
  rewrite modify_removeGroup_groups. cbv zeta.
  pose proof (weight_map _ _ IH) as Hmap.
  destruct (Nat.eqb (BookmarkGroup.addr g) a); [|exact Hmap].
  etransitivity; [apply weight_filter | exact Hmap].
Qed.

(** The groups at and below [g]. *)
Lemma in_tree_cases (p g : BookmarkGroup.t) :
  In p (g :: BookmarkManager.getAllGroupsRecursive g) ->
  p = g \/ exists c, In c (BookmarkGroup.groups g) /\
                     In p (c :: BookmarkManager.getAllGroupsRecursive c).
Proof.
  intros [<- | H]; [now left | right].
  rewrite getAllGroupsRecursive_eq in H. apply in_app_or in H as [H | H].
  - exists p. split; [exact H | now left].
  - apply in_flat_map in H as (c & Hc & Hp). exists c. split; [exact Hc | now right].
Qed.

Lemma modify_removeGroup_strict (id : string) (p g : BookmarkGroup.t) :
  In p (g :: BookmarkManager.getAllGroupsRecursive g) ->
  holds_group id p = true ->
  weight (BookmarkGroup.groups
            (BookmarkGroup.modify (BookmarkGroup.addr p)
                                  (fun this => snd (BookmarkGroup.removeGroup id this)) g))
  < weight (BookmarkGroup.groups g).
Proof.
  intros Hin Hp. revert Hin.
  induction g as [g IH] using group_induction. intros Hin.
  rewrite modify_removeGroup_groups. cbv zeta.
  set (rm := fun this => snd (BookmarkGroup.removeGroup id this)) in *.
  pose proof (weight_map (BookmarkGroup.modify (BookmarkGroup.addr p) rm)
                         (BookmarkGroup.groups g)
                         (fun c _ => modify_removeGroup_weight (BookmarkGroup.addr p) id c))
    as Hmap.
  apply in_tree_cases in Hin as [-> | (c & Hc & Hpc)].
  - rewrite Nat.eqb_refl.
    eapply Nat.lt_le_trans; [apply (weight_filter_strict (has_id id)) | apply Hmap].
    subst rm. now rewrite existsb_has_id_modify.
  - assert (Hlt : weight (map (BookmarkGroup.modify (BookmarkGroup.addr p) rm)
                              (BookmarkGroup.groups g))
                  < weight (BookmarkGroup.groups g)).
    { apply weight_map_strict with (c0 := c);
        [intros x _; apply modify_removeGroup_weight | exact Hc | now apply IH]. }
    destruct (Nat.eqb (BookmarkGroup.addr g) (BookmarkGroup.addr p)); [|exact Hlt].
    eapply Nat.le_lt_trans; [apply weight_filter | exact Hlt].
Qed.

Lemma getAllGroups_weight (s : BookmarkManager.t) :
  length (BookmarkManager.getAllGroups s) = weight (BookmarkManager.groups s).
Proof. now rewrite getAllGroups_eq. Qed.

(** When [removeGroup] returns [true], the forest has fewer groups. *)
Lemma removeGroup_shrinks (id : string) (s : BookmarkManager.t) :
  existsb (has_id id) (BookmarkManager.getAllGroups s) = true ->
  length (BookmarkManager.getAllGroups (after (BookmarkManager.removeGroup id) s))
  < length (BookmarkManager.getAllGroups s).
Proof.
  intros H. rewrite !getAllGroups_weight.
  rewrite existsb_getAllGroups in H.
  unfold after. rewrite removeGroup_eq.
  destruct (existsb (has_id id) (BookmarkManager.groups s)) eqn:Hroot.
  - cbn [snd]. rewrite (proj1 (after_fire_saveState _)).
    unfold after, BookmarkManager.set_groups. cbn [snd BookmarkManager.groups].
    now apply weight_filter_strict.
  - cbn [orb] in H. rewrite (find_existsb (holds_group id)) in H.
    destruct (find (holds_group id) (BookmarkManager.getAllGroups s)) as [p|] eqn:Hfind;
      [|discriminate].
    cbn [snd]. rewrite (proj1 (after_fire_saveState _)).
    unfold after, BookmarkManager.call. cbn [snd BookmarkManager.groups].
    apply find_some in Hfind as [Hin Hp].
    rewrite getAllGroups_eq in Hin.
    assert (Hroot' : exists r, In r (BookmarkManager.groups s) /\
                               In p (r :: BookmarkManager.getAllGroupsRecursive r)).
    { apply in_app_or in Hin as [Hin | Hin].
      - exists p. split; [exact Hin | now left].
      - apply in_flat_map in Hin as (r & Hr & Hpr). exists r. split; [exact Hr | now right]. }
    destruct Hroot' as (r & Hr & Hpr).
    apply weight_map_strict with (c0 := r);
      [intros x _; apply modify_removeGroup_weight | exact Hr |
       now apply modify_removeGroup_strict].
Qed.

End Shrink.

(** ** Restoring the stored document *)

Lemma loadState_never_throws {host : Host} (s : BookmarkManager.t) :
  returned BookmarkManager.loadState s = Ok tt.
Proof.
  unfold BookmarkManager.loadState, returned. run_monad.
  destruct (BookmarkManager.globalState s) as [data|]; [|reflexivity].
  destruct (doc_bookmarks data) as [bds|], (doc_groups data) as [gds|]; cbn.
  - destruct (map_throwing Bookmark.fromJSON bds); cbn; [|reflexivity].
    destruct (map_m BookmarkGroup.fromJSON gds (BookmarkManager.next_addr s)) as [[gs|e] n];
      reflexivity.
  - destruct (map_throwing Bookmark.fromJSON bds); reflexivity.
  - destruct (map_m BookmarkGroup.fromJSON gds (BookmarkManager.next_addr s)) as [[gs|e] n];
      reflexivity.
  - reflexivity.
Qed.

(** * The claims *)

(** C1 (as amended).  [removeGroup(id)] looks among the root groups and then
    among the children of every group [getAllGroups] lists, which are the
    groups of the forest at every depth.  So it returns [true] exactly when
    some group of the forest, however deep, has that id, and then the
    forest has fewer groups than before; when no group has that id it
    returns [false] and nothing changes. *)
Theorem removeGroup_reaches_every_depth {host : Host} (id : string) (s : BookmarkManager.t) :
  returned (BookmarkManager.removeGroup id) s =
    Ok (existsb (has_id id) (BookmarkManager.getAllGroups s)) /\
  (existsb (has_id id) (BookmarkManager.getAllGroups s) = true ->
   length (BookmarkManager.getAllGroups (after (BookmarkManager.removeGroup id) s))
   < length (BookmarkManager.getAllGroups s)) /\
  (existsb (has_id id) (BookmarkManager.getAllGroups s) = false ->
   after (BookmarkManager.removeGroup id) s = s).
Proof.
  split; [apply removeGroup_returned|]. split.
  - apply removeGroup_shrinks.
  - intros H. unfold after. now rewrite removeGroup_absent.
Qed.

(** C1 (as stated) fails: no forest holds a group nested more than one
    level deep on whose id [removeGroup] returns [false] and which is still
    in the forest afterwards. *)
Lemma no_deep_group_escapes_removeGroup :
  ~ exists (host : Host) (s : BookmarkManager.t) (g : BookmarkGroup.t),
      nested_deeper g s /\
      returned (BookmarkManager.removeGroup (BookmarkGroup.id g)) s = Ok false /\
      In g (BookmarkManager.getAllGroups
              (after (BookmarkManager.removeGroup (BookmarkGroup.id g)) s)).
Proof.
  intros (host & s & g & Hdeep & Hret & _).
  rewrite removeGroup_returned in Hret.
  assert (H : existsb (has_id (BookmarkGroup.id g)) (BookmarkManager.getAllGroups s) = true).
  { apply existsb_exists. exists g. split; [now apply nested_deeper_listed|].
    unfold has_id. apply String.eqb_refl. }
  rewrite H in Hret. discriminate.
Qed.

Lemma removeGroup_reaches_every_depth_witness :
  existsb (has_id "D") (BookmarkManager.getAllGroups three_levels) = true /\
  returned (BookmarkManager.removeGroup "D") three_levels = Ok true /\
  length (BookmarkManager.getAllGroups (after (BookmarkManager.removeGroup "D") three_levels))
  < length (BookmarkManager.getAllGroups three_levels).
Proof.
  assert (H : existsb (has_id "D") (BookmarkManager.getAllGroups three_levels) = true)
    by reflexivity.
  destruct (@removeGroup_reaches_every_depth plain_host "D" three_levels)
    as (Hret & Hless & _).
  split; [exact H|]. split; [now rewrite Hret, H | exact (Hless H)].
Defined.

(** A run: [D] lies two levels below the root [R]; [removeGroup] finds it. *)
Example removeGroup_two_levels_down :
  nested_deeper (@a_group plain_host 2 "D" [] [] (Some 1)) three_levels /\
  returned (BookmarkManager.removeGroup "D") three_levels = Ok true /\
  map BookmarkGroup.id
      (BookmarkManager.getAllGroups (after (BookmarkManager.removeGroup "D") three_levels))
    = ["R"; "C"].
Proof.
  split; [|split; vm_compute; reflexivity].
  eexists _, _. split; [left; reflexivity|].
  split; [left; reflexivity | vm_compute; left; reflexivity].
Qed.

(** C2.  For every well-formed bookmark, [fromJSON (toJSON b)] is [b]
    itself (id, uri, name, description and timestamp).  For every
    well-formed group tree, [fromJSON (toJSON g)] succeeds and yields a tree
    with the same content as [g] (ids, names, descriptions, timestamps,
    bookmarks and nesting, at every depth), in which every child group has
    the reconstructed group that holds it as its parent, the root having
    none. *)
Theorem serialize_then_deserialize {host : Host} :
  (forall b : Bookmark.t,
      well_formed_bookmark b -> Bookmark.fromJSON (Bookmark.toJSON b) = Ok b) /\
  (forall (g : BookmarkGroup.t) (next : nat),
      well_formed g ->
      exists g' next',
        BookmarkGroup.fromJSON (BookmarkGroup.toJSON g) next = (Ok g', next') /\
        content g' = content g /\
        linked g' /\
        BookmarkGroup.parent g' = None).
Proof.
  split; [exact bookmark_round_trip|].
  intros g next Hwf.
  destruct (group_round_trip Hwf next) as (g' & n' & H & _ & Hcontent & Hlinked & Hparent).
  now exists g', n'.
Qed.

Lemma serialize_then_deserialize_witness :
  (well_formed_bookmark bookmark_b1 /\ well_formed nested_pair) /\
  Bookmark.fromJSON (Bookmark.toJSON bookmark_b1) = Ok bookmark_b1 /\
  exists g' next',
    BookmarkGroup.fromJSON (BookmarkGroup.toJSON nested_pair) 10 = (Ok g', next') /\
    content g' = content nested_pair /\
    linked g' /\
    BookmarkGroup.parent g' = None.
Proof.
  assert (Hb : well_formed_bookmark bookmark_b1) by (repeat split).
  assert (Hg : well_formed nested_pair).
  { constructor; [reflexivity | intros b [<- | []]; exact Hb |].
    intros c [<- | []]. constructor; [reflexivity | intros ? [] | intros ? []]. }
  split; [split; assumption|].
  split.
  - apply (proj1 (@serialize_then_deserialize plain_host) bookmark_b1 Hb).
  - apply (proj2 (@serialize_then_deserialize plain_host) nested_pair 10 Hg).
Defined.

(** The same round trip, run: the child is rebuilt at address 11 with the
    rebuilt root, at address 10, as its parent. *)
Example round_trip_run :
  let g' := returned (BookmarkGroup.fromJSON (BookmarkGroup.toJSON nested_pair)) 10 in
  match g' with
  | Ok g' =>
      BookmarkGroup.addr g' = 10 /\
      map BookmarkGroup.addr (BookmarkGroup.groups g') = [11] /\
      map BookmarkGroup.parent (BookmarkGroup.groups g') = [Some 10] /\
      map BookmarkGroup.id (BookmarkGroup.groups g') = ["C"] /\
      BookmarkGroup.bookmarks g' = [bookmark_b1]
  | Throw _ => False
  end.
Proof. vm_compute. repeat split. Qed.



(** C4 (as amended).  [getAllGroups] returns every group of the forest, the
    roots and all their descendants, each as often as it occurs (it is a
    permutation of the pre-order listing), but not in pre-order: first the
    root groups, then for each root in turn the groups below it, where the
    groups below a group are its children followed by what is below each
    child in turn. *)
Theorem getAllGroups_lists_every_group {host : Host} (s : BookmarkManager.t) :
  Permutation (BookmarkManager.getAllGroups s) (preorder (BookmarkManager.groups s)) /\
  BookmarkManager.getAllGroups s =
    BookmarkManager.groups s
      ++ flat_map BookmarkManager.getAllGroupsRecursive (BookmarkManager.groups s) /\
  (forall g,
     BookmarkManager.getAllGroupsRecursive g =
       BookmarkGroup.groups g
         ++ flat_map BookmarkManager.getAllGroupsRecursive (BookmarkGroup.groups g)).
Proof.
  split; [|split].
  - rewrite getAllGroups_eq. apply levels_permutation.
    intros c _. apply getAllGroupsRecursive_permutation.
  - apply getAllGroups_eq.
  - apply getAllGroupsRecursive_eq.
Qed.

(** C4 (as stated) fails: with roots [A] and [B] and [A1] inside [A], the
    listing is [A; B; A1], and pre-order is [A; A1; B]. *)
Lemma getAllGroups_is_not_preorder :
  map BookmarkGroup.id (BookmarkManager.getAllGroups two_roots) = ["A"; "B"; "A1"] /\
  map BookmarkGroup.id (preorder (BookmarkManager.groups two_roots)) = ["A"; "A1"; "B"].
Proof. split; reflexivity. Qed.

(** C5 (as amended).  [loadState] never throws.  With no stored document
    the forest stays empty and nothing is reported.  When deserialization
    of the stored document fails, the failure is reported (console and
    error message) and the root groups stay empty; the root bookmarks stay
    empty too when the failure is in a bookmark record, but when it is in a
    group record the root bookmarks, read and assigned before, stay
    loaded. *)
Theorem loadState_after_a_failure {host : Host} (stored : option Document) (next : nat) :
  fst (BookmarkManager.new stored next) = Ok tt /\
  (stored = None \/ (exists data, stored = Some data /\ deserialization_fails data next) ->
   BookmarkManager.groups (snd (BookmarkManager.new stored next)) = [] /\
   BookmarkManager.bookmarks (snd (BookmarkManager.new stored next)) =
     match stored with
     | Some data => match bookmarks_read data with Ok bs => bs | Throw _ => [] end
     | None => []
     end /\
   BookmarkManager.log (snd (BookmarkManager.new stored next)) =
     match stored with
     | Some _ => load_failure_report
     | None => []
     end).
Proof.
  unfold BookmarkManager.new. split; [apply loadState_never_throws|].
  unfold BookmarkManager.loadState, bookmarks_read, load_failure_report.
  intros [-> | (data & -> & Hfail)]; [repeat split|].
  unfold deserialization_fails, bookmarks_read in Hfail.
  run_monad.
  destruct Hfail as [(e & Hb) | (bs & gds & e & n & Hb & Hg & Hm)].
  - destruct (doc_bookmarks data) as [bds|]; [|discriminate].
    rewrite Hb. repeat split.
  - rewrite Hg.
    destruct (doc_bookmarks data) as [bds|].
    + rewrite Hb. cbn. rewrite Hm. repeat split.
    + injection Hb as <-. cbn. rewrite Hm. repeat split.
Qed.

(** C5 (as stated) fails: the stored document holds a good bookmark record
    and a group record without its [bookmarks] array; deserialization
    fails, and the forest is left with the bookmark. *)
Lemma loadState_keeps_bookmarks_read_before_failure :
  returned (@BookmarkGroup.fromJSON plain_host group_record_without_bookmarks) 0
    = Throw TypeError /\
  map Bookmark.id
      (BookmarkManager.bookmarks
         (snd (@BookmarkManager.new plain_host (Some good_bookmark_broken_group) 0)))
    = ["b1"] /\
  BookmarkManager.groups
    (snd (@BookmarkManager.new plain_host (Some good_bookmark_broken_group) 0)) = [].
Proof. repeat split. Qed.

Lemma loadState_after_a_failure_witness :
  (exists data, Some good_bookmark_broken_group = Some data /\
                @deserialization_fails plain_host data 0) /\
  fst (@BookmarkManager.new plain_host (Some good_bookmark_broken_group) 0) = Ok tt /\
  BookmarkManager.groups
    (snd (@BookmarkManager.new plain_host (Some good_bookmark_broken_group) 0)) = [] /\
  map Bookmark.id
      (BookmarkManager.bookmarks
         (snd (@BookmarkManager.new plain_host (Some good_bookmark_broken_group) 0)))
    = ["b1"] /\
  BookmarkManager.log
    (snd (@BookmarkManager.new plain_host (Some good_bookmark_broken_group) 0))
    = load_failure_report.
Proof.
  assert (H : exists data, Some good_bookmark_broken_group = Some data /\
                           @deserialization_fails plain_host data 0).
  { exists good_bookmark_broken_group. split; [reflexivity|].
    right. eexists _, _, _, _. repeat split; reflexivity. }
  split; [exact H|].
  destruct (@loadState_after_a_failure plain_host (Some good_bookmark_broken_group) 0)
    as (Hr & Hrest).
  destruct (Hrest (or_intror H)) as (Hg & Hb & Hl).
  split; [exact Hr|]. split; [exact Hg|]. split; [now rewrite Hb | exact Hl].
Defined.



(** C7 (as amended).  [Bookmark.open] on a failure reports to the user and
    returns [undefined] without throwing; so nothing reaches [openAll],
    which does not abort: it returns normally after having tried every
    bookmark of the group, in order, whichever of them failed. *)
Theorem openAll_tries_every_bookmark {host : Host} (g : BookmarkGroup.t) (b : Bookmark.t)
        (log : list Event) :
  (showTextDocument (Bookmark.uri b) = false ->
   Bookmark.open b log =
   (Ok None,
    log ++ [ShowErrorMessage ("Failed to open bookmark: " ++ Bookmark.name b);
            ConsoleError "Failed to open bookmark:"])) /\
  (exists opened, Bookmark.open b log = (Ok opened, log ++ open_outcome b)) /\
  BookmarkGroup.openAll g log =
  (Ok tt, log ++ flat_map open_outcome (BookmarkGroup.bookmarks g)).
Proof.
  split; [|split].
  - intros H. rewrite open_eq. unfold open_outcome. now rewrite H.
  - eexists. apply open_eq.
  - apply open_each.
Qed.

Lemma openAll_tries_every_bookmark_witness :
  showTextDocument (Bookmark.uri gone_bookmark) = false /\
  Bookmark.open gone_bookmark [] =
  (Ok None,
   [] ++ [ShowErrorMessage ("Failed to open bookmark: " ++ Bookmark.name gone_bookmark);
          ConsoleError "Failed to open bookmark:"]) /\
  BookmarkGroup.openAll gone_then_here [] =
  (Ok tt, [] ++ flat_map open_outcome (BookmarkGroup.bookmarks gone_then_here)).
Proof.
  destruct (@openAll_tries_every_bookmark gone_host gone_then_here gone_bookmark [])
    as (Hopen & _ & Hall).
  split; [reflexivity|]. split; [apply Hopen; reflexivity | exact Hall].
Defined.

(** C7 (as stated) fails: the first bookmark of the group cannot be opened,
    and [openAll] still returns normally and opens the second. *)
Lemma openAll_goes_on_after_a_failure :
  showTextDocument (Bookmark.uri gone_bookmark) = false /\
  BookmarkGroup.bookmarks gone_then_here = [gone_bookmark; here_bookmark] /\
  BookmarkGroup.openAll gone_then_here [] =
  (Ok tt,
   [ShowErrorMessage "Failed to open bookmark: gone.txt";
    ConsoleError "Failed to open bookmark:";
    TextDocumentShown "file:///here.txt"]).
Proof. repeat split; reflexivity. Qed.




(** C9 (the code at the failing input).  Two [addBookmark] calls, and two
    [createGroup] calls, that read the same clock tick and the same random
    draw give their objects the same id, and both stay in the forest. *)
Lemma ids_collide_within_one_tick :
  let s0 := @a_manager plain_host [] [] 0 in
  let s1 := after (BookmarkManager.addBookmark same_tick ("file:///a.txt" : @Uri plain_host)
                                               None None None) s0 in
  let s2 := after (BookmarkManager.addBookmark same_tick ("file:///b.txt" : @Uri plain_host)
                                               None None None) s1 in
  let s3 := after (BookmarkManager.createGroup same_tick "first" None None) s2 in
  let s4 := after (BookmarkManager.createGroup same_tick "second" None None) s3 in
  map Bookmark.id (BookmarkManager.bookmarks s4)
    = ["bookmark-1700000000000-42"; "bookmark-1700000000000-42"] /\
  map BookmarkGroup.id (BookmarkManager.groups s4)
    = ["group-1700000000000-42"; "group-1700000000000-42"].
Proof. split; vm_compute; reflexivity. Qed.

(** C10.  When the bookmark to move is not a root bookmark and the first
    group that holds it is the target group itself, [moveBookmarkToGroup]
    returns [true]; the group then holds its other bookmarks in their order
    followed by the moved bookmark, which is its only bookmark with that id
    (removed and appended again, so now last); and a change event is
    fired, followed by a write, although nothing moved between groups. *)
Theorem move_within_target_reappends {host : Host}
        (bookmarkId targetGroupId : string) (s : BookmarkManager.t)
        (target : BookmarkGroup.t) :
  existsb (bookmark_has_id bookmarkId) (BookmarkManager.bookmarks s) = false ->
  find (holds bookmarkId) (BookmarkManager.getAllGroups s) = Some target ->
  BookmarkManager.findGroupById targetGroupId s = Some target ->
  let s' := after (BookmarkManager.moveBookmarkToGroup bookmarkId targetGroupId) s in
  returned (BookmarkManager.moveBookmarkToGroup bookmarkId targetGroupId) s = Ok true /\
  (exists b target',
      find (bookmark_has_id bookmarkId) (BookmarkGroup.bookmarks target) = Some b /\
      BookmarkManager.findGroupById targetGroupId s' = Some target' /\
      BookmarkGroup.bookmarks target' =
        filter (fun x => negb (bookmark_has_id bookmarkId x)) (BookmarkGroup.bookmarks target)
          ++ [b] /\
      filter (bookmark_has_id bookmarkId) (BookmarkGroup.bookmarks target') = [b]) /\
  (exists earlier,
      BookmarkManager.log s' = BookmarkManager.log s ++ earlier ++ DidChangeData :: written s').
Proof.
  intros Hroot Hfirst Htarget. cbv zeta.
  destruct (@move_within_target host bookmarkId targetGroupId s target Hroot Hfirst Htarget)
    as [Hret Hmoved].
  split; [exact Hret|]. split; [exact Hmoved|].
  destruct (moveBookmarkToGroup_notifies bookmarkId targetGroupId s)
    as [[Hfalse _] | [_ (earlier & Hlog & _)]].
  - rewrite Hret in Hfalse. discriminate.
  - exists earlier. exact Hlog.
Qed.

Lemma move_within_target_reappends_witness :
  (existsb (bookmark_has_id "b1") (BookmarkManager.bookmarks group_of_two) = false /\
   find (holds "b1") (BookmarkManager.getAllGroups group_of_two)
     = Some (@a_group plain_host 0 "G" [bookmark_b1; bookmark_b2] [] None) /\
   BookmarkManager.findGroupById "G" group_of_two
     = Some (@a_group plain_host 0 "G" [bookmark_b1; bookmark_b2] [] None)) /\
  returned (BookmarkManager.moveBookmarkToGroup "b1" "G") group_of_two = Ok true /\
  (exists b target',
      find (bookmark_has_id "b1") [bookmark_b1; bookmark_b2] = Some b /\
      BookmarkManager.findGroupById "G"
        (after (BookmarkManager.moveBookmarkToGroup "b1" "G") group_of_two) = Some target' /\
      BookmarkGroup.bookmarks target' =
        filter (fun x => negb (bookmark_has_id "b1" x)) [bookmark_b1; bookmark_b2] ++ [b] /\
      filter (bookmark_has_id "b1") (BookmarkGroup.bookmarks target') = [b]) /\
  (exists earlier,
      BookmarkManager.log (after (BookmarkManager.moveBookmarkToGroup "b1" "G") group_of_two)
      = BookmarkManager.log group_of_two ++ earlier
          ++ DidChangeData
          :: written (after (BookmarkManager.moveBookmarkToGroup "b1" "G") group_of_two)).
Proof.
  split; [repeat split|].
  apply (@move_within_target_reappends plain_host "b1" "G" group_of_two
           (@a_group plain_host 0 "G" [bookmark_b1; bookmark_b2] [] None));
    reflexivity.
Defined.

(** The same move, run: [b1; b2] becomes [b2; b1], and two events are fired. *)
Example move_within_target_run :
  map (fun g => map Bookmark.id (BookmarkGroup.bookmarks g))
      (BookmarkManager.groups
         (after (BookmarkManager.moveBookmarkToGroup "b1" "G") group_of_two))
    = [["b2"; "b1"]] /\
  filter is_change
         (BookmarkManager.log
            (after (BookmarkManager.moveBookmarkToGroup "b1" "G") group_of_two))
    = [DidChangeData; DidChangeData].
Proof. split; vm_compute; reflexivity. Qed.

(** * Further properties

    What the code shows beyond the claims above, method by method. *)

(** ** A group's own lists *)

Section OwnLists.
Context {host : Host}.

Lemma holds_addBookmark (b : Bookmark.t) (g : BookmarkGroup.t) :
  holds (Bookmark.id b) (BookmarkGroup.addBookmark b g) = true.
Proof.
  unfold BookmarkGroup.addBookmark.
  change (fun b0 : Bookmark.t => String.eqb (Bookmark.id b0) (Bookmark.id b))
    with (bookmark_has_id (Bookmark.id b)).
  destruct (existsb (bookmark_has_id (Bookmark.id b)) (BookmarkGroup.bookmarks g)) eqn:E;
    cbn [negb]; [exact E|].
  unfold holds. destruct g; cbn [BookmarkGroup.set_bookmarks BookmarkGroup.bookmarks].
  rewrite existsb_app. cbn [existsb]. unfold bookmark_has_id at 2.
  now rewrite String.eqb_refl, orb_true_r.
Qed.

Lemma holds_group_addGroup (c g : BookmarkGroup.t) :
  holds_group (BookmarkGroup.id c) (BookmarkGroup.addGroup c g) = true.
Proof.
  unfold BookmarkGroup.addGroup.
  change (fun g0 : BookmarkGroup.t => String.eqb (BookmarkGroup.id g0) (BookmarkGroup.id c))
    with (has_id (BookmarkGroup.id c)).
  destruct (existsb (has_id (BookmarkGroup.id c)) (BookmarkGroup.groups g)) eqn:E;
    cbn [negb]; [exact E|].
  unfold holds_group. destruct g; cbn [BookmarkGroup.set_groups BookmarkGroup.groups].
  rewrite existsb_app. cbn [existsb]. unfold has_id at 2.
  destruct c; cbn [BookmarkGroup.set_parent BookmarkGroup.id].
  now rewrite String.eqb_refl, orb_true_r.
Qed.

Lemma addGroup_appends (c g : BookmarkGroup.t) :
  holds_group (BookmarkGroup.id c) g = false ->
  BookmarkGroup.addGroup c g =
  BookmarkGroup.set_groups
    (BookmarkGroup.groups g ++ [BookmarkGroup.set_parent (Some (BookmarkGroup.addr g)) c]) g.
Proof.
  intros H. unfold BookmarkGroup.addGroup.
  change (fun g0 : BookmarkGroup.t => String.eqb (BookmarkGroup.id g0) (BookmarkGroup.id c))
    with (has_id (BookmarkGroup.id c)).
  unfold holds_group in H. now rewrite H.
Qed.

Lemma addBookmark_adds (b : Bookmark.t) (g : BookmarkGroup.t) :
  holds (Bookmark.id b) g = false ->
  BookmarkGroup.addBookmark b g =
  BookmarkGroup.set_bookmarks (BookmarkGroup.bookmarks g ++ [b]) g.
Proof.
  intros H. unfold BookmarkGroup.addBookmark.
  change (fun b0 : Bookmark.t => String.eqb (Bookmark.id b0) (Bookmark.id b))
    with (bookmark_has_id (Bookmark.id b)).
  unfold holds in H. now rewrite H.
Qed.

Lemma not_in_ids (id : string) (bs : list Bookmark.t) :
  existsb (bookmark_has_id id) bs = false -> ~ In id (map Bookmark.id bs).
Proof.
  induction bs as [|x bs IH]; cbn; [tauto|].
  intros H. apply orb_false_iff in H as [Hx Hbs].
  intros [E|Hin]; [|now apply IH].
  unfold bookmark_has_id in Hx. rewrite E, String.eqb_refl in Hx. discriminate.
Qed.

Lemma filter_app_one (A : Type) (p : A -> bool) (xs : list A) (x : A) :
  existsb p xs = false -> p x = true ->
  filter (fun y => negb (p y)) (xs ++ [x]) = xs.
Proof.
  intros Hxs Hx. rewrite filter_app. cbn. rewrite Hx. cbn.
  rewrite app_nil_r. now apply filter_none.
Qed.

(** X1 ([BookmarkGroup.addBookmark]).  After [addBookmark(bookmark)] the
    group holds a bookmark with that id; adding the same bookmark a second
    time changes nothing; and a group whose bookmarks have pairwise distinct
    ids keeps them pairwise distinct. *)
Theorem addBookmark_holds_each_id_once (b : Bookmark.t) (g : BookmarkGroup.t) :
  holds (Bookmark.id b) (BookmarkGroup.addBookmark b g) = true /\
  BookmarkGroup.addBookmark b (BookmarkGroup.addBookmark b g) = BookmarkGroup.addBookmark b g /\
  (NoDup (map Bookmark.id (BookmarkGroup.bookmarks g)) ->
   NoDup (map Bookmark.id (BookmarkGroup.bookmarks (BookmarkGroup.addBookmark b g)))).
Proof.
  split; [apply holds_addBookmark|]. split.
  - unfold BookmarkGroup.addBookmark at 1.
    change (fun b0 : Bookmark.t => String.eqb (Bookmark.id b0) (Bookmark.id b))
      with (bookmark_has_id (Bookmark.id b)).
    fold (holds (Bookmark.id b) (BookmarkGroup.addBookmark b g)).
    now rewrite holds_addBookmark.
  - intros Hnd.
    destruct (existsb (bookmark_has_id (Bookmark.id b)) (BookmarkGroup.bookmarks g)) eqn:E.
    + unfold BookmarkGroup.addBookmark.
      change (fun b0 : Bookmark.t => String.eqb (Bookmark.id b0) (Bookmark.id b))
        with (bookmark_has_id (Bookmark.id b)).
      now rewrite E.
    + rewrite addBookmark_appends by exact E.
      rewrite map_app. cbn [map].
      apply (Permutation_NoDup (Permutation_cons_append _ _)).
      constructor; [now apply not_in_ids | exact Hnd].
Qed.

(** X2 ([BookmarkGroup.removeBookmark]).  [removeBookmark(id)] answers
    whether the group held a bookmark with that id and leaves none with it;
    and it undoes an [addBookmark] that did add: the group is as before. *)
Theorem removeBookmark_undoes_addBookmark (id : string) (b : Bookmark.t)
        (g : BookmarkGroup.t) :
  fst (BookmarkGroup.removeBookmark id g) = holds id g /\
  holds id (snd (BookmarkGroup.removeBookmark id g)) = false /\
  (holds (Bookmark.id b) g = false ->
   BookmarkGroup.removeBookmark (Bookmark.id b) (BookmarkGroup.addBookmark b g) = (true, g)).
Proof.
  split; [apply removeBookmark_fst|]. split.
  - unfold holds. destruct g; cbn [BookmarkGroup.removeBookmark snd BookmarkGroup.set_bookmarks
                                     BookmarkGroup.bookmarks].
    apply (existsb_filter_negb (bookmark_has_id id)).
  - intros H.
    rewrite (surjective_pairing (BookmarkGroup.removeBookmark _ _)).
    rewrite removeBookmark_fst, holds_addBookmark. f_equal.
    rewrite addBookmark_adds by exact H.
    unfold BookmarkGroup.removeBookmark. cbn [snd].
    change (fun b0 : Bookmark.t => negb (String.eqb (Bookmark.id b0) (Bookmark.id b)))
      with (fun b0 : Bookmark.t => negb (bookmark_has_id (Bookmark.id b) b0)).
    destruct g as [a i n d bs gs p t].
    cbn [BookmarkGroup.set_bookmarks BookmarkGroup.groups BookmarkGroup.addr BookmarkGroup.id
         BookmarkGroup.name BookmarkGroup.description BookmarkGroup.bookmarks
         BookmarkGroup.parent BookmarkGroup.createdAt].
    rewrite filter_app_one; [reflexivity | exact H |].
    unfold bookmark_has_id. apply String.eqb_refl.
Qed.

(** X3 ([BookmarkGroup.addGroup], [BookmarkGroup.removeGroup]).  After
    [addGroup(group)] a child with that id is there.  When one was there
    already the group is unchanged; otherwise the argument becomes the last
    child with this group as its [parent], and [removeGroup] of its id
    gives the group back as it was. *)
Theorem addGroup_adopts_once (c g : BookmarkGroup.t) :
  holds_group (BookmarkGroup.id c) (BookmarkGroup.addGroup c g) = true /\
  (holds_group (BookmarkGroup.id c) g = true -> BookmarkGroup.addGroup c g = g) /\
  (holds_group (BookmarkGroup.id c) g = false ->
   BookmarkGroup.groups (BookmarkGroup.addGroup c g) =
     BookmarkGroup.groups g ++ [BookmarkGroup.set_parent (Some (BookmarkGroup.addr g)) c] /\
   BookmarkGroup.removeGroup (BookmarkGroup.id c) (BookmarkGroup.addGroup c g) = (true, g)).
Proof.
  split; [apply holds_group_addGroup|]. split.
  - intros H. unfold BookmarkGroup.addGroup.
    change (fun g0 : BookmarkGroup.t => String.eqb (BookmarkGroup.id g0) (BookmarkGroup.id c))
      with (has_id (BookmarkGroup.id c)).
    unfold holds_group in H. now rewrite H.
  - intros H. split; [rewrite addGroup_appends by exact H; now destruct g|].
    rewrite (surjective_pairing (BookmarkGroup.removeGroup _ _)).
    rewrite removeGroup_fst, holds_group_addGroup. f_equal.
    rewrite addGroup_appends by exact H.
    unfold BookmarkGroup.removeGroup. cbn [snd].
    change (fun g0 : BookmarkGroup.t => negb (String.eqb (BookmarkGroup.id g0) (BookmarkGroup.id c)))
      with (fun g0 : BookmarkGroup.t => negb (has_id (BookmarkGroup.id c) g0)).
    destruct g as [a i n d bs gs p t].
    cbn [BookmarkGroup.set_groups BookmarkGroup.groups BookmarkGroup.addr BookmarkGroup.id
         BookmarkGroup.name BookmarkGroup.description BookmarkGroup.bookmarks
         BookmarkGroup.parent BookmarkGroup.createdAt].
    rewrite filter_app_one; [reflexivity | exact H |].
    unfold has_id. destruct c; cbn. apply String.eqb_refl.
Qed.

End OwnLists.

Lemma addBookmark_holds_each_id_once_witness :
  NoDup (map Bookmark.id (BookmarkGroup.bookmarks nested_pair)) /\
  NoDup (map Bookmark.id
             (BookmarkGroup.bookmarks (BookmarkGroup.addBookmark bookmark_b2 nested_pair))).
Proof.
  assert (H : NoDup (map Bookmark.id (BookmarkGroup.bookmarks nested_pair)))
    by (constructor; [intros [] | constructor]).
  split; [exact H|].
  exact (proj2 (proj2 (@addBookmark_holds_each_id_once plain_host bookmark_b2 nested_pair)) H).
Defined.

Lemma removeBookmark_undoes_addBookmark_witness :
  holds (Bookmark.id bookmark_b2) nested_pair = false /\
  BookmarkGroup.removeBookmark "b2" (BookmarkGroup.addBookmark bookmark_b2 nested_pair)
    = (true, nested_pair).
Proof.
  split; [reflexivity|].
  exact (proj2 (proj2 (@removeBookmark_undoes_addBookmark plain_host "b2" bookmark_b2
                         nested_pair)) eq_refl).
Defined.

Lemma addGroup_adopts_once_witness :
  holds_group (BookmarkGroup.id lone_group) nested_pair = false /\
  map BookmarkGroup.parent (BookmarkGroup.groups (BookmarkGroup.addGroup lone_group nested_pair))
    = [Some 5; Some 5] /\
  BookmarkGroup.removeGroup "N" (BookmarkGroup.addGroup lone_group nested_pair)
    = (true, nested_pair).
Proof.
  split; [reflexivity|]. split; [reflexivity|].
  exact (proj2 (proj2 (proj2 (@addGroup_adopts_once plain_host lone_group nested_pair))
                      eq_refl)).
Defined.

(** ** Listing bookmarks, finding by id *)

Section Finding.
Context {host : Host}.

Lemma group_getAllBookmarks_eq (g : BookmarkGroup.t) :
  BookmarkGroup.getAllBookmarks g =
  BookmarkGroup.bookmarks g
    ++ flat_map BookmarkGroup.getAllBookmarks (BookmarkGroup.groups g).
Proof.
  destruct g; simpl. apply fold_left_app_flat_map.
Qed.

Lemma getAllBookmarks_eq (s : BookmarkManager.t) :
  BookmarkManager.getAllBookmarks s =
  BookmarkManager.bookmarks s
    ++ flat_map BookmarkGroup.bookmarks (BookmarkManager.getAllGroups s).
Proof.
  unfold BookmarkManager.getAllBookmarks. apply fold_left_app_flat_map.
Qed.

Lemma preorder_bookmarks (g : BookmarkGroup.t) :
  flat_map BookmarkGroup.bookmarks (preorder_group g) = BookmarkGroup.getAllBookmarks g.
Proof.
  induction g as [g IH] using group_induction.
  rewrite group_getAllBookmarks_eq.
  destruct g as [a i n d bs cs p t].
  cbn [preorder_group flat_map BookmarkGroup.bookmarks BookmarkGroup.groups] in *.
  f_equal.
  induction cs as [|c cs IHcs]; cbn [flat_map]; [reflexivity|].
  rewrite flat_map_app, (IH c (or_introl eq_refl)). f_equal.
  apply IHcs. intros c' Hc'. apply IH. now right.
Qed.

Lemma preorder_forest_bookmarks (gs : list BookmarkGroup.t) :
  flat_map BookmarkGroup.bookmarks (preorder gs) = flat_map BookmarkGroup.getAllBookmarks gs.
Proof.
  unfold preorder. induction gs as [|g gs IH]; cbn [flat_map]; [reflexivity|].
  now rewrite flat_map_app, preorder_bookmarks, IH.
Qed.

Lemma first_some_found_below (id : string) (cs : list BookmarkGroup.t) :
  (forall c, In c cs ->
     found_below id [c] (BookmarkManager.findGroupByIdRecursive c id)) ->
  found_below id cs
    (BookmarkManager.first_some
       (fun c => BookmarkManager.findGroupByIdRecursive c id) cs).
Proof.
  induction cs as [|c cs IH]; intros H; cbn [BookmarkManager.first_some]; [reflexivity|].
  assert (Hc := H c (or_introl eq_refl)).
  assert (Hcs := IH (fun c' Hc' => H c' (or_intror Hc'))).
  unfold found_below in *. cbn [flat_map app] in *. rewrite app_nil_r in Hc.
  destruct (BookmarkManager.findGroupByIdRecursive c id) as [r|].
  - destruct Hc as [Hid Hin]. split; [exact Hid|].
    destruct Hin as [<-|Hin]; [now left|].
    right. apply in_or_app. right. apply in_or_app. now left.
  - destruct (BookmarkManager.first_some _ cs) as [r|].
    + destruct Hcs as [Hid Hin]. split; [exact Hid|].
      right. apply in_app_or in Hin as [Hin|Hin]; apply in_or_app; [now left|].
      right. apply in_or_app. now right.
    + cbn [existsb] in *. rewrite !existsb_app in *.
      apply orb_false_iff in Hc as [Hc1 Hc2].
      apply orb_false_iff in Hcs as [Hcs1 Hcs2].
      now rewrite Hc1, Hc2, Hcs1, Hcs2.
Qed.

Lemma findGroupByIdRecursive_found (id : string) (g : BookmarkGroup.t) :
  found_below id [g] (BookmarkManager.findGroupByIdRecursive g id).
Proof.
  induction g as [g IH] using group_induction.
  rewrite findGroupByIdRecursive_unfold.
  assert (H := first_some_found_below id (BookmarkGroup.groups g) IH).
  unfold found_below in *. cbn [flat_map app existsb]. rewrite app_nil_r.
  rewrite getAllGroupsRecursive_eq. fold (has_id id g).
  destruct (has_id id g) eqn:E.
  - split; [now apply String.eqb_eq | now left].
  - destruct (BookmarkManager.first_some _ (BookmarkGroup.groups g)) as [r|].
    + destruct H as [Hid Hin]. split; [exact Hid | now right].
    + exact H.
Qed.

Lemma findGroupById_found (id : string) (s : BookmarkManager.t) :
  match BookmarkManager.findGroupById id s with
  | Some g => BookmarkGroup.id g = id /\ In g (BookmarkManager.getAllGroups s)
  | None => existsb (has_id id) (BookmarkManager.getAllGroups s) = false
  end.
Proof.
  unfold BookmarkManager.findGroupById. rewrite getAllGroups_eq.
  destruct (find _ (BookmarkManager.groups s)) as [g|] eqn:E.
  - apply find_some in E as [Hin Hid]. split; [now apply String.eqb_eq|].
    apply in_or_app. now left.
  - apply (first_some_found_below id (BookmarkManager.groups s)).
    intros c _. apply findGroupByIdRecursive_found.
Qed.

Lemma first_some_bookmarks (p : Bookmark.t -> bool) (gs : list BookmarkGroup.t) :
  match BookmarkManager.first_some (fun g => find p (BookmarkGroup.bookmarks g)) gs with
  | Some b => p b = true /\ In b (flat_map BookmarkGroup.bookmarks gs)
  | None => existsb p (flat_map BookmarkGroup.bookmarks gs) = false
  end.
Proof.
  induction gs as [|g gs IH]; cbn [BookmarkManager.first_some flat_map]; [reflexivity|].
  destruct (find p (BookmarkGroup.bookmarks g)) as [b|] eqn:E.
  - apply find_some in E as [Hin Hp]. split; [exact Hp|]. apply in_or_app. now left.
  - destruct (BookmarkManager.first_some _ gs) as [b|].
    + destruct IH as [Hp Hin]. split; [exact Hp|]. apply in_or_app. now right.
    + rewrite existsb_app, IH, (find_existsb p), E. reflexivity.
Qed.

Lemma findBookmarkById_found (id : string) (s : BookmarkManager.t) :
  match BookmarkManager.findBookmarkById id s with
  | Some b => Bookmark.id b = id /\ In b (BookmarkManager.getAllBookmarks s)
  | None => existsb (bookmark_has_id id) (BookmarkManager.getAllBookmarks s) = false
  end.
Proof.
  unfold BookmarkManager.findBookmarkById. rewrite getAllBookmarks_eq.
  change (fun b : Bookmark.t => String.eqb (Bookmark.id b) id) with (bookmark_has_id id).
  destruct (find _ (BookmarkManager.bookmarks s)) as [b|] eqn:E.
  - apply find_some in E as [Hin Hid]. split; [now apply String.eqb_eq|].
    apply in_or_app. now left.
  - assert (H := first_some_bookmarks (bookmark_has_id id) (BookmarkManager.getAllGroups s)).
    destruct (BookmarkManager.first_some _ (BookmarkManager.getAllGroups s)) as [b|].
    + destruct H as [Hid Hin]. split; [now apply String.eqb_eq|].
      apply in_or_app. now right.
    + now rewrite existsb_app, H, (find_existsb (bookmark_has_id id)), E.
Qed.

End Finding.

Section FindingTheorems.
Context {host : Host}.

(** X4 ([BookmarkGroup.getAllBookmarks], [BookmarkManager.getAllBookmarks]).
    A group lists its own bookmarks and then, child by child, what each
    child lists; the manager, which goes through [getAllGroups], lists the
    same bookmarks as its root groups together do, each as often, after the
    root bookmarks. *)
Theorem getAllBookmarks_lists_the_same_bookmarks (s : BookmarkManager.t) :
  (forall g,
      BookmarkGroup.getAllBookmarks g =
      BookmarkGroup.bookmarks g
        ++ flat_map BookmarkGroup.getAllBookmarks (BookmarkGroup.groups g)) /\
  exists below,
    BookmarkManager.getAllBookmarks s = BookmarkManager.bookmarks s ++ below /\
    Permutation below
                (flat_map BookmarkGroup.getAllBookmarks (BookmarkManager.groups s)).
Proof.
  split; [apply group_getAllBookmarks_eq|].
  exists (flat_map BookmarkGroup.bookmarks (BookmarkManager.getAllGroups s)).
  split; [apply getAllBookmarks_eq|].
  rewrite getAllGroups_eq, <- preorder_forest_bookmarks.
  apply Permutation_flat_map. apply levels_permutation.
  intros c _. apply getAllGroupsRecursive_permutation.
Qed.

(** X5 ([BookmarkManager.findGroupById], [findGroupByIdRecursive]).  What
    [findGroupById(id)] returns has that id and is one of the groups
    [getAllGroups] lists; it returns nothing only when none of them has the
    id; and a root group with the id is preferred to a nested one. *)
Theorem findGroupById_searches_the_whole_forest (id : string) (s : BookmarkManager.t) :
  match BookmarkManager.findGroupById id s with
  | Some g =>
      BookmarkGroup.id g = id /\ In g (BookmarkManager.getAllGroups s) /\
      (existsb (has_id id) (BookmarkManager.groups s) = true ->
       In g (BookmarkManager.groups s))
  | None => existsb (has_id id) (BookmarkManager.getAllGroups s) = false
  end.
Proof.
  assert (H := findGroupById_found id s).
  destruct (BookmarkManager.findGroupById id s) as [g|] eqn:E; [|exact H].
  destruct H as [Hid Hin]. split; [exact Hid|]. split; [exact Hin|].
  intros Hroot. unfold BookmarkManager.findGroupById in E.
  change (fun g : BookmarkGroup.t => String.eqb (BookmarkGroup.id g) id)
    with (has_id id) in E.
  rewrite (find_existsb (has_id id)) in Hroot.
  destruct (find (has_id id) (BookmarkManager.groups s)) as [r|] eqn:Er; [|discriminate].
  injection E as <-. now apply find_some in Er.
Qed.

(** X6 ([BookmarkManager.findBookmarkById]).  What [findBookmarkById(id)]
    returns has that id and is one of the bookmarks [getAllBookmarks] lists;
    it returns nothing only when none of them has the id. *)
Theorem findBookmarkById_searches_every_group (id : string) (s : BookmarkManager.t) :
  match BookmarkManager.findBookmarkById id s with
  | Some b => Bookmark.id b = id /\ In b (BookmarkManager.getAllBookmarks s)
  | None => existsb (bookmark_has_id id) (BookmarkManager.getAllBookmarks s) = false
  end.
Proof. apply findBookmarkById_found. Qed.

End FindingTheorems.

(** ** Removing a bookmark *)

Section RemoveBookmark.
Context {host : Host}.

Lemma existsb_flat_map (A B : Type) (p : B -> bool) (f : A -> list B) (xs : list A) :
  existsb p (flat_map f xs) = existsb (fun x => existsb p (f x)) xs.
Proof.
  induction xs as [|x xs IH]; cbn; [reflexivity|].
  now rewrite existsb_app, IH.
Qed.

Lemma removeBookmark_returned (id : string) (s : BookmarkManager.t) :
  returned (BookmarkManager.removeBookmark id) s =
  Ok (existsb (bookmark_has_id id) (BookmarkManager.getAllBookmarks s)).
Proof.
  unfold returned. rewrite removeBookmark_eq, getAllBookmarks_eq, existsb_app.
  destruct (existsb (bookmark_has_id id) (BookmarkManager.bookmarks s)); [reflexivity|].
  rewrite existsb_flat_map. fold (holds id).
  rewrite (find_existsb (holds id)).
  now destruct (find (holds id) (BookmarkManager.getAllGroups s)).
Qed.

Lemma flat_map_map (A B C : Type) (h : A -> B) (f : B -> list C) (xs : list A) :
  flat_map f (map h xs) = flat_map (fun x => f (h x)) xs.
Proof.
  induction xs as [|x xs IH]; cbn; [reflexivity | now rewrite IH].
Qed.

Lemma getAllGroupsRecursive_forest_modify (a : nat) (f : BookmarkGroup.t -> BookmarkGroup.t)
      (cs : list BookmarkGroup.t) :
  (forall c, In c cs ->
     BookmarkManager.getAllGroupsRecursive (BookmarkGroup.modify a f c) =
     map (BookmarkGroup.modify a f) (BookmarkManager.getAllGroupsRecursive c)) ->
  flat_map BookmarkManager.getAllGroupsRecursive (map (BookmarkGroup.modify a f) cs) =
  map (BookmarkGroup.modify a f) (flat_map BookmarkManager.getAllGroupsRecursive cs).
Proof.
  induction cs as [|c cs IH]; intros H; cbn [map flat_map]; [reflexivity|].
  rewrite map_app, (H c (or_introl eq_refl)). f_equal.
  apply IH. intros c' Hc'. apply H. now right.
Qed.

Lemma getAllGroupsRecursive_modify (a : nat) (f : BookmarkGroup.t -> BookmarkGroup.t)
      (g : BookmarkGroup.t) :
  keeps_shape f ->
  BookmarkManager.getAllGroupsRecursive (BookmarkGroup.modify a f g) =
  map (BookmarkGroup.modify a f) (BookmarkManager.getAllGroupsRecursive g).
Proof.
  intros Hf. induction g as [g IH] using group_induction.
  rewrite !getAllGroupsRecursive_eq, modify_groups by exact Hf.
  rewrite map_app. f_equal. now apply getAllGroupsRecursive_forest_modify.
Qed.

Lemma getAllGroups_call (ref : BookmarkGroup.t) (f : BookmarkGroup.t -> BookmarkGroup.t)
      (s : BookmarkManager.t) :
  keeps_shape f ->
  BookmarkManager.getAllGroups (after (BookmarkManager.call ref f) s) =
  map (BookmarkGroup.modify (BookmarkGroup.addr ref) f) (BookmarkManager.getAllGroups s).
Proof.
  intros Hf. rewrite !getAllGroups_eq.
  unfold after, BookmarkManager.call. cbn [snd BookmarkManager.groups].
  rewrite map_app. f_equal.
  apply getAllGroupsRecursive_forest_modify. intros c _.
  now apply getAllGroupsRecursive_modify.
Qed.

Lemma getAllGroups_groups (s s' : BookmarkManager.t) :
  BookmarkManager.groups s' = BookmarkManager.groups s ->
  BookmarkManager.getAllGroups s' = BookmarkManager.getAllGroups s.
Proof. intros H. unfold BookmarkManager.getAllGroups. now rewrite H. Qed.

Lemma modify_removeBookmark_bookmarks (a : nat) (id : string) (g : BookmarkGroup.t) :
  BookmarkGroup.bookmarks
    (BookmarkGroup.modify a (fun this => snd (BookmarkGroup.removeBookmark id this)) g) =
  if Nat.eqb (BookmarkGroup.addr g) a
  then filter (fun b => negb (bookmark_has_id id b)) (BookmarkGroup.bookmarks g)
  else BookmarkGroup.bookmarks g.
Proof.
  rewrite modify_unfold. destruct g as [a' i n d bs gs p t]. cbn.
  now destruct (Nat.eqb a' a).
Qed.

Lemma holds_modify_removeBookmark (a : nat) (id : string) (g : BookmarkGroup.t) :
  holds id (BookmarkGroup.modify a (fun this => snd (BookmarkGroup.removeBookmark id this)) g) =
  if Nat.eqb (BookmarkGroup.addr g) a then false else holds id g.
Proof.
  unfold holds. rewrite modify_removeBookmark_bookmarks.
  destruct (Nat.eqb (BookmarkGroup.addr g) a); [|reflexivity].
  apply (existsb_filter_negb (bookmark_has_id id)).
Qed.

Lemma filter_shorter (A : Type) (p : A -> bool) (xs : list A) :
  existsb p xs = true -> length (filter (fun x => negb (p x)) xs) < length xs.
Proof.
  intros H. rewrite <- filter_length_existsb in H.
  apply negb_true_iff, Nat.eqb_neq in H.
  assert (Hle := filter_length_le (fun x => negb (p x)) xs). lia.
Qed.

Lemma removeBookmark_list_le (a : nat) (id : string) (gs : list BookmarkGroup.t) :
  length (flat_map BookmarkGroup.bookmarks
            (map (BookmarkGroup.modify a
                    (fun this => snd (BookmarkGroup.removeBookmark id this))) gs))
  <= length (flat_map BookmarkGroup.bookmarks gs).
Proof.
  induction gs as [|g gs IH]; cbn [map flat_map]; [lia|].
  rewrite !length_app, modify_removeBookmark_bookmarks.
  destruct (Nat.eqb (BookmarkGroup.addr g) a); [|lia].
  assert (Hle := filter_length_le (fun b => negb (bookmark_has_id id b))
                                  (BookmarkGroup.bookmarks g)). lia.
Qed.

Lemma removeBookmark_list_lt (id : string) (gs : list BookmarkGroup.t) (g0 : BookmarkGroup.t) :
  find (holds id) gs = Some g0 ->
  length (flat_map BookmarkGroup.bookmarks
            (map (BookmarkGroup.modify (BookmarkGroup.addr g0)
                    (fun this => snd (BookmarkGroup.removeBookmark id this))) gs))
  < length (flat_map BookmarkGroup.bookmarks gs).
Proof.
  induction gs as [|g gs IH]; cbn [find map flat_map]; [discriminate|].
  rewrite !length_app, modify_removeBookmark_bookmarks.
  destruct (holds id g) eqn:E.
  - intros [= <-]. rewrite Nat.eqb_refl.
    assert (Hlt := filter_shorter (bookmark_has_id id) (BookmarkGroup.bookmarks g) E).
    assert (Hle := removeBookmark_list_le (BookmarkGroup.addr g) id gs). lia.
  - intros H. assert (Hlt := IH H).
    destruct (Nat.eqb (BookmarkGroup.addr g) (BookmarkGroup.addr g0)); [|lia].
    assert (Hle := filter_length_le (fun b => negb (bookmark_has_id id b))
                                    (BookmarkGroup.bookmarks g)). lia.
Qed.

Lemma removeBookmark_shrinks (id : string) (s : BookmarkManager.t) :
  existsb (bookmark_has_id id) (BookmarkManager.getAllBookmarks s) = true ->
  length (BookmarkManager.getAllBookmarks (after (BookmarkManager.removeBookmark id) s))
  < length (BookmarkManager.getAllBookmarks s).
Proof.
  intros H. rewrite getAllBookmarks_eq, existsb_app in H.
  rewrite !getAllBookmarks_eq, !length_app.
  destruct (existsb (bookmark_has_id id) (BookmarkManager.bookmarks s)) eqn:Eroot.
  - destruct (after_removeBookmark_root id s Eroot) as [Hg Hb].
    rewrite (getAllGroups_groups _ _ Hg), Hb.
    assert (Hlt := filter_shorter (bookmark_has_id id) (BookmarkManager.bookmarks s) Eroot).
    lia.
  - cbn [orb] in H. rewrite existsb_flat_map in H. fold (holds id) in H.
    rewrite (find_existsb (holds id)) in H.
    destruct (find (holds id) (BookmarkManager.getAllGroups s)) as [g0|] eqn:E;
      [|discriminate].
    destruct (after_removeBookmark_group id s Eroot E) as [Hg Hb].
    rewrite Hb, (getAllGroups_groups _ _ Hg).
    rewrite getAllGroups_call by apply removeBookmark_keeps_shape.
    assert (Hlt := removeBookmark_list_lt id (BookmarkManager.getAllGroups s) E). lia.
Qed.

End RemoveBookmark.

Section RemoveBookmarkTheorems.
Context {host : Host}.

Lemma removeBookmark_absent (id : string) (s : BookmarkManager.t) :
  existsb (bookmark_has_id id) (BookmarkManager.getAllBookmarks s) = false ->
  BookmarkManager.removeBookmark id s = (Ok false, s).
Proof.
  rewrite getAllBookmarks_eq, existsb_app, existsb_flat_map. fold (holds id).
  intros H. apply orb_false_iff in H as [H1 H2].
  rewrite removeBookmark_eq, H1.
  rewrite (find_existsb (holds id)) in H2.
  now destruct (find (holds id) (BookmarkManager.getAllGroups s)).
Qed.

Lemma existsb_counted (A : Type) (p : A -> bool) (xs : list A) :
  existsb p xs = negb (Nat.eqb (length (filter p xs)) 0).
Proof.
  induction xs as [|x xs IH]; cbn; [reflexivity|].
  destruct (p x); cbn; [reflexivity | exact IH].
Qed.

Lemma no_holder_after (a : nat) (id : string) (gs : list BookmarkGroup.t) :
  existsb (holds id) gs = false ->
  existsb (holds id)
          (map (BookmarkGroup.modify a (fun this => snd (BookmarkGroup.removeBookmark id this)))
               gs) = false.
Proof.
  induction gs as [|g gs IH]; cbn [map existsb]; [reflexivity|].
  intros H. apply orb_false_iff in H as [Hg Hgs].
  rewrite holds_modify_removeBookmark, Hg, (IH Hgs).
  now destruct (Nat.eqb (BookmarkGroup.addr g) a).
Qed.

Lemma one_holder_emptied (id : string) (gs : list BookmarkGroup.t) (g0 : BookmarkGroup.t) :
  length (filter (bookmark_has_id id) (flat_map BookmarkGroup.bookmarks gs)) <= 1 ->
  find (holds id) gs = Some g0 ->
  existsb (holds id)
          (map (BookmarkGroup.modify (BookmarkGroup.addr g0)
                  (fun this => snd (BookmarkGroup.removeBookmark id this))) gs) = false.
Proof.
  induction gs as [|g gs IH]; cbn [find map flat_map existsb]; [discriminate|].
  rewrite filter_app, length_app, holds_modify_removeBookmark.
  destruct (holds id g) eqn:E.
  - intros Hcount [= <-]. rewrite Nat.eqb_refl. cbn [orb].
    apply no_holder_after.
    unfold holds in E. rewrite existsb_counted in E.
    apply negb_true_iff, Nat.eqb_neq in E.
    change (holds id)
      with (fun g : BookmarkGroup.t =>
              existsb (bookmark_has_id id) (BookmarkGroup.bookmarks g)).
    rewrite <- existsb_flat_map, existsb_counted.
    apply negb_false_iff, Nat.eqb_eq. lia.
  - intros Hcount H.
    rewrite IH; [now destruct (Nat.eqb _ _) | lia | exact H].
Qed.

Lemma removeBookmark_leaves_none (id : string) (s : BookmarkManager.t) :
  length (filter (bookmark_has_id id) (BookmarkManager.getAllBookmarks s)) <= 1 ->
  existsb (bookmark_has_id id)
          (BookmarkManager.getAllBookmarks (after (BookmarkManager.removeBookmark id) s))
  = false.
Proof.
  intros Hcount.
  destruct (existsb (bookmark_has_id id) (BookmarkManager.getAllBookmarks s)) eqn:Eall;
    [|unfold after; now rewrite removeBookmark_absent].
  rewrite getAllBookmarks_eq in *. rewrite existsb_app in *.
  rewrite filter_app, length_app in Hcount.
  destruct (existsb (bookmark_has_id id) (BookmarkManager.bookmarks s)) eqn:Eroot.
  - destruct (after_removeBookmark_root id s Eroot) as [Hg Hb].
    rewrite (getAllGroups_groups _ _ Hg), Hb.
    rewrite (existsb_filter_negb (bookmark_has_id id)). cbn [orb].
    rewrite existsb_counted in Eroot. apply negb_true_iff, Nat.eqb_neq in Eroot.
    rewrite existsb_counted. apply negb_false_iff, Nat.eqb_eq. lia.
  - cbn [orb] in Eall. rewrite existsb_flat_map in Eall. fold (holds id) in Eall.
    rewrite (find_existsb (holds id)) in Eall.
    destruct (find (holds id) (BookmarkManager.getAllGroups s)) as [g0|] eqn:E;
      [|discriminate].
    destruct (after_removeBookmark_group id s Eroot E) as [Hg Hb].
    rewrite Hb, Eroot, (getAllGroups_groups _ _ Hg). cbn [orb].
    rewrite getAllGroups_call by apply removeBookmark_keeps_shape.
    rewrite existsb_flat_map. fold (holds id).
    apply one_holder_emptied; [lia | exact E].
Qed.

Lemma filter_filter (A : Type) (p : A -> bool) (xs : list A) :
  filter p (filter p xs) = filter p xs.
Proof.
  induction xs as [|x xs IH]; cbn; [reflexivity|].
  destruct (p x) eqn:E; cbn; [now rewrite E, IH | exact IH].
Qed.

Lemma removeBookmark_list_others (a : nat) (id : string) (gs : list BookmarkGroup.t) :
  filter (fun b => negb (bookmark_has_id id b))
         (flat_map BookmarkGroup.bookmarks
            (map (BookmarkGroup.modify a
                    (fun this => snd (BookmarkGroup.removeBookmark id this))) gs)) =
  filter (fun b => negb (bookmark_has_id id b)) (flat_map BookmarkGroup.bookmarks gs).
Proof.
  induction gs as [|g gs IH]; cbn [map flat_map]; [reflexivity|].
  rewrite !filter_app, IH, modify_removeBookmark_bookmarks.
  destruct (Nat.eqb (BookmarkGroup.addr g) a); [|reflexivity].
  now rewrite filter_filter.
Qed.

Lemma removeBookmark_keeps_the_others (id : string) (s : BookmarkManager.t) :
  filter (fun b => negb (bookmark_has_id id b))
         (BookmarkManager.getAllBookmarks (after (BookmarkManager.removeBookmark id) s)) =
  filter (fun b => negb (bookmark_has_id id b)) (BookmarkManager.getAllBookmarks s).
Proof.
  rewrite !getAllBookmarks_eq, !filter_app.
  destruct (existsb (bookmark_has_id id) (BookmarkManager.bookmarks s)) eqn:Eroot.
  - destruct (after_removeBookmark_root id s Eroot) as [Hg Hb].
    now rewrite (getAllGroups_groups _ _ Hg), Hb, filter_filter.
  - destruct (find (holds id) (BookmarkManager.getAllGroups s)) as [g0|] eqn:E.
    + destruct (after_removeBookmark_group id s Eroot E) as [Hg Hb].
      rewrite Hb, (getAllGroups_groups _ _ Hg).
      rewrite getAllGroups_call by apply removeBookmark_keeps_shape.
      now rewrite removeBookmark_list_others.
    + unfold after. now rewrite removeBookmark_eq, Eroot, E.
Qed.

(** X7 ([BookmarkManager.removeBookmark]).  [removeBookmark(id)] returns
    [true] exactly when [getAllBookmarks] lists a bookmark with that id, at
    the root or in a group at any depth; then there are fewer bookmarks
    afterwards; the bookmarks with another id are all still listed, in the
    same order; and when it returns [false] nothing at all has changed. *)
Theorem removeBookmark_reaches_every_group (id : string) (s : BookmarkManager.t) :
  returned (BookmarkManager.removeBookmark id) s =
    Ok (existsb (bookmark_has_id id) (BookmarkManager.getAllBookmarks s)) /\
  (existsb (bookmark_has_id id) (BookmarkManager.getAllBookmarks s) = true ->
   length (BookmarkManager.getAllBookmarks (after (BookmarkManager.removeBookmark id) s))
   < length (BookmarkManager.getAllBookmarks s)) /\
  filter (fun b => negb (bookmark_has_id id b))
         (BookmarkManager.getAllBookmarks (after (BookmarkManager.removeBookmark id) s)) =
  filter (fun b => negb (bookmark_has_id id b)) (BookmarkManager.getAllBookmarks s) /\
  (existsb (bookmark_has_id id) (BookmarkManager.getAllBookmarks s) = false ->
   after (BookmarkManager.removeBookmark id) s = s).
Proof.
  split; [apply removeBookmark_returned|]. split; [apply removeBookmark_shrinks|].
  split; [apply removeBookmark_keeps_the_others|].
  intros H. unfold after. now rewrite removeBookmark_absent.
Qed.

(** X8 ([BookmarkManager.removeBookmark], [findBookmarkById]).  When at most
    one of the bookmarks [getAllBookmarks] lists has the id, then after
    [removeBookmark(id)] the call [findBookmarkById(id)] finds nothing. *)
Theorem removeBookmark_then_findBookmarkById (id : string) (s : BookmarkManager.t) :
  length (filter (bookmark_has_id id) (BookmarkManager.getAllBookmarks s)) <= 1 ->
  BookmarkManager.findBookmarkById id (after (BookmarkManager.removeBookmark id) s) = None.
Proof.
  intros Hcount. assert (Hnone := removeBookmark_leaves_none id s Hcount).
  assert (H := findBookmarkById_found id (after (BookmarkManager.removeBookmark id) s)).
  destruct (BookmarkManager.findBookmarkById id _) as [b|]; [|reflexivity].
  destruct H as [Hid Hin].
  assert (Hex : existsb (bookmark_has_id id)
                        (BookmarkManager.getAllBookmarks
                           (after (BookmarkManager.removeBookmark id) s)) = true).
  { apply existsb_exists. exists b. split; [exact Hin|].
    unfold bookmark_has_id. now apply String.eqb_eq. }
  rewrite Hnone in Hex. discriminate.
Qed.

End RemoveBookmarkTheorems.

Lemma removeBookmark_then_findBookmarkById_witness :
  length (filter (bookmark_has_id "b1") (BookmarkManager.getAllBookmarks group_of_two)) <= 1 /\
  BookmarkManager.findBookmarkById "b1"
    (after (BookmarkManager.removeBookmark "b1") group_of_two) = None.
Proof.
  assert (H : length (filter (bookmark_has_id "b1")
                             (BookmarkManager.getAllBookmarks group_of_two)) <= 1)
    by (vm_compute; lia).
  split; [exact H|].
  exact (@removeBookmark_then_findBookmarkById plain_host "b1" group_of_two H).
Defined.

(** ** Adding a bookmark *)

Section AddBookmark.
Context {host : Host}.

Lemma addBookmark_after (amb : Ambient) (uri : Uri) (name description groupId : option string)
      (s : BookmarkManager.t) :
  let b := Bookmark.new amb uri name description in
  let s' := after (BookmarkManager.addBookmark amb uri name description groupId) s in
  returned (BookmarkManager.addBookmark amb uri name description groupId) s = Ok b /\
  match match truthy groupId with
        | Some gid => BookmarkManager.findGroupById gid s
        | None => None
        end with
  | Some group =>
      BookmarkManager.groups s' =
        BookmarkManager.groups
          (after (BookmarkManager.call group (BookmarkGroup.addBookmark b)) s) /\
      BookmarkManager.bookmarks s' = BookmarkManager.bookmarks s
  | None =>
      BookmarkManager.groups s' = BookmarkManager.groups s /\
      BookmarkManager.bookmarks s' = BookmarkManager.bookmarks s ++ [b]
  end.
Proof.
  intros b s'. subst b s'. unfold BookmarkManager.addBookmark.
  destruct (truthy groupId) as [gid|];
    [destruct (BookmarkManager.findGroupById gid s) eqn:E|].
  all: run_monad; try rewrite E; cbn; repeat split.
Qed.

Lemma modify_addBookmark_bookmarks (a : nat) (b : Bookmark.t) (g : BookmarkGroup.t) :
  BookmarkGroup.bookmarks (BookmarkGroup.modify a (BookmarkGroup.addBookmark b) g) =
  if Nat.eqb (BookmarkGroup.addr g) a && negb (holds (Bookmark.id b) g)
  then BookmarkGroup.bookmarks g ++ [b]
  else BookmarkGroup.bookmarks g.
Proof.
  rewrite modify_unfold. destruct g as [a' i n d bs gs p t].
  unfold BookmarkGroup.addBookmark, holds.
  cbn [BookmarkGroup.set_groups BookmarkGroup.addr BookmarkGroup.bookmarks
       BookmarkGroup.id BookmarkGroup.name BookmarkGroup.description
       BookmarkGroup.groups BookmarkGroup.parent BookmarkGroup.createdAt].
  destruct (Nat.eqb a' a); [|reflexivity].
  change (fun b0 : Bookmark.t => String.eqb (Bookmark.id b0) (Bookmark.id b))
    with (bookmark_has_id (Bookmark.id b)).
  now destruct (existsb (bookmark_has_id (Bookmark.id b)) bs).
Qed.

Lemma addBookmark_reaches_the_group (b : Bookmark.t) (g : BookmarkGroup.t)
      (gs : list BookmarkGroup.t) :
  In g gs ->
  existsb (holds (Bookmark.id b))
          (map (BookmarkGroup.modify (BookmarkGroup.addr g) (BookmarkGroup.addBookmark b)) gs)
  = true.
Proof.
  intros Hin. apply existsb_exists.
  exists (BookmarkGroup.modify (BookmarkGroup.addr g) (BookmarkGroup.addBookmark b) g).
  split; [now apply in_map|].
  rewrite modify_hit by reflexivity. apply holds_addBookmark.
Qed.

Lemma addBookmark_nothing_else (a : nat) (b x : Bookmark.t) (gs : list BookmarkGroup.t) :
  In x (flat_map BookmarkGroup.bookmarks
          (map (BookmarkGroup.modify a (BookmarkGroup.addBookmark b)) gs)) ->
  x = b \/ In x (flat_map BookmarkGroup.bookmarks gs).
Proof.
  induction gs as [|g gs IH]; cbn [map flat_map]; [tauto|].
  intros H. apply in_app_or in H as [H|H].
  - rewrite modify_addBookmark_bookmarks in H.
    destruct (_ && _).
    + apply in_app_or in H as [H|[<-|[]]]; [|now left].
      right. apply in_or_app. now left.
    + right. apply in_or_app. now left.
  - destruct (IH H) as [->|Hin]; [now left|]. right. apply in_or_app. now right.
Qed.

Lemma addBookmark_listed (amb : Ambient) (uri : Uri) (name description groupId : option string)
      (s : BookmarkManager.t) :
  let b := Bookmark.new amb uri name description in
  let s' := after (BookmarkManager.addBookmark amb uri name description groupId) s in
  existsb (bookmark_has_id (Bookmark.id b)) (BookmarkManager.getAllBookmarks s') = true /\
  (forall x, In x (BookmarkManager.getAllBookmarks s') ->
             x = b \/ In x (BookmarkManager.getAllBookmarks s)).
Proof.
  intros b s'.
  destruct (addBookmark_after amb uri name description groupId s) as [_ H].
  fold b s' in H. rewrite !getAllBookmarks_eq.
  destruct (match truthy groupId with
            | Some gid => BookmarkManager.findGroupById gid s
            | None => None
            end) as [group|] eqn:E.
  - destruct H as [Hg Hb].
    rewrite Hb, (getAllGroups_groups _ _ Hg).
    rewrite getAllGroups_call by apply addBookmark_keeps_shape.
    assert (Hin : In group (BookmarkManager.getAllGroups s)).
    { destruct (truthy groupId) as [gid|]; [|discriminate].
      assert (Hf := findGroupById_found gid s). rewrite E in Hf. apply Hf. }
    split.
    + rewrite existsb_app, existsb_flat_map. fold (holds (Bookmark.id b)).
      rewrite addBookmark_reaches_the_group by exact Hin. apply orb_true_r.
    + intros x Hx. apply in_app_or in Hx as [Hx|Hx].
      * right. apply in_or_app. now left.
      * apply addBookmark_nothing_else in Hx as [->|Hx]; [now left|].
        right. apply in_or_app. now right.
  - destruct H as [Hg Hb]. rewrite Hb, (getAllGroups_groups _ _ Hg). split.
    + rewrite !existsb_app. cbn [existsb]. unfold bookmark_has_id at 2.
      now rewrite String.eqb_refl, orb_true_r.
    + intros x Hx. apply in_app_or in Hx as [Hx|Hx].
      * apply in_app_or in Hx as [Hx|[<-|[]]]; [|now left].
        right. apply in_or_app. now left.
      * right. apply in_or_app. now right.
Qed.

Lemma not_listed (id : string) (x : Bookmark.t) (bs : list Bookmark.t) :
  existsb (bookmark_has_id id) bs = false -> In x bs -> Bookmark.id x <> id.
Proof.
  intros H Hin E.
  assert (Hex : existsb (bookmark_has_id id) bs = true).
  { apply existsb_exists. exists x. split; [exact Hin|].
    unfold bookmark_has_id. now apply String.eqb_eq. }
  rewrite H in Hex. discriminate.
Qed.

(** X9 ([BookmarkManager.addBookmark]).  [addBookmark] returns the bookmark
    the constructor built, and afterwards [findBookmarkById] of its id finds
    a bookmark with that id, whether the bookmark went to the root or
    into the group named. *)
Theorem addBookmark_then_findBookmarkById (amb : Ambient) (uri : Uri)
        (name description groupId : option string) (s : BookmarkManager.t) :
  let b := Bookmark.new amb uri name description in
  let s' := after (BookmarkManager.addBookmark amb uri name description groupId) s in
  returned (BookmarkManager.addBookmark amb uri name description groupId) s = Ok b /\
  exists b',
    BookmarkManager.findBookmarkById (Bookmark.id b) s' = Some b' /\
    Bookmark.id b' = Bookmark.id b.
Proof.
  intros b s'. split; [apply addBookmark_after|].
  destruct (addBookmark_listed amb uri name description groupId s) as [Hex _].
  fold b s' in Hex.
  assert (H := findBookmarkById_found (Bookmark.id b) s').
  destruct (BookmarkManager.findBookmarkById (Bookmark.id b) s') as [b'|].
  - exists b'. split; [reflexivity | apply H].
  - rewrite H in Hex. discriminate.
Qed.

(** X10 ([BookmarkManager.addBookmark], [getBookmarksForFile],
    [isFileBookmarked]).  When no bookmark of the forest has the id the
    constructor generates, then after [addBookmark] the new bookmark itself
    is what [findBookmarkById] finds, it is among the bookmarks of its file,
    and the file counts as bookmarked. *)
Theorem addBookmark_with_a_fresh_id (amb : Ambient) (uri : Uri)
        (name description groupId : option string) (s : BookmarkManager.t) :
  let b := Bookmark.new amb uri name description in
  let s' := after (BookmarkManager.addBookmark amb uri name description groupId) s in
  BookmarkManager.findBookmarkById (Bookmark.id b) s = None ->
  BookmarkManager.findBookmarkById (Bookmark.id b) s' = Some b /\
  In b (BookmarkManager.getBookmarksForFile uri s') /\
  BookmarkManager.isFileBookmarked uri s' = true.
Proof.
  intros b s' Hfresh.
  assert (Hnone := findBookmarkById_found (Bookmark.id b) s). rewrite Hfresh in Hnone.
  destruct (addBookmark_listed amb uri name description groupId s) as [Hex Hold].
  fold b s' in Hex, Hold.
  assert (H := findBookmarkById_found (Bookmark.id b) s').
  destruct (BookmarkManager.findBookmarkById (Bookmark.id b) s') as [b'|];
    [|rewrite H in Hex; discriminate].
  destruct H as [Hid Hin].
  assert (Hb : b' = b).
  { destruct (Hold b' Hin) as [E|Hin']; [exact E|].
    exfalso. eapply not_listed; [exact Hnone | exact Hin' | exact Hid]. }
  subst b'.
  assert (Hfile : In b (BookmarkManager.getBookmarksForFile uri s')).
  { unfold BookmarkManager.getBookmarksForFile. apply filter_In. split; [exact Hin|].
    apply String.eqb_refl. }
  split; [reflexivity|]. split; [exact Hfile|].
  unfold BookmarkManager.isFileBookmarked.
  destruct (BookmarkManager.getBookmarksForFile uri s'); [destruct Hfile | reflexivity].
Qed.

End AddBookmark.

Lemma addBookmark_with_a_fresh_id_witness :
  let b := @Bookmark.new plain_host same_tick "file:///c.txt" None None in
  let s' := after (BookmarkManager.addBookmark same_tick ("file:///c.txt" : @Uri plain_host)
                                               None None (Some "G")) bookmark_and_group in
  BookmarkManager.findBookmarkById (Bookmark.id b) bookmark_and_group = None /\
  BookmarkManager.findBookmarkById (Bookmark.id b) s' = Some b /\
  In b (BookmarkManager.getBookmarksForFile ("file:///c.txt" : @Uri plain_host) s') /\
  BookmarkManager.isFileBookmarked ("file:///c.txt" : @Uri plain_host) s' = true.
Proof.
  intros b s'.
  assert (H : BookmarkManager.findBookmarkById (Bookmark.id b) bookmark_and_group = None)
    by (vm_compute; reflexivity).
  split; [exact H|].
  exact (@addBookmark_with_a_fresh_id plain_host same_tick "file:///c.txt" None None
           (Some "G") bookmark_and_group H).
Defined.

(** ** Creating a group *)

Section CreateGroup.
Context {host : Host}.

Lemma createGroup_after (amb : Ambient) (name : string) (description parentId : option string)
      (s : BookmarkManager.t) :
  let group := BookmarkGroup.new (BookmarkManager.next_addr s) amb name description None in
  let s' := after (BookmarkManager.createGroup amb name description parentId) s in
  BookmarkManager.bookmarks s' = BookmarkManager.bookmarks s /\
  match match truthy parentId with
        | Some pid => BookmarkManager.findGroupById pid s
        | None => None
        end with
  | Some parentGroup =>
      returned (BookmarkManager.createGroup amb name description parentId) s =
        Ok (if holds_group (BookmarkGroup.id group) parentGroup then group
            else BookmarkGroup.set_parent (Some (BookmarkGroup.addr parentGroup)) group) /\
      BookmarkManager.groups s' =
        map (BookmarkGroup.modify (BookmarkGroup.addr parentGroup)
                                  (BookmarkGroup.addGroup group))
            (BookmarkManager.groups s)
  | None =>
      returned (BookmarkManager.createGroup amb name description parentId) s = Ok group /\
      BookmarkManager.groups s' = BookmarkManager.groups s ++ [group]
  end.
Proof.
  intros group s'. subst group s'. unfold BookmarkManager.createGroup.
  destruct (truthy parentId) as [pid|].
  - run_monad.
    match goal with
    | |- context [BookmarkManager.findGroupById pid ?s1] =>
        change (BookmarkManager.findGroupById pid s1)
          with (BookmarkManager.findGroupById pid s)
    end.
    destruct (BookmarkManager.findGroupById pid s); cbn; repeat split.
  - run_monad. cbn. repeat split.
Qed.

Lemma modify_addGroup_id (a : nat) (c g : BookmarkGroup.t) :
  BookmarkGroup.id (BookmarkGroup.modify a (BookmarkGroup.addGroup c) g) = BookmarkGroup.id g.
Proof.
  rewrite modify_unfold. destruct g as [a' i n d bs gs p t].
  unfold BookmarkGroup.addGroup.
  cbn [BookmarkGroup.set_groups BookmarkGroup.addr BookmarkGroup.bookmarks
       BookmarkGroup.id BookmarkGroup.name BookmarkGroup.description
       BookmarkGroup.groups BookmarkGroup.parent BookmarkGroup.createdAt].
  destruct (Nat.eqb a' a); [|reflexivity].
  now destruct (negb _).
Qed.

Lemma existsb_has_id_addGroup (a : nat) (id : string) (c : BookmarkGroup.t)
      (cs : list BookmarkGroup.t) :
  existsb (has_id id) (map (BookmarkGroup.modify a (BookmarkGroup.addGroup c)) cs)
  = existsb (has_id id) cs.
Proof.
  induction cs as [|x cs IH]; cbn [map existsb]; [reflexivity|].
  unfold has_id at 1. rewrite modify_addGroup_id. fold (has_id id x). now rewrite IH.
Qed.

Lemma modify_addGroup_groups (a : nat) (c g : BookmarkGroup.t) :
  BookmarkGroup.groups (BookmarkGroup.modify a (BookmarkGroup.addGroup c) g) =
  map (BookmarkGroup.modify a (BookmarkGroup.addGroup c)) (BookmarkGroup.groups g)
    ++ (if Nat.eqb (BookmarkGroup.addr g) a && negb (holds_group (BookmarkGroup.id c) g)
        then [BookmarkGroup.set_parent (Some a) c] else []).
Proof.
  rewrite modify_unfold. destruct g as [a' i n d bs gs p t].
  cbn [BookmarkGroup.groups].
  assert (Hcs := existsb_has_id_addGroup a (BookmarkGroup.id c) c gs).
  set (cs := map (BookmarkGroup.modify a (BookmarkGroup.addGroup c)) gs) in *.
  unfold BookmarkGroup.addGroup, holds_group.
  cbn [BookmarkGroup.set_groups BookmarkGroup.addr BookmarkGroup.bookmarks
       BookmarkGroup.id BookmarkGroup.name BookmarkGroup.description
       BookmarkGroup.groups BookmarkGroup.parent BookmarkGroup.createdAt].
  change (fun g0 : BookmarkGroup.t => String.eqb (BookmarkGroup.id g0) (BookmarkGroup.id c))
    with (has_id (BookmarkGroup.id c)).
  rewrite Hcs.
  destruct (Nat.eqb a' a) eqn:E; cbn [andb]; [|now rewrite app_nil_r].
  apply Nat.eqb_eq in E. subst a'.
  destruct (existsb (has_id (BookmarkGroup.id c)) gs); cbn [negb];
    [now rewrite app_nil_r | reflexivity].
Qed.

Lemma has_id_set_parent (p : option nat) (c : BookmarkGroup.t) :
  has_id (BookmarkGroup.id c) (BookmarkGroup.set_parent p c) = true.
Proof. unfold has_id. destruct c; cbn. apply String.eqb_refl. Qed.

(** Below the group at the address of [p], [addGroup(c)] leaves a child
    with the id of [c]. *)
Lemma addGroup_reaches_the_parent (c p g : BookmarkGroup.t) :
  In p (g :: BookmarkManager.getAllGroupsRecursive g) ->
  existsb (has_id (BookmarkGroup.id c))
          (BookmarkManager.getAllGroupsRecursive
             (BookmarkGroup.modify (BookmarkGroup.addr p) (BookmarkGroup.addGroup c) g))
  = true.
Proof.
  induction g as [g IH] using group_induction. intros Hin.
  rewrite getAllGroupsRecursive_eq, modify_addGroup_groups, !existsb_app.
  rewrite existsb_has_id_addGroup.
  apply in_tree_cases in Hin as [->|(c0 & Hc0 & Hp)].
  - rewrite Nat.eqb_refl. cbn [andb]. fold (holds_group (BookmarkGroup.id c) g).
    destruct (holds_group (BookmarkGroup.id c) g); [reflexivity|].
    cbn [negb existsb]. now rewrite has_id_set_parent, orb_true_r.
  - apply orb_true_iff. right.
    rewrite flat_map_app, existsb_app, existsb_flat_map.
    apply orb_true_iff. left.
    apply existsb_exists.
    exists (BookmarkGroup.modify (BookmarkGroup.addr p) (BookmarkGroup.addGroup c) c0).
    split; [now apply in_map | now apply IH].
Qed.

(** Nothing else appears: a group listed below the modified tree is the
    new child, or has the id of a group that was listed before. *)
Lemma addGroup_nothing_else (a : nat) (c g x : BookmarkGroup.t) :
  BookmarkGroup.groups c = [] ->
  In x (BookmarkManager.getAllGroupsRecursive
          (BookmarkGroup.modify a (BookmarkGroup.addGroup c) g)) ->
  x = BookmarkGroup.set_parent (Some a) c \/
  exists y, In y (BookmarkManager.getAllGroupsRecursive g) /\
            BookmarkGroup.id x = BookmarkGroup.id y.
Proof.
  intros Hleaf. revert x. induction g as [g IH] using group_induction. intros x.
  assert (Hnew : forall z,
             In z (if Nat.eqb (BookmarkGroup.addr g) a
                      && negb (holds_group (BookmarkGroup.id c) g)
                   then [BookmarkGroup.set_parent (Some a) c] else []) ->
             z = BookmarkGroup.set_parent (Some a) c).
  { intros z Hz. destruct (_ && _); [now destruct Hz as [<-|[]] | destruct Hz]. }
  rewrite getAllGroupsRecursive_eq, modify_addGroup_groups.
  rewrite (getAllGroupsRecursive_eq g).
  intros H. apply in_app_or in H as [H|H].
  - apply in_app_or in H as [H|H]; [|left; now apply Hnew].
    apply in_map_iff in H as (y & <- & Hy). right. exists y.
    split; [apply in_or_app; now left | apply modify_addGroup_id].
  - apply in_flat_map in H as (z & Hz & Hx).
    apply in_app_or in Hz as [Hz|Hz].
    + apply in_map_iff in Hz as (y & <- & Hy).
      destruct (IH y Hy x Hx) as [->|(y' & Hy' & Hid)]; [now left|].
      right. exists y'. split; [|exact Hid].
      apply in_or_app. right. apply in_flat_map. now exists y.
    + rewrite (Hnew z Hz), getAllGroupsRecursive_eq in Hx.
      destruct c; cbn in Hleaf, Hx. subst. destruct Hx.
Qed.

End CreateGroup.

Section CreateGroupTheorems.
Context {host : Host}.

Lemma not_listed_group (id : string) (x : BookmarkGroup.t) (gs : list BookmarkGroup.t) :
  existsb (has_id id) gs = false -> In x gs -> BookmarkGroup.id x <> id.
Proof.
  intros H Hin E.
  assert (Hex : existsb (has_id id) gs = true).
  { apply existsb_exists. exists x. split; [exact Hin|].
    unfold has_id. now apply String.eqb_eq. }
  rewrite H in Hex. discriminate.
Qed.

Lemma listed_under_a_root (p : BookmarkGroup.t) (gs : list BookmarkGroup.t) :
  In p (gs ++ flat_map BookmarkManager.getAllGroupsRecursive gs) ->
  exists r, In r gs /\ In p (r :: BookmarkManager.getAllGroupsRecursive r).
Proof.
  intros H. apply in_app_or in H as [H|H].
  - exists p. split; [exact H | now left].
  - apply in_flat_map in H as (r & Hr & Hp). exists r. split; [exact Hr | now right].
Qed.

Lemma createGroup_listed (amb : Ambient) (name : string) (description parentId : option string)
      (s : BookmarkManager.t) :
  let c := BookmarkGroup.new (BookmarkManager.next_addr s) amb name description None in
  let s' := after (BookmarkManager.createGroup amb name description parentId) s in
  existsb (has_id (BookmarkGroup.id c)) (BookmarkManager.getAllGroups s') = true.
Proof.
  intros c s'.
  destruct (createGroup_after amb name description parentId s) as [_ H].
  fold c s' in H. rewrite getAllGroups_eq.
  destruct (match truthy parentId with
            | Some pid => BookmarkManager.findGroupById pid s
            | None => None
            end) as [p|] eqn:E.
  - destruct H as [_ ->].
    assert (Hin : In p (BookmarkManager.getAllGroups s)).
    { destruct (truthy parentId) as [pid|]; [|discriminate].
      assert (Hf := findGroupById_found pid s). rewrite E in Hf. apply Hf. }
    rewrite getAllGroups_eq in Hin.
    apply listed_under_a_root in Hin as (r & Hr & Hp).
    rewrite existsb_app, existsb_flat_map. apply orb_true_iff. right.
    apply existsb_exists.
    exists (BookmarkGroup.modify (BookmarkGroup.addr p) (BookmarkGroup.addGroup c) r).
    split; [now apply in_map | now apply addGroup_reaches_the_parent].
  - destruct H as [_ ->]. rewrite !existsb_app. cbn [existsb].
    unfold has_id at 2. now rewrite String.eqb_refl, orb_true_r.
Qed.

Lemma createGroup_nothing_else (amb : Ambient) (name : string)
      (description parentId : option string) (s : BookmarkManager.t) (x : BookmarkGroup.t) :
  let c := BookmarkGroup.new (BookmarkManager.next_addr s) amb name description None in
  let s' := after (BookmarkManager.createGroup amb name description parentId) s in
  existsb (has_id (BookmarkGroup.id c)) (BookmarkManager.getAllGroups s) = false ->
  In x (BookmarkManager.getAllGroups s') ->
  BookmarkGroup.id x = BookmarkGroup.id c ->
  returned (BookmarkManager.createGroup amb name description parentId) s = Ok x /\
  BookmarkGroup.set_parent None x = c /\
  BookmarkGroup.parent x =
    match match truthy parentId with
          | Some pid => BookmarkManager.findGroupById pid s
          | None => None
          end with
    | Some p => Some (BookmarkGroup.addr p)
    | None => None
    end.
Proof.
  intros c s' Hnone Hx Hid.
  destruct (createGroup_after amb name description parentId s) as [_ H].
  fold c s' in H. rewrite getAllGroups_eq in Hx.
  assert (Hold : forall y, In y (BookmarkManager.getAllGroups s) ->
                           BookmarkGroup.id x <> BookmarkGroup.id y).
  { intros y Hy E. rewrite Hid in E. symmetry in E. revert E.
    eapply not_listed_group; [exact Hnone | exact Hy]. }
  destruct (match truthy parentId with
            | Some pid => BookmarkManager.findGroupById pid s
            | None => None
            end) as [p|] eqn:E.
  - destruct H as [Hret Hg]. rewrite Hg in Hx.
    assert (Hp : holds_group (BookmarkGroup.id c) p = false).
    { assert (Hin : In p (BookmarkManager.getAllGroups s)).
      { destruct (truthy parentId) as [pid|]; [|discriminate].
        assert (Hf := findGroupById_found pid s). rewrite E in Hf. apply Hf. }
      rewrite existsb_getAllGroups in Hnone. apply orb_false_iff in Hnone as [_ Hnone].
      destruct (holds_group (BookmarkGroup.id c) p) eqn:Ep; [|reflexivity].
      assert (Hex : existsb (holds_group (BookmarkGroup.id c))
                            (BookmarkManager.getAllGroups s) = true)
        by (apply existsb_exists; now exists p).
      rewrite Hnone in Hex. discriminate. }
    rewrite Hp in Hret.
    assert (Ex : x = BookmarkGroup.set_parent (Some (BookmarkGroup.addr p)) c).
    { apply in_app_or in Hx as [Hx|Hx].
      - apply in_map_iff in Hx as (y & <- & Hy). exfalso.
        apply (Hold y); [|apply modify_addGroup_id].
        rewrite getAllGroups_eq. apply in_or_app. now left.
      - apply in_flat_map in Hx as (z & Hz & Hx).
        apply in_map_iff in Hz as (y & <- & Hy).
        apply addGroup_nothing_else in Hx as [->|(y' & Hy' & Hid')];
          [reflexivity | | reflexivity].
        exfalso. apply (Hold y'); [|exact Hid'].
        rewrite getAllGroups_eq. apply in_or_app. right.
        apply in_flat_map. now exists y. }
    subst x. split; [exact Hret|]. split; reflexivity.
  - destruct H as [Hret Hg]. rewrite Hg in Hx.
    assert (Ex : x = c).
    { rewrite flat_map_app in Hx. cbn [flat_map] in Hx. rewrite app_nil_r in Hx.
      apply in_app_or in Hx as [Hx|Hx].
      - apply in_app_or in Hx as [Hx|[<-|[]]]; [|reflexivity]. exfalso.
        apply (Hold x); [|reflexivity].
        rewrite getAllGroups_eq. apply in_or_app. now left.
      - exfalso. apply (Hold x); [|reflexivity].
        rewrite getAllGroups_eq. apply in_or_app. now right. }
    subst x. split; [exact Hret|]. split; reflexivity.
Qed.

(** X11 ([BookmarkManager.createGroup]).  [createGroup] returns a group
    with the name given and nothing in it, and afterwards [findGroupById] of
    its id finds a group with that id, whether the group went to the root
    or under the parent named, at any depth. *)
Theorem createGroup_then_findGroupById (amb : Ambient) (name : string)
        (description parentId : option string) (s : BookmarkManager.t) :
  let s' := after (BookmarkManager.createGroup amb name description parentId) s in
  exists g g',
    returned (BookmarkManager.createGroup amb name description parentId) s = Ok g /\
    BookmarkGroup.name g = name /\
    BookmarkGroup.isEmpty g = true /\
    BookmarkManager.findGroupById (BookmarkGroup.id g) s' = Some g' /\
    BookmarkGroup.id g' = BookmarkGroup.id g.
Proof.
  intros s'.
  assert (Hex := createGroup_listed amb name description parentId s).
  destruct (createGroup_after amb name description parentId s) as [_ H].
  cbv zeta in Hex, H. fold s' in Hex, H.
  set (c := BookmarkGroup.new (BookmarkManager.next_addr s) amb name description None) in *.
  assert (Hret : exists g,
             returned (BookmarkManager.createGroup amb name description parentId) s = Ok g /\
             BookmarkGroup.name g = name /\ BookmarkGroup.isEmpty g = true /\
             BookmarkGroup.id g = BookmarkGroup.id c).
  { destruct (match truthy parentId with
              | Some pid => BookmarkManager.findGroupById pid s
              | None => None
              end) as [p|].
    - destruct H as [-> _]. eexists. split; [reflexivity|].
      now destruct (holds_group (BookmarkGroup.id c) p).
    - destruct H as [-> _]. eexists. split; [reflexivity|]. now repeat split. }
  destruct Hret as (g & Hret & Hname & Hempty & Hid).
  assert (Hf := findGroupById_found (BookmarkGroup.id c) s').
  destruct (BookmarkManager.findGroupById (BookmarkGroup.id c) s') as [g'|] eqn:E;
    [|rewrite Hf in Hex; discriminate].
  exists g, g'. rewrite Hid, E. repeat split; try assumption. apply Hf.
Qed.

(** X12 ([BookmarkManager.createGroup], [BookmarkGroup.addGroup]).  When no
    group of the forest has the id the constructor generates, then after
    [createGroup] the group returned is the one [findGroupById] finds; its
    [parent] is the parent group found, or none when the group went to the
    root; and but for its [parent] it is as the constructor built it. *)
Theorem createGroup_with_a_fresh_id (amb : Ambient) (name : string)
        (description parentId : option string) (s : BookmarkManager.t) :
  let c := BookmarkGroup.new (BookmarkManager.next_addr s) amb name description None in
  let s' := after (BookmarkManager.createGroup amb name description parentId) s in
  BookmarkManager.findGroupById (BookmarkGroup.id c) s = None ->
  exists g,
    returned (BookmarkManager.createGroup amb name description parentId) s = Ok g /\
    BookmarkManager.findGroupById (BookmarkGroup.id c) s' = Some g /\
    BookmarkGroup.set_parent None g = c /\
    BookmarkGroup.parent g =
      match match truthy parentId with
            | Some pid => BookmarkManager.findGroupById pid s
            | None => None
            end with
      | Some p => Some (BookmarkGroup.addr p)
      | None => None
      end.
Proof.
  intros c s' Hfresh.
  assert (Hnone := findGroupById_found (BookmarkGroup.id c) s). rewrite Hfresh in Hnone.
  assert (Hex := createGroup_listed amb name description parentId s).
  cbv zeta in Hex. fold c s' in Hex.
  assert (Hf := findGroupById_found (BookmarkGroup.id c) s').
  destruct (BookmarkManager.findGroupById (BookmarkGroup.id c) s') as [g|] eqn:E;
    [|rewrite Hf in Hex; discriminate].
  destruct Hf as [Hid Hin].
  destruct (@createGroup_nothing_else amb name description parentId s g Hnone Hin Hid)
    as (Hret & Hc & Hp).
  exists g. repeat split; assumption.
Qed.

End CreateGroupTheorems.

Lemma createGroup_with_a_fresh_id_witness :
  let c := @BookmarkGroup.new plain_host 3 same_tick "new" None None in
  let s' := after (BookmarkManager.createGroup same_tick "new" None (Some "C")) three_levels in
  BookmarkManager.findGroupById (BookmarkGroup.id c) three_levels = None /\
  exists g,
    returned (BookmarkManager.createGroup same_tick "new" None (Some "C")) three_levels = Ok g /\
    BookmarkManager.findGroupById (BookmarkGroup.id c) s' = Some g /\
    BookmarkGroup.set_parent None g = c /\
    BookmarkGroup.parent g = Some 1.
Proof.
  intros c s'.
  assert (H : BookmarkManager.findGroupById (BookmarkGroup.id c) three_levels = None)
    by (vm_compute; reflexivity).
  split; [exact H|].
  exact (@createGroup_with_a_fresh_id plain_host same_tick "new" None (Some "C")
           three_levels H).
Defined.

(** ** Updating a group *)

Section UpdateGroup.
Context {host : Host}.

Lemma updateGroup_eq (id : string) (name description : option string)
      (s : BookmarkManager.t) :
  BookmarkManager.updateGroup id name description s =
  match BookmarkManager.findGroupById id s with
  | Some group =>
      (Ok true,
       after (bind BookmarkManager.fire (fun _ => BookmarkManager.saveState))
             (after (match description with
                     | Some d => BookmarkManager.call group (BookmarkGroup.set_description d)
                     | None => ret tt
                     end)
                    (after (match name with
                            | Some n => BookmarkManager.call group (BookmarkGroup.set_name n)
                            | None => ret tt
                            end) s)))
  | None => (Ok false, s)
  end.
Proof.
  unfold BookmarkManager.updateGroup. run_monad.
  destruct (BookmarkManager.findGroupById id s); [|reflexivity].
  destruct name, description; reflexivity.
Qed.

Lemma set_name_keeps_shape (n : string) : keeps_shape (BookmarkGroup.set_name n).
Proof. intros g. destruct g; repeat split. Qed.

Lemma set_description_keeps_shape (d : string) :
  keeps_shape (BookmarkGroup.set_description d).
Proof. intros g. destruct g; repeat split. Qed.

Lemma ids_after_modify (a : nat) (f : BookmarkGroup.t -> BookmarkGroup.t)
      (gs : list BookmarkGroup.t) :
  keeps_shape f ->
  map BookmarkGroup.id (map (BookmarkGroup.modify a f) gs) = map BookmarkGroup.id gs.
Proof.
  intros Hf. rewrite map_map. apply map_ext. intros g. now apply modify_id.
Qed.

(** A setter called through a reference to [g] changes the one field. *)
Lemma modify_set_name (n : string) (g : BookmarkGroup.t) :
  let g' := BookmarkGroup.modify (BookmarkGroup.addr g) (BookmarkGroup.set_name n) g in
  BookmarkGroup.name g' = n /\
  BookmarkGroup.description g' = BookmarkGroup.description g /\
  BookmarkGroup.addr g' = BookmarkGroup.addr g /\
  BookmarkGroup.id g' = BookmarkGroup.id g /\
  BookmarkGroup.bookmarks g' = BookmarkGroup.bookmarks g /\
  BookmarkGroup.createdAt g' = BookmarkGroup.createdAt g /\
  BookmarkGroup.parent g' = BookmarkGroup.parent g /\
  map BookmarkGroup.id (BookmarkGroup.groups g') = map BookmarkGroup.id (BookmarkGroup.groups g).
Proof.
  intros g'. subst g'. rewrite modify_hit by reflexivity.
  destruct g as [a i n0 d bs gs p t]; cbn.
  repeat split. apply ids_after_modify, set_name_keeps_shape.
Qed.

Lemma modify_set_description (d : string) (g : BookmarkGroup.t) :
  let g' := BookmarkGroup.modify (BookmarkGroup.addr g) (BookmarkGroup.set_description d) g in
  BookmarkGroup.name g' = BookmarkGroup.name g /\
  BookmarkGroup.description g' = d /\
  BookmarkGroup.addr g' = BookmarkGroup.addr g /\
  BookmarkGroup.id g' = BookmarkGroup.id g /\
  BookmarkGroup.bookmarks g' = BookmarkGroup.bookmarks g /\
  BookmarkGroup.createdAt g' = BookmarkGroup.createdAt g /\
  BookmarkGroup.parent g' = BookmarkGroup.parent g /\
  map BookmarkGroup.id (BookmarkGroup.groups g') = map BookmarkGroup.id (BookmarkGroup.groups g).
Proof.
  intros g'. subst g'. rewrite modify_hit by reflexivity.
  destruct g as [a i n d0 bs gs p t]; cbn.
  repeat split. apply ids_after_modify, set_description_keeps_shape.
Qed.

Lemma after_name_then_description (id : string) (name description : option string)
      (s : BookmarkManager.t) (g : BookmarkGroup.t) :
  BookmarkManager.findGroupById id s = Some g ->
  let s1 := after (match description with
                   | Some d => BookmarkManager.call g (BookmarkGroup.set_description d)
                   | None => ret tt
                   end)
                  (after (match name with
                          | Some n => BookmarkManager.call g (BookmarkGroup.set_name n)
                          | None => ret tt
                          end) s) in
  BookmarkManager.bookmarks s1 = BookmarkManager.bookmarks s /\
  exists g',
    BookmarkManager.findGroupById id s1 = Some g' /\
    BookmarkGroup.name g' =
      match name with Some n => n | None => BookmarkGroup.name g end /\
    BookmarkGroup.description g' =
      match description with Some d => d | None => BookmarkGroup.description g end /\
    BookmarkGroup.id g' = BookmarkGroup.id g /\
    BookmarkGroup.bookmarks g' = BookmarkGroup.bookmarks g /\
    BookmarkGroup.createdAt g' = BookmarkGroup.createdAt g /\
    BookmarkGroup.parent g' = BookmarkGroup.parent g /\
    map BookmarkGroup.id (BookmarkGroup.groups g') = map BookmarkGroup.id (BookmarkGroup.groups g).
Proof.
  intros Hg s1. subst s1.
  destruct name as [n|], description as [d|].
  - split; [reflexivity|].
    rewrite !findGroupById_call, Hg
      by (apply set_name_keeps_shape || apply set_description_keeps_shape).
    cbn [option_map].
    destruct (modify_set_name n g) as (H1 & H2 & H3 & H4 & H5 & H6 & H7 & H8).
    set (g1 := BookmarkGroup.modify (BookmarkGroup.addr g) (BookmarkGroup.set_name n) g) in *.
    rewrite <- H3.
    destruct (modify_set_description d g1) as (K1 & K2 & K3 & K4 & K5 & K6 & K7 & K8).
    eexists. split; [reflexivity|].
    repeat split; congruence.
  - split; [reflexivity|].
    change (after (ret tt) (after (BookmarkManager.call g (BookmarkGroup.set_name n)) s))
      with (after (BookmarkManager.call g (BookmarkGroup.set_name n)) s).
    rewrite findGroupById_call, Hg by apply set_name_keeps_shape.
    cbn [option_map].
    destruct (modify_set_name n g) as (H1 & H2 & H3 & H4 & H5 & H6 & H7 & H8).
    eexists. split; [reflexivity|]. repeat split; assumption.
  - split; [reflexivity|].
    rewrite findGroupById_call by apply set_description_keeps_shape.
    change (after (ret tt) s) with s. rewrite Hg. cbn [option_map].
    destruct (modify_set_description d g) as (H1 & H2 & H3 & H4 & H5 & H6 & H7 & H8).
    eexists. split; [reflexivity|]. repeat split; assumption.
  - split; [reflexivity|]. exists g. split; [exact Hg|]. repeat split.
Qed.

(** X13 ([BookmarkManager.updateGroup]).  [updateGroup(id, name,
    description)] returns [false] and changes nothing when [findGroupById]
    finds no group.  Otherwise it returns [true], and the group then found
    under the id has the name and the description given, the empty string
    included, or the old one where the argument is left undefined; its id,
    bookmarks, children's ids, parent and creation date are as before, and
    so are the root bookmarks. *)
Theorem updateGroup_sets_what_is_given (id : string) (name description : option string)
        (s : BookmarkManager.t) :
  let s' := after (BookmarkManager.updateGroup id name description) s in
  match BookmarkManager.findGroupById id s with
  | Some g =>
      returned (BookmarkManager.updateGroup id name description) s = Ok true /\
      BookmarkManager.bookmarks s' = BookmarkManager.bookmarks s /\
      exists g',
        BookmarkManager.findGroupById id s' = Some g' /\
        BookmarkGroup.name g' =
          match name with Some n => n | None => BookmarkGroup.name g end /\
        BookmarkGroup.description g' =
          match description with Some d => d | None => BookmarkGroup.description g end /\
        BookmarkGroup.id g' = BookmarkGroup.id g /\
        BookmarkGroup.bookmarks g' = BookmarkGroup.bookmarks g /\
        BookmarkGroup.createdAt g' = BookmarkGroup.createdAt g /\
        BookmarkGroup.parent g' = BookmarkGroup.parent g /\
        map BookmarkGroup.id (BookmarkGroup.groups g')
          = map BookmarkGroup.id (BookmarkGroup.groups g)
  | None => BookmarkManager.updateGroup id name description s = (Ok false, s)
  end.
Proof.
  intros s'. subst s'. unfold returned, after at 1 2. rewrite updateGroup_eq.
  destruct (BookmarkManager.findGroupById id s) as [g|] eqn:E; [|reflexivity].
  cbn [fst snd].
  destruct (after_name_then_description id name description s E) as (Hb & g' & Hg' & H).
  match goal with
  | |- context [after (bind BookmarkManager.fire _) ?s1] =>
      destruct (after_fire_saveState s1) as [Kg Kb];
      rewrite (findGroupById_groups id _ _ Kg), Kb
  end.
  split; [reflexivity|]. split; [exact Hb|]. exists g'. split; [exact Hg' | exact H].
Qed.

End UpdateGroup.

(** ** Persisting and restoring, exporting and importing *)

Section Persistence.
Context {host : Host}.

Lemma forest_round_trip (gs : list BookmarkGroup.t) :
  (forall g, In g gs -> well_formed g) ->
  forall n, exists gs' n',
    map_m BookmarkGroup.fromJSON (map BookmarkGroup.toJSON gs) n = (Ok gs', n') /\
    map content gs' = map content gs /\
    rooted gs'.
Proof.
  induction gs as [|g gs IH]; intros Hwf n.
  - exists [], n. split; [reflexivity|]. split; [reflexivity|]. intros ? [].
  - destruct (@group_round_trip _ g (Hwf g (or_introl eq_refl)) n)
      as (g' & n1 & Hg & _ & Hc & Hl & Hp).
    destruct (IH (fun x Hx => Hwf x (or_intror Hx)) n1) as (gs' & n' & Hgs & Hcs & Hall).
    exists (g' :: gs'), n'. split; [|split].
    + cbn [map map_m]. unfold bind at 1. rewrite Hg.
      unfold bind at 1. rewrite Hgs. reflexivity.
    + cbn [map]. now rewrite Hc, Hcs.
    + intros x [<-|Hx]; [split; assumption | now apply Hall].
Qed.

Lemma restore_what_was_saved (s : BookmarkManager.t) (next : nat) :
  well_formed_forest s ->
  exists gs' n',
    BookmarkManager.new (Some (document s)) next =
      (Ok tt, BookmarkManager.mk gs' (BookmarkManager.bookmarks s)
                                 (Some (document s)) n' []) /\
    map content gs' = map content (BookmarkManager.groups s) /\
    rooted gs'.
Proof.
  intros [Hb Hg].
  destruct (forest_round_trip _ Hg next) as (gs' & n' & Hgs & Hc & Hall).
  exists gs', n'. split; [|split; assumption].
  unfold BookmarkManager.new, BookmarkManager.loadState.
  run_monad. cbn [document doc_bookmarks doc_groups].
  rewrite bookmarks_round_trip by exact Hb. cbn [BookmarkManager.next_addr].
  rewrite Hgs. reflexivity.
Qed.



(** [importFromJSON] on a text that parses, from the outcome of its two
    loops. *)
Lemma importFromJSON_steps (jsonData : string) (merge : bool) (s s2 s3 : BookmarkManager.t)
      (data : Document) :
  JSON_parse jsonData = Ok (Some data) ->
  match doc_bookmarks data with
  | Some bds =>
      for_each bds
        (fun bookmarkData =>
           try_catch
             (bind (lift (Bookmark.fromJSON bookmarkData)) (fun bookmark =>
              bind get (fun s0 =>
              BookmarkManager.set_bookmarks (BookmarkManager.bookmarks s0 ++ [bookmark]))))
             (fun _ => BookmarkManager.emit [ConsoleError "Failed to import bookmark:"]))
  | None => ret tt
  end (BookmarkManager.mk (if merge then BookmarkManager.groups s else [])
                          (if merge then BookmarkManager.bookmarks s else [])
                          (BookmarkManager.globalState s) (BookmarkManager.next_addr s)
                          (BookmarkManager.log s)) = (Ok tt, s2) ->
  match doc_groups data with
  | Some gds =>
      for_each gds
        (fun groupData =>
           try_catch
             (bind (BookmarkManager.allocating (BookmarkGroup.fromJSON groupData))
                   (fun group =>
              bind get (fun s0 =>
              BookmarkManager.set_groups (BookmarkManager.groups s0 ++ [group]))))
             (fun _ => BookmarkManager.emit [ConsoleError "Failed to import group:"]))
  | None => ret tt
  end s2 = (Ok tt, s3) ->
  BookmarkManager.importFromJSON jsonData merge s =
  (Ok true, after (bind BookmarkManager.fire (fun _ => BookmarkManager.saveState)) s3).
Proof.
  intros Hparse H2 H3.
  assert (H1 : (if negb merge
                then bind (BookmarkManager.set_bookmarks [])
                          (fun _ => BookmarkManager.set_groups [])
                else ret tt) s =
               (Ok tt,
                BookmarkManager.mk (if merge then BookmarkManager.groups s else [])
                                   (if merge then BookmarkManager.bookmarks s else [])
                                   (BookmarkManager.globalState s) (BookmarkManager.next_addr s)
                                   (BookmarkManager.log s))).
  { destruct merge; cbn; [now destruct s | reflexivity]. }
  unfold BookmarkManager.importFromJSON.
  unfold try_catch at 1.
  erewrite bind_ok; [|unfold lift; rewrite Hparse; reflexivity].
  erewrite bind_ok; [|exact H1].
  erewrite bind_ok; [|reflexivity].
  erewrite bind_ok; [|exact H2].
  erewrite bind_ok; [|exact H3].
  run_monad. reflexivity.
Qed.

End Persistence.

Section PersistenceTheorems.
Context {host : Host}.

(** X14 ([BookmarkManager.saveState], [loadState], the constructor).  Under
    a host that reads back what it printed, a manager constructed on what
    [saveState] stored for a forest has the same root bookmarks and root
    groups of the same content, rebuilt as new objects whose children point
    back to their parents; and [loadState] reports no failure. *)
Theorem saveState_then_restore (s : BookmarkManager.t) (next : nat) :
  well_formed_forest s ->
  let stored := BookmarkManager.globalState (after BookmarkManager.saveState s) in
  let s' := snd (BookmarkManager.new stored next) in
  fst (BookmarkManager.new stored next) = Ok tt /\
  BookmarkManager.bookmarks s' = BookmarkManager.bookmarks s /\
  map content (BookmarkManager.groups s') = map content (BookmarkManager.groups s) /\
  rooted (BookmarkManager.groups s') /\
  BookmarkManager.log s' = [].
Proof.
  intros Hwf stored s'.
  destruct (restore_what_was_saved next Hwf) as (gs' & n' & Hnew & Hc & Hall).
  subst s' stored.
  change (BookmarkManager.globalState (after BookmarkManager.saveState s))
    with (Some (document s)).
  rewrite Hnew. cbn [fst snd BookmarkManager.bookmarks BookmarkManager.groups
                     BookmarkManager.log].
  split; [reflexivity|]. split; [reflexivity|]. split; [exact Hc|].
  split; [exact Hall | reflexivity].
Qed.


End PersistenceTheorems.

Lemma saveState_then_restore_witness :
  well_formed_forest bookmark_and_group /\
  let stored := BookmarkManager.globalState (after BookmarkManager.saveState
                                                   bookmark_and_group) in
  let s' := snd (@BookmarkManager.new plain_host stored 7) in
  fst (@BookmarkManager.new plain_host stored 7) = Ok tt /\
  BookmarkManager.bookmarks s' = BookmarkManager.bookmarks bookmark_and_group /\
  map content (BookmarkManager.groups s')
    = map content (BookmarkManager.groups bookmark_and_group) /\
  rooted (BookmarkManager.groups s') /\
  BookmarkManager.log s' = [].
Proof.
  assert (H : well_formed_forest bookmark_and_group).
  { split.
    - intros b [<-|[]]. repeat split.
    - intros g [<-|[]]. constructor; [reflexivity | intros ? [] | intros ? []]. }
  split; [exact H|].
  exact (@saveState_then_restore plain_host bookmark_and_group 7 H).
Defined.


(** ** The parent back-references *)

Section DataInduction.
Variable P : GroupData -> Prop.
Hypothesis step :
  forall d, (forall gds c, gd_groups d = Some gds -> In c gds -> P c) -> P d.

Lemma groupdata_induction : forall d, P d.
Proof.
  fix IH 1. intros d. apply step.
  destruct d as [i n de bs gs t]; simpl.
  destruct gs as [gds|]; [|discriminate].
  intros gds' c [= <-]. revert c.
  induction gds as [|d' gds IHgds]; simpl.
  - intros ? [].
  - intros c [<-|Hin]; [apply IH | now apply IHgds].
Qed.
End DataInduction.

Section Links.
Context {host : Host}.

Lemma children_linked (a : nat) (gds : list GroupData) :
  (forall c, In c gds ->
     forall n g n', BookmarkGroup.fromJSON c n = (Ok g, n') ->
                    linked g /\ BookmarkGroup.parent g = None) ->
  forall m cs m',
    map_m (fun groupData =>
             bind (BookmarkGroup.fromJSON groupData) (fun childGroup =>
             ret (BookmarkGroup.set_parent (Some a) childGroup)))
          gds m = (Ok cs, m') ->
    forall c, In c cs -> BookmarkGroup.parent c = Some a /\ linked c.
Proof.
  induction gds as [|gd gds IH]; intros H m cs m'; cbn [map_m].
  - unfold ret. intros [= <- <-] c [].
  - unfold bind at 1. unfold bind at 1.
    destruct (BookmarkGroup.fromJSON gd m) as [[g|e] m1] eqn:Eg; [|discriminate].
    unfold ret at 1. unfold bind at 1.
    destruct (map_m _ gds m1) as [[cs'|e] m2] eqn:Ecs; [|discriminate].
    unfold ret. intros [= <- <-] c [<-|Hc].
    + destruct (H gd (or_introl eq_refl) _ _ _ Eg) as [Hl _].
      split; [now destruct g | now apply linked_set_parent].
    + exact (IH (fun c' Hc' => H c' (or_intror Hc')) _ _ _ Ecs c Hc).
Qed.

Lemma fromJSON_linked (d : GroupData) :
  forall n g n', BookmarkGroup.fromJSON d n = (Ok g, n') ->
                 linked g /\ BookmarkGroup.parent g = None.
Proof.
  induction d as [d IH] using groupdata_induction. intros n g n'.
  destruct d as [i nm de bs gs t].
  cbn [BookmarkGroup.fromJSON gd_id gd_name gd_description gd_bookmarks gd_groups
       gd_createdAt].
  unfold bind at 1. unfold get at 1. unfold bind at 1. unfold put at 1.
  unfold bind at 1. unfold lift at 1.
  destruct (match bs with
            | Some bds => map_throwing Bookmark.fromJSON bds
            | None => Throw TypeError
            end) as [bms|e]; [|discriminate].
  unfold bind at 1.
  destruct gs as [gds|]; [|unfold throw; discriminate].
  destruct (map_m _ gds (S n)) as [[cs|e] m] eqn:E; [|discriminate].
  unfold ret. intros [= <- <-].
  split; [|reflexivity].
  assert (Hc := children_linked n gds (fun c Hc => IH gds c eq_refl Hc) _ E).
  constructor; cbn [BookmarkGroup.groups BookmarkGroup.addr]; intros c Hin;
    now apply Hc.
Qed.

Lemma map_m_fromJSON_rooted (gds : list GroupData) :
  forall n gs n', map_m BookmarkGroup.fromJSON gds n = (Ok gs, n') -> rooted gs.
Proof.
  induction gds as [|gd gds IH]; intros n gs n'; cbn [map_m].
  - unfold ret. intros [= <- <-] g [].
  - unfold bind at 1.
    destruct (BookmarkGroup.fromJSON gd n) as [[g|e] n1] eqn:Eg; [|discriminate].
    unfold bind at 1.
    destruct (map_m BookmarkGroup.fromJSON gds n1) as [[gs'|e] n2] eqn:Egs; [|discriminate].
    unfold ret. intros [= <- <-] x [<-|Hx].
    + exact (fromJSON_linked _ _ Eg).
    + exact (IH _ _ _ Egs x Hx).
Qed.

Lemma linked_children_of (g g' : BookmarkGroup.t) :
  (forall c, In c (BookmarkGroup.groups g') -> In c (BookmarkGroup.groups g)) ->
  BookmarkGroup.addr g' = BookmarkGroup.addr g ->
  linked g -> linked g'.
Proof.
  intros Hsub Haddr Hl. destruct Hl as [g Hp Hc].
  constructor; intros c Hin; [rewrite Haddr|]; auto.
Qed.

Lemma addBookmark_keeps_links (b : Bookmark.t) : keeps_links (BookmarkGroup.addBookmark b).
Proof.
  intros g Hl. unfold BookmarkGroup.addBookmark. destruct (negb _); [|split; [exact Hl | split; reflexivity]].
  split; [|now destruct g].
  apply linked_children_of with (g := g); [now destruct g | now destruct g | exact Hl].
Qed.

Lemma removeBookmark_keeps_links (id : string) :
  keeps_links (fun this => snd (BookmarkGroup.removeBookmark id this)).
Proof.
  intros g Hl. split; [|now destruct g].
  apply linked_children_of with (g := g); [now destruct g | now destruct g | exact Hl].
Qed.

Lemma removeGroup_keeps_links (id : string) :
  keeps_links (fun this => snd (BookmarkGroup.removeGroup id this)).
Proof.
  intros g Hl. split; [|now destruct g].
  apply linked_children_of with (g := g); [|now destruct g | exact Hl].
  destruct g; cbn. intros c Hc. now apply filter_In in Hc.
Qed.

Lemma set_name_keeps_links (n : string) : keeps_links (BookmarkGroup.set_name n).
Proof.
  intros g Hl. split; [|now destruct g].
  apply linked_children_of with (g := g); [now destruct g | now destruct g | exact Hl].
Qed.

Lemma set_description_keeps_links (d : string) :
  keeps_links (BookmarkGroup.set_description d).
Proof.
  intros g Hl. split; [|now destruct g].
  apply linked_children_of with (g := g); [now destruct g | now destruct g | exact Hl].
Qed.

Lemma addGroup_keeps_links (c : BookmarkGroup.t) :
  linked c -> keeps_links (BookmarkGroup.addGroup c).
Proof.
  intros Hc g Hl. unfold BookmarkGroup.addGroup. destruct (negb _); [|split; [exact Hl | split; reflexivity]].
  split; [|now destruct g].
  destruct Hl as [g Hp Hch].
  constructor; destruct g as [a i n d bs gs p t];
    cbn [BookmarkGroup.set_groups BookmarkGroup.groups BookmarkGroup.addr] in *;
    intros x Hx; apply in_app_or in Hx as [Hx|[<-|[]]]; auto.
  now apply linked_set_parent.
Qed.

Lemma modify_keeps_links (a : nat) (f : BookmarkGroup.t -> BookmarkGroup.t) :
  keeps_links f -> keeps_links (BookmarkGroup.modify a f).
Proof.
  intros Hf g. induction g as [g IH] using group_induction. intros Hl.
  rewrite modify_unfold. cbv zeta.
  assert (Hg' : linked (BookmarkGroup.set_groups
                          (map (BookmarkGroup.modify a f) (BookmarkGroup.groups g)) g)).
  { destruct Hl as [g Hp Hc].
    constructor; destruct g as [a' i n d bs gs p t];
      cbn [BookmarkGroup.set_groups BookmarkGroup.groups BookmarkGroup.addr] in *;
      intros x Hx; apply in_map_iff in Hx as (c & <- & Hin);
      destruct (IH c Hin (Hc c Hin)) as (H1 & H2 & H3); [|exact H1].
    rewrite H3. now apply Hp. }
  destruct (Nat.eqb _ a).
  - destruct (Hf _ Hg') as (H1 & H2 & H3). split; [exact H1|].
    rewrite H2, H3. now destruct g.
  - split; [exact Hg' | now destruct g].
Qed.

Lemma rooted_modify (a : nat) (f : BookmarkGroup.t -> BookmarkGroup.t)
      (gs : list BookmarkGroup.t) :
  keeps_links f -> rooted gs -> rooted (map (BookmarkGroup.modify a f) gs).
Proof.
  intros Hf H x Hx. apply in_map_iff in Hx as (g & <- & Hg).
  destruct (H g Hg) as [Hl Hp].
  destruct (modify_keeps_links a Hf Hl) as (H1 & _ & H3).
  split; [exact H1 | now rewrite H3].
Qed.

Lemma rooted_filter (p : BookmarkGroup.t -> bool) (gs : list BookmarkGroup.t) :
  rooted gs -> rooted (filter p gs).
Proof. intros H x Hx. apply filter_In in Hx as [Hx _]. now apply H. Qed.

Lemma rooted_app (gs gs' : list BookmarkGroup.t) :
  rooted gs -> rooted gs' -> rooted (gs ++ gs').
Proof. intros H H' x Hx. apply in_app_or in Hx as [Hx|Hx]; [now apply H | now apply H']. Qed.

Lemma rooted_call (ref : BookmarkGroup.t) (f : BookmarkGroup.t -> BookmarkGroup.t)
      (s : BookmarkManager.t) :
  keeps_links f ->
  rooted (BookmarkManager.groups s) ->
  rooted (BookmarkManager.groups (after (BookmarkManager.call ref f) s)).
Proof. intros Hf H. now apply rooted_modify. Qed.

End Links.

Section LinksPreserved.
Context {host : Host}.

Lemma rooted_new (a : nat) (amb : Ambient) (name : string) (description : option string) :
  rooted [BookmarkGroup.new a amb name description None].
Proof.
  intros g [<-|[]]. split; [|reflexivity]. constructor; intros c [].
Qed.

Lemma addBookmark_rooted (amb : Ambient) (uri : Uri) (name description groupId : option string)
      (s : BookmarkManager.t) :
  rooted (BookmarkManager.groups s) ->
  rooted (BookmarkManager.groups
            (after (BookmarkManager.addBookmark amb uri name description groupId) s)).
Proof.
  intros Hs.
  destruct (addBookmark_after amb uri name description groupId s) as [_ H].
  cbv zeta in H.
  destruct (match truthy groupId with
            | Some gid => BookmarkManager.findGroupById gid s
            | None => None
            end) as [group|]; destruct H as [-> _]; [|exact Hs].
  apply rooted_call; [apply addBookmark_keeps_links | exact Hs].
Qed.

Lemma removeBookmark_rooted (id : string) (s : BookmarkManager.t) :
  rooted (BookmarkManager.groups s) ->
  rooted (BookmarkManager.groups (after (BookmarkManager.removeBookmark id) s)).
Proof.
  intros Hs. unfold after at 1. rewrite removeBookmark_eq.
  destruct (existsb (bookmark_has_id id) (BookmarkManager.bookmarks s)).
  - cbn [snd]. now rewrite (proj1 (after_fire_saveState _)).
  - destruct (find (holds id) (BookmarkManager.getAllGroups s)) as [g|]; cbn [snd];
      [|exact Hs].
    rewrite (proj1 (after_fire_saveState _)).
    apply rooted_call; [apply removeBookmark_keeps_links | exact Hs].
Qed.

Lemma createGroup_rooted (amb : Ambient) (name : string) (description parentId : option string)
      (s : BookmarkManager.t) :
  rooted (BookmarkManager.groups s) ->
  rooted (BookmarkManager.groups
            (after (BookmarkManager.createGroup amb name description parentId) s)).
Proof.
  intros Hs.
  destruct (createGroup_after amb name description parentId s) as [_ H].
  cbv zeta in H.
  assert (Hnew := @rooted_new (BookmarkManager.next_addr s) amb name description).
  destruct (match truthy parentId with
            | Some pid => BookmarkManager.findGroupById pid s
            | None => None
            end) as [p|]; destruct H as [_ ->].
  - apply rooted_modify; [|exact Hs].
    apply addGroup_keeps_links. now apply (Hnew _ (or_introl eq_refl)).
  - now apply rooted_app.
Qed.

Lemma removeGroup_rooted (id : string) (s : BookmarkManager.t) :
  rooted (BookmarkManager.groups s) ->
  rooted (BookmarkManager.groups (after (BookmarkManager.removeGroup id) s)).
Proof.
  intros Hs. unfold after at 1. rewrite removeGroup_eq.
  destruct (existsb (has_id id) (BookmarkManager.groups s)).
  - cbn [snd]. rewrite (proj1 (after_fire_saveState _)). now apply rooted_filter.
  - destruct (find (holds_group id) (BookmarkManager.getAllGroups s)) as [g|]; cbn [snd];
      [|exact Hs].
    rewrite (proj1 (after_fire_saveState _)).
    apply rooted_call; [apply removeGroup_keeps_links | exact Hs].
Qed.

Lemma updateGroup_rooted (id : string) (name description : option string)
      (s : BookmarkManager.t) :
  rooted (BookmarkManager.groups s) ->
  rooted (BookmarkManager.groups (after (BookmarkManager.updateGroup id name description) s)).
Proof.
  intros Hs. unfold after at 1. rewrite updateGroup_eq.
  destruct (BookmarkManager.findGroupById id s) as [g|]; cbn [snd]; [|exact Hs].
  rewrite (proj1 (after_fire_saveState _)).
  assert (H1 : rooted (BookmarkManager.groups
                         (after (match name with
                                 | Some n => BookmarkManager.call g (BookmarkGroup.set_name n)
                                 | None => ret tt
                                 end) s))).
  { destruct name as [n|]; [|exact Hs].
    apply rooted_call; [apply set_name_keeps_links | exact Hs]. }
  destruct description as [d|]; [|exact H1].
  apply rooted_call; [apply set_description_keeps_links | exact H1].
Qed.

Lemma moveBookmarkToGroup_rooted (bookmarkId targetGroupId : string) (s : BookmarkManager.t) :
  rooted (BookmarkManager.groups s) ->
  rooted (BookmarkManager.groups
            (after (BookmarkManager.moveBookmarkToGroup bookmarkId targetGroupId) s)).
Proof.
  intros Hs. unfold after at 1. rewrite moveBookmarkToGroup_eq.
  destruct (BookmarkManager.findBookmarkById bookmarkId s) as [b|]; [|exact Hs].
  destruct (BookmarkManager.findGroupById targetGroupId s) as [g|]; cbn [snd]; [|exact Hs].
  rewrite (proj1 (after_fire_saveState _)).
  apply rooted_call; [apply addBookmark_keeps_links | now apply removeBookmark_rooted].
Qed.

Lemma import_groups_loop_rooted (gds : list GroupData) (s : BookmarkManager.t) :
  exists gs n skipped,
    (rooted gs /\ length gs <= length gds) /\
    for_each gds
      (fun groupData =>
         try_catch
           (bind (BookmarkManager.allocating (BookmarkGroup.fromJSON groupData)) (fun group =>
            bind get (fun s =>
            BookmarkManager.set_groups (BookmarkManager.groups s ++ [group]))))
           (fun _ => BookmarkManager.emit [ConsoleError "Failed to import group:"])) s =
    (Ok tt,
     BookmarkManager.mk (BookmarkManager.groups s ++ gs) (BookmarkManager.bookmarks s)
                        (BookmarkManager.globalState s) n
                        (BookmarkManager.log s ++ skipped)).
Proof.
  revert s; induction gds as [|gd gds IH]; intros s.
  - exists [], (BookmarkManager.next_addr s), [].
    split; [split; [intros ? [] | apply Nat.le_refl]|].
    cbn. unfold ret. rewrite !app_nil_r. now destruct s.
  - cbn [for_each].
    unfold bind at 1. unfold try_catch at 1. unfold bind at 1.
    unfold BookmarkManager.allocating at 1.
    destruct (BookmarkGroup.fromJSON gd (BookmarkManager.next_addr s)) as [[g|e] n1] eqn:Eg.
    + run_monad.
      match goal with
      | |- exists _ _ _, _ /\ for_each gds _ ?s1 = _ =>
          destruct (IH s1) as (gs & n & sk & [Hgs Hlen] & Heq)
      end.
      exists (g :: gs), n, sk. split; [split|].
      * intros x [<-|Hx]; [exact (fromJSON_linked _ _ Eg) | now apply Hgs].
      * cbn [length]. lia.
      * refine (eq_trans Heq _). cbn. now rewrite <- !app_assoc.
    + run_monad.
      match goal with
      | |- exists _ _ _, _ /\ for_each gds _ ?s1 = _ =>
          destruct (IH s1) as (gs & n & sk & [Hgs Hlen] & Heq)
      end.
      exists gs, n, (ConsoleError "Failed to import group:" :: sk).
      split; [split; [exact Hgs | cbn [length]; lia]|].
      refine (eq_trans Heq _). cbn. now rewrite <- !app_assoc.
Qed.

Lemma importFromJSON_imports (jsonData : string) (merge : bool) (s : BookmarkManager.t)
      (data : Document) :
  JSON_parse jsonData = Ok (Some data) ->
  let s' := after (BookmarkManager.importFromJSON jsonData merge) s in
  returned (BookmarkManager.importFromJSON jsonData merge) s = Ok true /\
  BookmarkManager.bookmarks s' =
    (if merge then BookmarkManager.bookmarks s else [])
      ++ imported_bookmarks (match doc_bookmarks data with Some bds => bds | None => [] end) /\
  exists gs,
    BookmarkManager.groups s' = (if merge then BookmarkManager.groups s else []) ++ gs /\
    rooted gs /\
    length gs <= length (match doc_groups data with Some gds => gds | None => [] end).
Proof.
  intros Hparse s'. subst s'.
  set (s1 := BookmarkManager.mk (if merge then BookmarkManager.groups s else [])
                                (if merge then BookmarkManager.bookmarks s else [])
                                (BookmarkManager.globalState s) (BookmarkManager.next_addr s)
                                (BookmarkManager.log s)).
  assert (H2 : exists s2,
             (BookmarkManager.groups s2 = BookmarkManager.groups s1 /\
              BookmarkManager.bookmarks s2 =
                BookmarkManager.bookmarks s1
                  ++ imported_bookmarks
                       (match doc_bookmarks data with Some bds => bds | None => [] end)) /\
             match doc_bookmarks data with
             | Some bds =>
                 for_each bds
                   (fun bookmarkData =>
                      try_catch
                        (bind (lift (Bookmark.fromJSON bookmarkData)) (fun bookmark =>
                         bind get (fun s0 =>
                         BookmarkManager.set_bookmarks
                           (BookmarkManager.bookmarks s0 ++ [bookmark]))))
                        (fun _ => BookmarkManager.emit
                                    [ConsoleError "Failed to import bookmark:"]))
             | None => ret tt
             end s1 = (Ok tt, s2)).
  { destruct (doc_bookmarks data) as [bds|].
    - eexists. split; [|apply import_bookmarks_loop]. split; reflexivity.
    - exists s1. split; [|reflexivity]. split; [reflexivity|].
      cbn. now rewrite app_nil_r. }
  destruct H2 as (s2 & [Hg2 Hb2] & H2).
  assert (H3 : exists s3 gs,
             (BookmarkManager.groups s3 = BookmarkManager.groups s2 ++ gs /\
              BookmarkManager.bookmarks s3 = BookmarkManager.bookmarks s2) /\
             (rooted gs /\
              length gs <= length (match doc_groups data with
                                   | Some gds => gds
                                   | None => []
                                   end)) /\
             match doc_groups data with
             | Some gds =>
                 for_each gds
                   (fun groupData =>
                      try_catch
                        (bind (BookmarkManager.allocating (BookmarkGroup.fromJSON groupData))
                              (fun group =>
                         bind get (fun s0 =>
                         BookmarkManager.set_groups
                           (BookmarkManager.groups s0 ++ [group]))))
                        (fun _ => BookmarkManager.emit
                                    [ConsoleError "Failed to import group:"]))
             | None => ret tt
             end s2 = (Ok tt, s3)).
  { destruct (doc_groups data) as [gds|].
    - destruct (import_groups_loop_rooted gds s2) as (gs & n & sk & Hgs & Heq).
      eexists _, gs. split; [|split; [exact Hgs | exact Heq]]. split; reflexivity.
    - exists s2, []. split; [split; [now rewrite app_nil_r | reflexivity]|].
      split; [|reflexivity]. split; [intros ? [] | apply Nat.le_refl]. }
  destruct H3 as (s3 & gs & [Hg3 Hb3] & [Hgs Hlen] & H3).
  unfold returned, after.
  rewrite (@importFromJSON_steps _ _ merge s s2 s3 data Hparse H2 H3). cbn [fst snd].
  destruct (after_fire_saveState s3) as [Kg Kb]. rewrite Kg, Kb, Hg3, Hb3, Hg2, Hb2.
  split; [reflexivity|]. split; [reflexivity|].
  exists gs. split; [reflexivity|]. split; assumption.
Qed.

Lemma importFromJSON_rooted (jsonData : string) (merge : bool) (s : BookmarkManager.t) :
  rooted (BookmarkManager.groups s) ->
  rooted (BookmarkManager.groups (after (BookmarkManager.importFromJSON jsonData merge) s)).
Proof.
  intros Hs.
  assert (Hkept : rooted (if merge then BookmarkManager.groups s else []))
    by (destruct merge; [exact Hs | intros ? []]).
  assert (H := importFromJSON_notifies jsonData merge s). cbv zeta in H.
  destruct (JSON_parse jsonData) as [[data|]|e] eqn:Hparse.
  - assert (K := @importFromJSON_imports jsonData merge s data Hparse). cbv zeta in K.
    destruct K as (_ & _ & gs & -> & Hgs & _).
    now apply rooted_app.
  - destruct H as [_ ->]. exact Hkept.
  - destruct H as [_ ->]. exact Hs.
Qed.

Lemma new_rooted (stored : option Document) (next : nat) :
  rooted (BookmarkManager.groups (snd (BookmarkManager.new stored next))).
Proof.
  unfold BookmarkManager.new, BookmarkManager.loadState. run_monad.
  destruct stored as [data|]; [|intros ? []].
  destruct (doc_bookmarks data) as [bds|];
    [destruct (map_throwing Bookmark.fromJSON bds)|]; cbn; try (intros ? []).
  all: destruct (doc_groups data) as [gds|]; cbn; try (intros ? []).
  all: destruct (map_m BookmarkGroup.fromJSON gds next) as [[gs|e] n] eqn:E; cbn;
    try (intros ? []).
  all: exact (map_m_fromJSON_rooted _ _ E).
Qed.

End LinksPreserved.

Section LinksTheorems.
Context {host : Host}.

(** X16 (the methods of [BookmarkManager] that change the forest; [parent]
    in [BookmarkGroup.addGroup]).  When no root group has a parent and
    every child, at every depth, has the group that holds it as its
    [parent], the same is true after [addBookmark], [removeBookmark],
    [createGroup], [removeGroup], [updateGroup], [moveBookmarkToGroup] and
    [importFromJSON], whatever their arguments and whatever they return. *)
Theorem parents_stay_consistent (s : BookmarkManager.t) :
  rooted (BookmarkManager.groups s) ->
  (forall amb uri name description groupId,
      rooted (BookmarkManager.groups
                (after (BookmarkManager.addBookmark amb uri name description groupId) s))) /\
  (forall id,
      rooted (BookmarkManager.groups (after (BookmarkManager.removeBookmark id) s))) /\
  (forall amb name description parentId,
      rooted (BookmarkManager.groups
                (after (BookmarkManager.createGroup amb name description parentId) s))) /\
  (forall id,
      rooted (BookmarkManager.groups (after (BookmarkManager.removeGroup id) s))) /\
  (forall id name description,
      rooted (BookmarkManager.groups
                (after (BookmarkManager.updateGroup id name description) s))) /\
  (forall bookmarkId targetGroupId,
      rooted (BookmarkManager.groups
                (after (BookmarkManager.moveBookmarkToGroup bookmarkId targetGroupId) s))) /\
  (forall jsonData merge,
      rooted (BookmarkManager.groups
                (after (BookmarkManager.importFromJSON jsonData merge) s))).
Proof.
  intros Hs.
  split; [intros; now apply addBookmark_rooted|].
  split; [intros; now apply removeBookmark_rooted|].
  split; [intros; now apply createGroup_rooted|].
  split; [intros; now apply removeGroup_rooted|].
  split; [intros; now apply updateGroup_rooted|].
  split; [intros; now apply moveBookmarkToGroup_rooted|].
  intros; now apply importFromJSON_rooted.
Qed.

(** X17 (the constructor of [BookmarkManager], [loadState],
    [BookmarkGroup.fromJSON]).  Whatever [globalState] holds, the manager
    the constructor builds has root groups without a parent, below which
    every child has the group that holds it as its [parent]. *)
Theorem constructor_links_what_it_restores (stored : option Document) (next : nat) :
  rooted (BookmarkManager.groups (snd (BookmarkManager.new stored next))).
Proof. apply new_rooted. Qed.

End LinksTheorems.

Lemma parents_stay_consistent_witness :
  rooted (BookmarkManager.groups three_levels) /\
  rooted (BookmarkManager.groups
            (after (BookmarkManager.createGroup same_tick "new" None (Some "D"))
                   three_levels)) /\
  rooted (BookmarkManager.groups (after (BookmarkManager.removeGroup "C") three_levels)).
Proof.
  assert (H : rooted (BookmarkManager.groups three_levels)).
  { intros g [<-|[]]. split; [|reflexivity].
    constructor; intros c [<-|[]]; [reflexivity|].
    constructor; intros d [<-|[]]; [reflexivity|].
    constructor; intros ? []. }
  split; [exact H|]. split.
  - exact (proj1 (proj2 (proj2 (@parents_stay_consistent plain_host three_levels H)))
             same_tick "new" None (Some "D")).
  - exact (proj1 (proj2 (proj2 (proj2 (@parents_stay_consistent plain_host three_levels H))))
             "C").
Defined.

(** ** What the code builds, written and read again *)

Section Built.
Context {host : Host}.

(** X18 ([Bookmark] constructor, [Bookmark.toJSON], [Bookmark.fromJSON]).
    A bookmark the constructor built, and a bookmark [fromJSON] read, are
    read back from their own [toJSON] as they are, id and creation date
    included, whenever the host reads back the uri and the date it printed
    for them: the name the code gives never needs the fallback again. *)
Theorem built_bookmarks_round_trip :
  (forall amb uri name description,
      Uri_parse (Some (Uri_toString uri)) = Ok uri ->
      Date_parse (toISOString (new_Date amb)) = new_Date amb ->
      Bookmark.fromJSON (Bookmark.toJSON (Bookmark.new amb uri name description))
        = Ok (Bookmark.new amb uri name description)) /\
  (forall data b,
      Bookmark.fromJSON data = Ok b ->
      Uri_parse (Some (Uri_toString (Bookmark.uri b))) = Ok (Bookmark.uri b) ->
      Date_parse (toISOString (Bookmark.createdAt b)) = Bookmark.createdAt b ->
      Bookmark.fromJSON (Bookmark.toJSON b) = Ok b).
Proof.
  split.
  - intros amb uri name description Huri Hdate. apply bookmark_round_trip.
    split; [apply new_well_named|]. split; assumption.
  - intros data b Hb Huri Hdate. apply bookmark_round_trip.
    split; [now apply fromJSON_well_named with (data := data)|]. split; assumption.
Qed.

End Built.

Lemma built_bookmarks_round_trip_witness :
  let b := @Bookmark.new plain_host same_tick "file:///dir/a.txt" (Some EmptyString) None in
  (@Uri_parse plain_host (Some (@Uri_toString plain_host "file:///dir/a.txt"))
     = Ok "file:///dir/a.txt" /\
   @Date_parse plain_host (@toISOString plain_host (new_Date same_tick))
     = new_Date same_tick) /\
  Bookmark.name b = "a.txt" /\
  Bookmark.fromJSON (Bookmark.toJSON b) = Ok b.
Proof.
  intros b. split; [split; reflexivity|]. split; [reflexivity|].
  apply (proj1 (@built_bookmarks_round_trip plain_host)); reflexivity.
Defined.

(** ** What an import brings in *)

Section ImportTheorems.
Context {host : Host}.


End ImportTheorems.


(** ** Closing the tabs of a group *)

Section ClosingTabs.
Context {host : Host}.
Variable Editor : Type.
Variable Tab : Type.
Variable tabs_showing : Uri -> Editor -> Result (list Tab).
Variable close : Tab -> Editor -> Result unit * Editor.

Lemma close_tabs_log (tabs : list Tab) (st : Editor * list Event) :
  exists r editor,
    for_each tabs (fun tab st =>
                     let (r, editor) := close tab (fst st) in (r, (editor, snd st))) st
    = (r, (editor, snd st)).
Proof.
  revert st. induction tabs as [|tab tabs IH]; intros [e log]; cbn [for_each].
  - now exists (Ok tt), e.
  - unfold bind. cbn [fst snd].
    destruct (close tab e) as [[[]|x] e1].
    + destruct (IH (e1, log)) as (r & e2 & ->). now exists r, e2.
    + now exists (Throw x), e1.
Qed.

Lemma close_one_bookmark (b : Bookmark.t) (st : Editor * list Event) :
  exists editor errors,
    try_catch
      (bind (fun st => (tabs_showing (Bookmark.uri b) (fst st), st)) (fun tabsToClose =>
       for_each tabsToClose (fun tab st =>
         let (r, editor) := close tab (fst st) in (r, (editor, snd st)))))
      (fun _ st =>
         (Ok tt,
          (fst st,
           snd st ++ [ConsoleError ("Error closing bookmark " ++ Bookmark.name b ++ ":")])))
      st
    = (Ok tt, (editor, snd st ++ errors)) /\
    (errors = [] \/
     errors = [ConsoleError ("Error closing bookmark " ++ Bookmark.name b ++ ":")]).
Proof.
  destruct st as [e log]. unfold try_catch, bind. cbn [fst snd].
  destruct (tabs_showing (Bookmark.uri b) e) as [tabs|x].
  - destruct (close_tabs_log tabs (e, log)) as ([[]|x] & e1 & ->); cbn [fst snd].
    + exists e1, []. split; [now rewrite app_nil_r | now left].
    + exists e1, [ConsoleError ("Error closing bookmark " ++ Bookmark.name b ++ ":")].
      split; [reflexivity | now right].
  - exists e, [ConsoleError ("Error closing bookmark " ++ Bookmark.name b ++ ":")].
    split; [reflexivity | now right].
Qed.

Lemma for_each_app (S A : Type) (body : A -> M S unit) (xs ys : list A) (s : S) :
  (forall x s, fst (body x s) = Ok tt) ->
  for_each (xs ++ ys) body s = for_each ys body (snd (for_each xs body s)).
Proof.
  intros Hok. revert s. induction xs as [|x xs IH]; intros s; cbn [app for_each];
    [reflexivity|].
  unfold bind. specialize (Hok x s).
  destruct (body x s) as [[[]|e] s1]; [apply IH | discriminate].
Qed.

(** X20 ([BookmarkGroup.closeAll]).  Whatever the editor does, [closeAll]
    does not throw; it logs at most one error for each bookmark of the
    group, naming it; and the bookmarks that follow a failure are still
    gone through, from the state the earlier ones left the editor in. *)
Theorem closeAll_goes_through_every_bookmark (g : BookmarkGroup.t)
        (st : Editor * list Event) :
  (exists editor errors,
      closeAll tabs_showing close g st = (Ok tt, (editor, snd st ++ errors)) /\
      length errors <= length (BookmarkGroup.bookmarks g) /\
      Forall (fun e => exists b,
                  In b (BookmarkGroup.bookmarks g) /\
                  e = ConsoleError ("Error closing bookmark " ++ Bookmark.name b ++ ":"))
             errors) /\
  (forall earlier later,
      BookmarkGroup.bookmarks g = earlier ++ later ->
      closeAll tabs_showing close g st =
      closeAll tabs_showing close (BookmarkGroup.set_bookmarks later g)
               (snd (closeAll tabs_showing close
                              (BookmarkGroup.set_bookmarks earlier g) st))).
Proof.
  split.
  - unfold closeAll. revert st.
    induction (BookmarkGroup.bookmarks g) as [|b bs IH]; intros st; cbn [for_each].
    + exists (fst st), []. rewrite app_nil_r. destruct st.
      split; [reflexivity|]. split; [apply Nat.le_refl | constructor].
    + unfold bind at 1.
      destruct (close_one_bookmark b st) as (e1 & errs & -> & Herrs).
      destruct (IH (e1, snd st ++ errs)) as (e2 & errs' & -> & Hlen & Hall).
      exists e2, (errs ++ errs'). cbn [snd]. rewrite app_assoc.
      split; [reflexivity|]. split.
      * rewrite length_app. cbn [length]. destruct Herrs as [-> | ->]; cbn [length]; lia.
      * apply Forall_app. split.
        -- destruct Herrs as [-> | ->]; constructor; [|constructor].
           exists b. split; [now left | reflexivity].
        -- eapply Forall_impl; [|exact Hall].
           intros e (b' & Hb' & ->). exists b'. split; [now right | reflexivity].
  - intros earlier later Hg. unfold closeAll. rewrite Hg.
    destruct g; cbn [BookmarkGroup.set_bookmarks BookmarkGroup.bookmarks].
    apply for_each_app. intros b s.
    destruct (close_one_bookmark b s) as (e1 & errs & -> & _). reflexivity.
Qed.

End ClosingTabs.

(** ** Removing a group, then looking for it *)

Section RemoveGroupThenFind.
Context {host : Host}.

Lemma count_app (A : Type) (p : A -> bool) (xs ys : list A) :
  length (filter p (xs ++ ys)) = length (filter p xs) + length (filter p ys).
Proof. now rewrite filter_app, length_app. Qed.

(** The children of the groups listed below some groups are the groups
    listed below them but for the first level: counted by a predicate. *)
Lemma count_children_below (p : BookmarkGroup.t -> bool) (cs : list BookmarkGroup.t) :
  (forall c, In c cs ->
     length (filter p (flat_map BookmarkGroup.groups
                                (BookmarkManager.getAllGroupsRecursive c))) =
     length (filter p (flat_map BookmarkManager.getAllGroupsRecursive
                                (BookmarkGroup.groups c)))) ->
  length (filter p (flat_map BookmarkGroup.groups
                             (cs ++ flat_map BookmarkManager.getAllGroupsRecursive cs))) =
  length (filter p (flat_map BookmarkManager.getAllGroupsRecursive cs)).
Proof.
  induction cs as [|c cs IH]; intros H; [reflexivity|].
  assert (Hc := H c (or_introl eq_refl)).
  assert (Hcs := IH (fun c' Hc' => H c' (or_intror Hc'))).
  cbn [flat_map app] in *.
  rewrite !flat_map_app, !count_app in *.
  rewrite (getAllGroupsRecursive_eq c) at 2. rewrite count_app. lia.
Qed.

Lemma count_children_listed (p : BookmarkGroup.t -> bool) (g : BookmarkGroup.t) :
  length (filter p (flat_map BookmarkGroup.groups
                             (BookmarkManager.getAllGroupsRecursive g))) =
  length (filter p (flat_map BookmarkManager.getAllGroupsRecursive
                             (BookmarkGroup.groups g))).
Proof.
  induction g as [g IH] using group_induction.
  rewrite getAllGroupsRecursive_eq at 1. now apply count_children_below.
Qed.

Lemma count_children_le (p : BookmarkGroup.t -> bool) (s : BookmarkManager.t) :
  length (filter p (flat_map BookmarkGroup.groups (BookmarkManager.getAllGroups s)))
  <= length (filter p (BookmarkManager.getAllGroups s)).
Proof.
  rewrite getAllGroups_eq.
  rewrite (count_children_below p (BookmarkManager.groups s)
             (fun c _ => count_children_listed p c)).
  rewrite count_app. lia.
Qed.

Lemma holds_group_modify_removeGroup (a : nat) (id : string) (g : BookmarkGroup.t) :
  holds_group id
    (BookmarkGroup.modify a (fun this => snd (BookmarkGroup.removeGroup id this)) g) =
  if Nat.eqb (BookmarkGroup.addr g) a then false else holds_group id g.
Proof.
  unfold holds_group. rewrite modify_removeGroup_groups. cbv zeta.
  destruct (Nat.eqb (BookmarkGroup.addr g) a).
  - apply (existsb_filter_negb (has_id id)).
  - apply existsb_has_id_modify.
Qed.

Lemma no_parent_after (a : nat) (id : string) (gs : list BookmarkGroup.t) :
  existsb (holds_group id) gs = false ->
  existsb (holds_group id)
          (map (BookmarkGroup.modify a (fun this => snd (BookmarkGroup.removeGroup id this)))
               gs) = false.
Proof.
  induction gs as [|g gs IH]; cbn [map existsb]; [reflexivity|].
  intros H. apply orb_false_iff in H as [Hg Hgs].
  rewrite holds_group_modify_removeGroup, Hg, (IH Hgs).
  now destruct (Nat.eqb (BookmarkGroup.addr g) a).
Qed.

Lemma one_parent_emptied (id : string) (gs : list BookmarkGroup.t) (p : BookmarkGroup.t) :
  length (filter (has_id id) (flat_map BookmarkGroup.groups gs)) <= 1 ->
  find (holds_group id) gs = Some p ->
  existsb (holds_group id)
          (map (BookmarkGroup.modify (BookmarkGroup.addr p)
                  (fun this => snd (BookmarkGroup.removeGroup id this))) gs) = false.
Proof.
  induction gs as [|g gs IH]; cbn [find map flat_map existsb]; [discriminate|].
  rewrite count_app, holds_group_modify_removeGroup.
  destruct (holds_group id g) eqn:E.
  - intros Hcount [= <-]. rewrite Nat.eqb_refl. cbn [orb].
    apply no_parent_after.
    unfold holds_group in E. rewrite existsb_counted in E.
    apply negb_true_iff, Nat.eqb_neq in E.
    change (holds_group id)
      with (fun g : BookmarkGroup.t => existsb (has_id id) (BookmarkGroup.groups g)).
    rewrite <- existsb_flat_map, existsb_counted.
    apply negb_false_iff, Nat.eqb_eq. lia.
  - intros Hcount H.
    rewrite IH; [now destruct (Nat.eqb _ _) | lia | exact H].
Qed.

(** What is listed below a tree after [removeGroup] through a reference
    is the image of something that was listed below it. *)
Lemma removeGroup_nothing_new (a : nat) (id : string) (g x : BookmarkGroup.t) :
  In x (BookmarkManager.getAllGroupsRecursive
          (BookmarkGroup.modify a (fun this => snd (BookmarkGroup.removeGroup id this)) g)) ->
  exists y, In y (BookmarkManager.getAllGroupsRecursive g) /\
            x = BookmarkGroup.modify a (fun this => snd (BookmarkGroup.removeGroup id this)) y.
Proof.
  revert x. induction g as [g IH] using group_induction. intros x.
  assert (Hsub : forall z,
             In z (BookmarkGroup.groups
                     (BookmarkGroup.modify a
                        (fun this => snd (BookmarkGroup.removeGroup id this)) g)) ->
             exists y, In y (BookmarkGroup.groups g) /\
                       z = BookmarkGroup.modify a
                             (fun this => snd (BookmarkGroup.removeGroup id this)) y).
  { intros z. rewrite modify_removeGroup_groups. cbv zeta.
    destruct (Nat.eqb (BookmarkGroup.addr g) a); intros Hz;
      [apply filter_In in Hz as [Hz _]|];
      apply in_map_iff in Hz as (y & <- & Hy); now exists y. }
  rewrite getAllGroupsRecursive_eq, (getAllGroupsRecursive_eq g).
  intros H. apply in_app_or in H as [H|H].
  - destruct (Hsub x H) as (y & Hy & ->). exists y.
    split; [apply in_or_app; now left | reflexivity].
  - apply in_flat_map in H as (z & Hz & Hx).
    destruct (Hsub z Hz) as (y & Hy & ->).
    destruct (IH y Hy x Hx) as (y' & Hy' & ->). exists y'.
    split; [|reflexivity].
    apply in_or_app. right. apply in_flat_map. now exists y.
Qed.

Lemma removeGroup_call_nothing_new (p : BookmarkGroup.t) (id : string)
      (s : BookmarkManager.t) (x : BookmarkGroup.t) :
  In x (BookmarkManager.getAllGroups
          (after (BookmarkManager.call p
                    (fun this => snd (BookmarkGroup.removeGroup id this))) s)) ->
  In x (map (BookmarkGroup.modify (BookmarkGroup.addr p)
               (fun this => snd (BookmarkGroup.removeGroup id this)))
            (BookmarkManager.getAllGroups s)).
Proof.
  rewrite !getAllGroups_eq. unfold after, BookmarkManager.call.
  cbn [snd BookmarkManager.groups].
  intros H. apply in_map_iff. apply in_app_or in H as [H|H].
  - apply in_map_iff in H as (y & <- & Hy). exists y.
    split; [reflexivity | apply in_or_app; now left].
  - apply in_flat_map in H as (z & Hz & Hx).
    apply in_map_iff in Hz as (r & <- & Hr).
    apply removeGroup_nothing_new in Hx as (y & Hy & ->). exists y.
    split; [reflexivity|]. apply in_or_app. right. apply in_flat_map. now exists r.
Qed.

Lemma existsb_flat_map_filter (A B : Type) (q : B -> bool) (f : A -> list B)
      (p : A -> bool) (xs : list A) :
  existsb q (flat_map f xs) = false -> existsb q (flat_map f (filter p xs)) = false.
Proof.
  induction xs as [|x xs IH]; cbn [flat_map filter]; [reflexivity|].
  rewrite existsb_app. intros H. apply orb_false_iff in H as [Hx Hxs].
  destruct (p x); cbn [flat_map]; [|now apply IH].
  now rewrite existsb_app, Hx, IH.
Qed.

Lemma removeGroup_leaves_none (id : string) (s : BookmarkManager.t) :
  length (filter (has_id id) (BookmarkManager.getAllGroups s)) <= 1 ->
  existsb (has_id id)
          (BookmarkManager.getAllGroups (after (BookmarkManager.removeGroup id) s))
  = false.
Proof.
  intros Hcount.
  destruct (existsb (has_id id) (BookmarkManager.getAllGroups s)) eqn:Eall;
    [|unfold after; now rewrite removeGroup_absent].
  assert (Hchildren := count_children_le (has_id id) s).
  unfold after at 1. rewrite removeGroup_eq.
  destruct (existsb (has_id id) (BookmarkManager.groups s)) eqn:Eroot; cbn [snd].
  - rewrite (getAllGroups_groups _ _ (proj1 (after_fire_saveState _))).
    rewrite getAllGroups_eq. unfold after, BookmarkManager.set_groups.
    cbn [snd BookmarkManager.groups].
    rewrite existsb_app, (existsb_filter_negb (has_id id)). cbn [orb].
    apply existsb_flat_map_filter.
    rewrite getAllGroups_eq, count_app in Hcount.
    rewrite existsb_counted in Eroot. apply negb_true_iff, Nat.eqb_neq in Eroot.
    rewrite existsb_counted. apply negb_false_iff, Nat.eqb_eq. lia.
  - rewrite existsb_getAllGroups, Eroot in Eall. cbn [orb] in Eall.
    rewrite (find_existsb (holds_group id)) in Eall.
    destruct (find (holds_group id) (BookmarkManager.getAllGroups s)) as [p|] eqn:E;
      [|discriminate].
    cbn [snd]. rewrite (getAllGroups_groups _ _ (proj1 (after_fire_saveState _))).
    rewrite existsb_getAllGroups.
    unfold after at 1, BookmarkManager.call at 1. cbn [snd BookmarkManager.groups].
    rewrite existsb_has_id_modify, Eroot. cbn [orb].
    assert (Hmap := one_parent_emptied id (BookmarkManager.getAllGroups s)
                      (Nat.le_trans _ _ _ Hchildren Hcount) E).
    match goal with |- ?e = false => destruct e eqn:Ex; [|reflexivity] end.
    apply existsb_exists in Ex as (x & Hx & Hholds).
    apply removeGroup_call_nothing_new in Hx.
    assert (Hex : existsb (holds_group id)
                          (map (BookmarkGroup.modify (BookmarkGroup.addr p)
                                  (fun this => snd (BookmarkGroup.removeGroup id this)))
                               (BookmarkManager.getAllGroups s)) = true)
      by (apply existsb_exists; now exists x).
    rewrite Hmap in Hex. discriminate.
Qed.

(** X21 ([BookmarkManager.removeGroup], [findGroupById]).  When at most one
    of the groups [getAllGroups] lists has the id, then after
    [removeGroup(id)] the call [findGroupById(id)] finds nothing, at
    whatever depth the group was. *)
Theorem removeGroup_then_findGroupById (id : string) (s : BookmarkManager.t) :
  length (filter (has_id id) (BookmarkManager.getAllGroups s)) <= 1 ->
  BookmarkManager.findGroupById id (after (BookmarkManager.removeGroup id) s) = None.
Proof.
  intros Hcount. assert (Hnone := removeGroup_leaves_none id s Hcount).
  assert (H := findGroupById_found id (after (BookmarkManager.removeGroup id) s)).
  destruct (BookmarkManager.findGroupById id _) as [g|]; [|reflexivity].
  destruct H as [Hid Hin]. exfalso.
  eapply not_listed_group; [exact Hnone | exact Hin | exact Hid].
Qed.

End RemoveGroupThenFind.

Lemma removeGroup_then_findGroupById_witness :
  length (filter (has_id "D") (BookmarkManager.getAllGroups three_levels)) <= 1 /\
  BookmarkManager.findGroupById "D" (after (BookmarkManager.removeGroup "D") three_levels)
    = None.
Proof.
  assert (H : length (filter (has_id "D") (BookmarkManager.getAllGroups three_levels)) <= 1)
    by (vm_compute; lia).
  split; [exact H|].
  exact (@removeGroup_then_findGroupById plain_host "D" three_levels H).
Defined.

Lemma removeBookmark_reaches_every_group_witness :
  existsb (bookmark_has_id "b1") (BookmarkManager.getAllBookmarks group_of_two) = true /\
  length (BookmarkManager.getAllBookmarks
            (after (BookmarkManager.removeBookmark "b1") group_of_two))
  < length (BookmarkManager.getAllBookmarks group_of_two).
Proof.
  split; [reflexivity|].
  exact (proj1 (proj2 (@removeBookmark_reaches_every_group plain_host "b1" group_of_two))
               eq_refl).
Defined.

Lemma closeAll_goes_through_every_bookmark_witness :
  BookmarkGroup.bookmarks gone_then_here = [gone_bookmark] ++ [here_bookmark] /\
  closeAll example_tabs example_close gone_then_here (["file:///here.txt"], [])
    = (Ok tt, ([], [ConsoleError "Error closing bookmark gone.txt:"])) /\
  closeAll example_tabs example_close gone_then_here (["file:///here.txt"], []) =
  closeAll example_tabs example_close
           (BookmarkGroup.set_bookmarks [here_bookmark] gone_then_here)
           (snd (closeAll example_tabs example_close
                          (BookmarkGroup.set_bookmarks [gone_bookmark] gone_then_here)
                          (["file:///here.txt"], []))).
Proof.
  split; [reflexivity|]. split; [vm_compute; reflexivity|].
  exact (proj2 (@closeAll_goes_through_every_bookmark gone_host _ _ example_tabs
                  example_close gone_then_here (["file:///here.txt"], []))
               [gone_bookmark] [here_bookmark] eq_refl).
Defined.

(** ** Moving never loses the bookmark *)

Section MoveKeeps.
Context {host : Host}.




(** X23 ([BookmarkGroup.isEmpty]).  A group that [isEmpty] lists no
    bookmark and no group below it; and a group is not empty after
    [addBookmark] or [addGroup], whether or not they added. *)
Theorem isEmpty_means_nothing_below (g c : BookmarkGroup.t) (b : Bookmark.t) :
  (BookmarkGroup.isEmpty g = true ->
   BookmarkGroup.getAllBookmarks g = [] /\ BookmarkManager.getAllGroupsRecursive g = []) /\
  BookmarkGroup.isEmpty (BookmarkGroup.addBookmark b g) = false /\
  BookmarkGroup.isEmpty (BookmarkGroup.addGroup c g) = false.
Proof.
  split; [|split].
  - rewrite group_getAllBookmarks_eq, getAllGroupsRecursive_eq.
    unfold BookmarkGroup.isEmpty. intros H. apply andb_true_iff in H as [Hb Hg].
    apply Nat.eqb_eq, length_zero_iff_nil in Hb, Hg. now rewrite Hb, Hg.
  - assert (H := holds_addBookmark b g). unfold holds in H.
    unfold BookmarkGroup.isEmpty.
    destruct (BookmarkGroup.bookmarks (BookmarkGroup.addBookmark b g));
      [discriminate | reflexivity].
  - assert (H := holds_group_addGroup c g). unfold holds_group in H.
    unfold BookmarkGroup.isEmpty.
    destruct (BookmarkGroup.groups (BookmarkGroup.addGroup c g));
      [discriminate | apply andb_false_r].
Qed.

End MoveKeeps.


Lemma isEmpty_means_nothing_below_witness :
  BookmarkGroup.isEmpty lone_group = true /\
  BookmarkGroup.getAllBookmarks lone_group = [] /\
  BookmarkManager.getAllGroupsRecursive lone_group = [].
Proof.
  split; [reflexivity|].
  exact (proj1 (@isEmpty_means_nothing_below plain_host lone_group lone_group bookmark_b1)
               eq_refl).
Defined.
